(** * The streaming chat hook [useChatMessages]

    A shallow embedding of [src/hooks/useChatMessages.ts]: the hook that
    sends one user message to the agent backend, reads the chunked event
    stream of the reply and folds every event into the assistant message of
    the conversation.

    - JavaScript strings are sequences of UTF-16 code units ([list N]), with
      [startsWith], [slice], [trim], [split], [includes] and [join] on them.
    - Values produced by [JSON.parse] are the inductive type [json]; the
      numbers (IEEE doubles) are kept abstract in the platform interface
      [Env], together with [JSON.parse] itself, the clock,
      [encodeURIComponent], the configured backend address, and the two
      extraction helpers of [utils/chatUtils] which the hook imports.
    - The messages ([types/chat.ts]) are records; a field holds what the
      code stores in it at run time, which for data read from a payload is
      any JSON value.
    - [setMessages(prev => ...)] is explicit state passing over the state of
      the hook; the locals of one [sendMessage] call ([assistantMessageId],
      [assistantText], [currentEvent]) are the record [turn]; an exception
      caught by the [try] around one record is an [option].
    - What the network does with a request is an input: the [fetch] is
      rejected, or resolves to a response whose body delivers decoded
      chunks and then ends or fails.
    - The callbacks of a render close over the [isLoading] of that render
      and over the agent; both are parameters of [sendMessage], and the
      flag is one of [cancelRequest], apart from the state of the hook.

    The properties follow the definitions: the framer, the dispatcher and
    the conversation invariants first, then whole turns, then every property
    evaluated on concrete turns in the environment [Demo.env]. *)

From Stdlib Require Import List NArith ZArith Bool Arith Lia String Ascii.
From Stdlib Require Import DecimalString.
From Stdlib Require DecimalPos DecimalN.
Import ListNotations.
Local Open Scope list_scope.
Local Open Scope bool_scope.

Set Implicit Arguments.
Set Warnings "-register-all".

(** ** Strings *)

Module Str.

Definition jsstring := list N.

(** An ASCII literal as code units. *)
Definition lit (s : string) : jsstring :=
  map N_of_ascii (list_ascii_of_string s).

(** The line feed, ['\n']. *)
Definition LF : N := 10%N.

Fixpoint eqb (a b : jsstring) : bool :=
  match a, b with
  | [], [] => true
  | x :: a', y :: b' => N.eqb x y && eqb a' b'
  | _, _ => false
  end.

(** [s.startsWith(p)] *)
Fixpoint startsWith (p s : jsstring) : bool :=
  match p, s with
  | [], _ => true
  | x :: p', y :: s' => N.eqb x y && startsWith p' s'
  | _ :: _, [] => false
  end.

(** [s.slice(n)] for a non-negative [n]. *)
Definition slice (n : nat) (s : jsstring) : jsstring := skipn n s.

(** [s.includes(needle)] *)
Fixpoint includes (needle s : jsstring) : bool :=
  startsWith needle s ||
  match s with
  | [] => false
  | _ :: s' => includes needle s'
  end.

(** White space and line terminators of ECMAScript, the code units that
    [trim] strips. *)
Definition is_whitespace (c : N) : bool :=
  ((9 <=? c) && (c <=? 13))%N
  || N.eqb c 32 || N.eqb c 160 || N.eqb c 5760
  || ((8192 <=? c) && (c <=? 8202))%N
  || N.eqb c 8232 || N.eqb c 8233 || N.eqb c 8239 || N.eqb c 8287
  || N.eqb c 12288 || N.eqb c 65279.

Fixpoint trimStart (s : jsstring) : jsstring :=
  match s with
  | [] => []
  | c :: s' => if is_whitespace c then trimStart s' else s
  end.

Definition trimEnd (s : jsstring) : jsstring := rev (trimStart (rev s)).

(** [s.trim()] *)
Definition trim (s : jsstring) : jsstring := trimEnd (trimStart s).

(** [s.split('\n')]: never empty, [''.split('\n')] is [['']]. *)
Fixpoint split (s : jsstring) : list jsstring :=
  match s with
  | [] => [[]]
  | c :: s' =>
      if N.eqb c LF then [] :: split s'
      else match split s' with
           | l :: ls => (c :: l) :: ls
           | [] => [[c]]
           end
  end.

(** [parts.join(sep)] on strings. *)
Fixpoint join (sep : jsstring) (parts : list jsstring) : jsstring :=
  match parts with
  | [] => []
  | [p] => p
  | p :: rest => p ++ sep ++ join sep rest
  end.

(** [n.toString()] of a non-negative integer. *)
Definition of_N (n : N) : jsstring :=
  lit (NilZero.string_of_uint (N.to_uint n)).

End Str.
Export Str.

(** ** JSON values *)

Section Json.

Variable number : Type.

Inductive json : Type :=
| JNull
| JBool (b : bool)
| JNum (n : number)
| JStr (s : jsstring)
| JArr (items : list json)
| JObj (fields : list (jsstring * json)).

(** The last binding of a key: a later duplicate member overwrites an
    earlier one in [JSON.parse]. *)
Fixpoint lookup (k : jsstring) (fields : list (jsstring * json)) : option json :=
  match fields with
  | [] => None
  | (k', v) :: rest =>
      match lookup k rest with
      | Some w => Some w
      | None => if Str.eqb k k' then Some v else None
      end
  end.

(** [v.k] for a [v] that is neither [null] nor [undefined]: [None] is
    [undefined].  None of the property names the hook reads exists on
    the prototypes of strings, numbers, booleans or arrays. *)
Definition prop (v : json) (k : jsstring) : option json :=
  match v with
  | JObj fields => lookup k fields
  | _ => None
  end.

End Json.

Arguments JNull {number}.
Arguments JBool {number} b.
Arguments JStr {number} s.
Arguments JArr {number} items.
Arguments JObj {number} fields.

(** ** The platform and the imported helpers *)

(** What the hook takes from outside its own file: the JavaScript number
    type, [JSON.parse], the clock behind [Date.now()] and [new Date()],
    [encodeURIComponent], [config.backendUrl], and [extractSqlQuery] and
    [extractVerificationInfo] of [utils/chatUtils]. *)
Class Env : Type := {
  number : Type;
  (** [!!n] *)
  number_truthy : number -> bool;
  (** [String(n)] *)
  number_toString : number -> jsstring;
  (** SameValueZero on numbers, the comparison of [Array.prototype.includes] *)
  number_sameValueZero : number -> number -> bool;
  (** [a + b] on numbers *)
  number_add : number -> number -> number;
  (** the numbers 0 and 1, for [ToNumber] of [null] and of booleans *)
  number_of_nat : nat -> number;
  (** [JSON.parse(s)]; [None] when it throws *)
  JSON_parse : jsstring -> option (json number);
  (** the instant, in milliseconds, returned by the k-th reading of the clock *)
  clock : nat -> N;
  backendUrl : jsstring;
  (** [encodeURIComponent(s)], or the message of the [URIError] it throws *)
  encodeURIComponent : jsstring -> jsstring + jsstring;
  (** the message of the [TypeError] that the conversion of an object to a
      primitive value throws *)
  conversion_error : jsstring;
  (** the structured verification metadata of a tool result *)
  verification : Type;
  (** [extractSqlQuery(data)], a string or absent *)
  extractSqlQuery : json number -> option jsstring;
  (** [extractVerificationInfo(data)], [None] when the result is falsy *)
  extractVerificationInfo : json number -> option verification
}.

Section Values.

Context {E : Env}.

Definition value : Type := json number.

(** [!!v] *)
Definition truthy (v : value) : bool :=
  match v with
  | JNull => false
  | JBool b => b
  | JNum n => number_truthy n
  | JStr s => negb (Str.eqb s [])
  | JArr _ | JObj _ => true
  end.

(** [a || b] where [b] is defined. *)
Definition js_or (a : option value) (b : value) : value :=
  match a with
  | Some v => if truthy v then v else b
  | None => b
  end.

(** [String(v)] for a value whose conversion returns ([converts] below):
    an array is its elements joined by commas, [null] elements giving the
    empty string; a plain object is ['[object Object]']. *)
Fixpoint toString (v : value) : jsstring :=
  match v with
  | JNull => lit "null"
  | JBool true => lit "true"
  | JBool false => lit "false"
  | JNum n => number_toString n
  | JStr s => s
  | JArr items =>
      (fix elements (l : list value) : jsstring :=
         match l with
         | [] => []
         | x :: rest =>
             let sx := match x with JNull => [] | _ => toString x end in
             match rest with
             | [] => sx
             | _ :: _ => sx ++ lit "," ++ elements rest
             end
         end) items
  | JObj _ => lit "[object Object]"
  end.

(** Whether the conversion of [v] to a string returns.  It throws a
    [TypeError] for a plain object with an own [toString] member: no value
    of JSON is callable, so that member is skipped, and [valueOf] does not
    give a primitive value either.  The conversion of an array converts its
    elements, [null] apart. *)
Fixpoint converts (v : value) : bool :=
  match v with
  | JArr items =>
      (fix elements (l : list value) : bool :=
         match l with
         | [] => true
         | x :: rest => converts x && elements rest
         end) items
  | JObj fields =>
      match lookup (lit "toString") fields with
      | Some _ => false
      | None => true
      end
  | _ => true
  end.

(** [errorParts.join(sep)] on an array of values. *)
Definition join_values (sep : jsstring) (items : list value) : jsstring :=
  Str.join sep
    (map (fun x => match x with JNull => [] | _ => toString x end) items).

(** [ToPrimitive(v)] *)
Definition toPrimitive (v : value) : value :=
  match v with
  | JArr _ | JObj _ => JStr (toString v)
  | _ => v
  end.

(** [ToNumber(v)] of a primitive that is not a string. *)
Definition toNumber (v : value) : number :=
  match v with
  | JNum n => n
  | JBool true => number_of_nat 1
  | _ => number_of_nat 0
  end.

(** [a + b] *)
Definition js_plus (a b : value) : value :=
  match toPrimitive a, toPrimitive b with
  | JStr x, pb => JStr (x ++ toString pb)
  | pa, JStr y => JStr (toString pa ++ y)
  | pa, pb => JNum (number_add (toNumber pa) (toNumber pb))
  end.

(** SameValueZero between a value [stored] in an array of the state and a
    value [fresh] out of the [JSON.parse] call of the current line.  Every
    [JSON.parse] call allocates its objects and arrays, so a fresh object
    or array is identical to no stored one. *)
Definition sameValueZero (stored fresh : value) : bool :=
  match stored, fresh with
  | JNull, JNull => true
  | JBool a, JBool b => Bool.eqb a b
  | JNum a, JNum b => number_sameValueZero a b
  | JStr a, JStr b => Str.eqb a b
  | _, _ => false
  end.

(** [arr.includes(v)] *)
Definition array_includes (arr : list value) (v : value) : bool :=
  existsb (fun x => sameValueZero x v) arr.

End Values.

(** ** Messages ([types/chat.ts]) and the constants of [textConstants] *)

Inductive Sender : Type := user | assistant.

Inductive Status : Type :=
| status_sending | status_sent | status_error | status_thinking.

Inductive TimelineType : Type :=
| tl_status | tl_thinking | tl_tool | tl_sql | tl_chart | tl_annotation.

Module Text.
Definition text_delta : jsstring := lit "response.text.delta".
Definition response_status : jsstring := lit "response.status".
Definition tool_result : jsstring := lit "response.tool_result".
Definition response_thinking : jsstring := lit "response.thinking".
Definition thinking_delta : jsstring := lit "response.thinking.delta".
Definition response_chart : jsstring := lit "response.chart".
Definition text_annotation : jsstring := lit "response.text.annotation".

Definition event_prefix : jsstring := lit "event: ".
Definition data_prefix : jsstring := lit "data: ".
Definition DONE : jsstring := lit "[DONE]".

(** [API_DEFAULTS] and [ERROR_TEXT] *)
Definition PROCESSING_RESULTS : jsstring := lit "Processing results...".
Definition API_ERROR : jsstring := lit "API Error".
Definition UNKNOWN_ERROR : jsstring := lit "Unknown error".
Definition NO_READABLE_STREAM : jsstring := lit "No readable stream available".
Definition RESPONSE_COMPLETED : jsstring := lit "Response completed".
Definition ERROR_PREFIX : jsstring :=
  lit "PAWS right there! We have hit a snag :(".
Definition USER_CANCELED : jsstring := lit "User canceled the request".

(** The blank-line separator ['\n\n']. *)
Definition blank_line : jsstring := [LF; LF].

(** The light-bulb sign U+1F4A1 of the connection tip, a surrogate pair. *)
Definition bulb : jsstring := [55357%N; 56481%N].
End Text.

Module Types.

Section Model.

(** The types of the JavaScript numbers and of the verification metadata,
    the two types of the platform the data depends on. *)
Variables (number verification : Type).

Local Abbreviation value := (json number).

Record TimelineEntry : Type := {
  tl_type : TimelineType;
  tl_content : value;
  tl_timestamp : N
}.

Record SqlQueryWithVerification : Type := {
  sql : jsstring;
  sql_verification : option verification
}.

(** A [ChartContent]; its [type] is always ['vega-lite']. *)
Record ChartContent : Type := {
  chart_spec : value
}.

(** The record the annotation handler builds; [None] is [undefined]. *)
Record TextAnnotation : Type := {
  ann_type : value;
  ann_start_index : option value;
  ann_end_index : option value;
  ann_annotation_index : option value;
  ann_content_index : option value;
  ann_text : option value;
  ann_url : option value;
  ann_title : option value;
  ann_source : option value;
  ann_doc_id : option value;
  ann_search_result_id : option value;
  ann_index : option value
}.

(** [ChatMessage].  An optional field that is absent is [None].  The
    fields hold what the code stores at run time: a status label read from
    a payload is whatever JSON value the payload carried. *)
Record ChatMessage : Type := {
  id : jsstring;
  text : jsstring;
  sender : Sender;
  timestamp : N;
  status : option Status;
  error : option value;
  isStreaming : option bool;
  streamingStatus : option value;
  thinkingSteps : option (list value);
  thinkingTexts : option (list value);
  sqlQueries : option (list SqlQueryWithVerification);
  charts : option (list ChartContent);
  annotations : option (list TextAnnotation);
  timeline : option (list TimelineEntry);
  toolsUsed : option (list jsstring)
}.

(** [arr || []] *)
Definition or_empty {A : Type} (arr : option (list A)) : list A :=
  match arr with
  | Some l => l
  | None => []
  end.

(** ** Errors and the network *)

(** An error object: whether it is a [TypeError], its [name] and
    [message], and the [fullMessage] property the hook attaches. *)
Record JsError : Type := {
  instanceof_TypeError : bool;
  name : jsstring;
  message : jsstring;
  fullMessage : option value
}.

(** What a [catch] clause receives: an [Error] instance or another value. *)
Inductive thrown : Type :=
| ThrowError (e : JsError)
| ThrowValue.

(** How the body stream of a response goes: the decoded text of the
    chunks read, then either the end of the stream or a rejected read. *)
Record body_stream : Type := {
  chunks : list jsstring;
  read_failure : option thrown
}.

(** How [response.json()] goes: it is rejected, by a body that is no JSON
    or by an aborted signal, or it resolves to the parsed body. *)
Inductive json_outcome : Type :=
| JsonRejects (err : thrown)
| JsonResolves (errorData : value).

(** A [Response]: [json_body] is how [response.json()] goes when it is
    called; [body] is [None] when there is no reader. *)
Record Response : Type := {
  ok : bool;
  resp_status : N;
  statusText : jsstring;
  content_type : option jsstring;
  json_body : json_outcome;
  body : option body_stream
}.

Inductive fetch_result : Type :=
| FetchRejects (e : thrown)
| FetchResolves (r : Response).

(** The one request of a turn: the endpoint and the user text of the body
    [{messages: [{role: "user", content: [{type: "text", text}]}],
      tool_choice: {type: "auto"}, stream: true}]. *)
Record Request : Type := {
  endpoint : jsstring;
  request_text : jsstring
}.

(** ** The state of the hook *)

Record AbortController : Type := { aborted : bool }.

(** [messages], [isLoading], [abortControllerRef.current], and the number
    of clock readings made so far. *)
Record HookState : Type := {
  messages : list ChatMessage;
  isLoading : bool;
  abortControllerRef : option AbortController;
  clock_reads : nat
}.

(** The locals of one [sendMessage] call. *)
Record turn : Type := {
  assistantMessageId : jsstring;
  assistantText : jsstring;
  currentEvent : jsstring
}.

Definition MAX_MESSAGES : nat := 100.

(** The branches of the [catch] clause of [sendMessage]. *)
Inductive failure_kind : Type :=
| UserCanceled
| ConnectionLost
| Reported (errorMessage : value)
| Unknown.

(** What the promise of [sendMessage] resolves to. *)
Inductive send_result : Type :=
| Ignored
| Success (assistantMessageId : jsstring)
| Failure (err : thrown).

End Model.

Arguments ThrowValue {number}.
Arguments UserCanceled {number}.
Arguments ConnectionLost {number}.
Arguments Unknown {number}.
Arguments Ignored {number}.
Arguments Success {number} assistantMessageId.

End Types.
Export Types.

(** The types at the number and verification types of the environment. *)
Abbreviation TimelineEntry := (Types.TimelineEntry number).
Abbreviation SqlQueryWithVerification := (Types.SqlQueryWithVerification verification).
Abbreviation ChartContent := (Types.ChartContent number).
Abbreviation TextAnnotation := (Types.TextAnnotation number).
Abbreviation ChatMessage := (Types.ChatMessage number verification).
Abbreviation JsError := (Types.JsError number).
Abbreviation thrown := (Types.thrown number).
Abbreviation body_stream := (Types.body_stream number).
Abbreviation json_outcome := (Types.json_outcome number).
Abbreviation Response := (Types.Response number).
Abbreviation fetch_result := (Types.fetch_result number).
Abbreviation HookState := (Types.HookState number verification).
Abbreviation failure_kind := (Types.failure_kind number).
Abbreviation send_result := (Types.send_result number).

(** ** The updaters passed to [setMessages] *)

Section Updaters.

Context {E : Env}.

(** [prev.map(msg => msg.id === assistantMessageId ? f(msg) : msg)] *)
Definition patch (aid : jsstring) (f : ChatMessage -> ChatMessage)
    (prev : list ChatMessage) : list ChatMessage :=
  map (fun msg => if Str.eqb (id msg) aid then f msg else msg) prev.

(** Text delta (lines 144-153):
    [{...msg, text, status: 'thinking', isStreaming: true}] *)
Definition upd_text_delta (currentText : jsstring) (msg : ChatMessage) : ChatMessage :=
  {| id := id msg; text := currentText; sender := sender msg;
     timestamp := timestamp msg;
     status := Some status_thinking;
     error := error msg;
     isStreaming := Some true;
     streamingStatus := streamingStatus msg;
     thinkingSteps := thinkingSteps msg;
     thinkingTexts := thinkingTexts msg;
     sqlQueries := sqlQueries msg;
     charts := charts msg;
     annotations := annotations msg;
     timeline := timeline msg;
     toolsUsed := toolsUsed msg |}.

(** The step list with [label] appended unless it [includes] it already
    (lines 162-164 and 183-185). *)
Definition add_step (steps : option (list value)) (label : value)
    : option (list value) :=
  if array_includes (or_empty steps) label then steps
  else Some (or_empty steps ++ [label]).

(** Status update (lines 156-171). *)
Definition upd_status (statusMessage : value) (now : N) (msg : ChatMessage) : ChatMessage :=
  {| id := id msg; text := text msg; sender := sender msg;
     timestamp := timestamp msg;
     status := Some status_thinking;
     error := error msg;
     isStreaming := isStreaming msg;
     streamingStatus := Some statusMessage;
     thinkingSteps := add_step (thinkingSteps msg) statusMessage;
     thinkingTexts := thinkingTexts msg;
     sqlQueries := sqlQueries msg;
     charts := charts msg;
     annotations := annotations msg;
     timeline :=
       Some (or_empty (timeline msg)
             ++ [{| tl_type := tl_status; tl_content := statusMessage;
                    tl_timestamp := now |}]);
     toolsUsed := toolsUsed msg |}.

(** [sqlQuery ? ... : ...]: a string is truthy when it is not empty. *)
Definition truthy_sql (sqlQuery : option jsstring) : option jsstring :=
  match sqlQuery with
  | Some (c :: q) => Some (c :: q)
  | _ => None
  end.

(** Tool result (lines 177-199). *)
Definition upd_tool_result (toolStatus : jsstring) (sqlQuery : option jsstring)
    (verificationInfo : option verification) (now : N) (msg : ChatMessage)
    : ChatMessage :=
  {| id := id msg; text := text msg; sender := sender msg;
     timestamp := timestamp msg;
     status := Some status_thinking;
     error := error msg;
     isStreaming := isStreaming msg;
     streamingStatus := Some (JStr toolStatus);
     thinkingSteps := add_step (thinkingSteps msg) (JStr toolStatus);
     thinkingTexts := thinkingTexts msg;
     sqlQueries :=
       match truthy_sql sqlQuery with
       | Some q =>
           Some (or_empty (sqlQueries msg)
                 ++ [{| sql := q; sql_verification := verificationInfo |}])
       | None => sqlQueries msg
       end;
     charts := charts msg;
     annotations := annotations msg;
     timeline :=
       Some (or_empty (timeline msg)
             ++ [{| tl_type := tl_tool; tl_content := JStr toolStatus;
                    tl_timestamp := now |}]
             ++ match truthy_sql sqlQuery with
                | Some q => [{| tl_type := tl_sql; tl_content := JStr q;
                                tl_timestamp := now |}]
                | None => []
                end);
     toolsUsed := toolsUsed msg |}.

(** Reasoning segment (lines 203-215). *)
Definition upd_thinking (thinkingText : jsstring) (now : N) (msg : ChatMessage) : ChatMessage :=
  {| id := id msg; text := text msg; sender := sender msg;
     timestamp := timestamp msg;
     status := Some status_thinking;
     error := error msg;
     isStreaming := isStreaming msg;
     streamingStatus := streamingStatus msg;
     thinkingSteps := thinkingSteps msg;
     thinkingTexts := Some (or_empty (thinkingTexts msg) ++ [JStr thinkingText]);
     sqlQueries := sqlQueries msg;
     charts := charts msg;
     annotations := annotations msg;
     timeline :=
       Some (or_empty (timeline msg)
             ++ [{| tl_type := tl_thinking; tl_content := JStr thinkingText;
                    tl_timestamp := now |}]);
     toolsUsed := toolsUsed msg |}.

(** Reasoning delta (lines 220-247): added to the last buffer, or a first
    buffer and a placeholder timeline entry when there is none. *)
Definition upd_thinking_delta (deltaText : value) (now : N) (msg : ChatMessage) : ChatMessage :=
  let currentThinkingTexts := or_empty (thinkingTexts msg) in
  {| id := id msg; text := text msg; sender := sender msg;
     timestamp := timestamp msg;
     status := Some status_thinking;
     error := error msg;
     isStreaming := isStreaming msg;
     streamingStatus := streamingStatus msg;
     thinkingSteps := thinkingSteps msg;
     thinkingTexts :=
       match currentThinkingTexts with
       | [] => Some [deltaText]
       | _ :: _ =>
           Some (removelast currentThinkingTexts
                 ++ [js_plus (last currentThinkingTexts JNull) deltaText])
       end;
     sqlQueries := sqlQueries msg;
     charts := charts msg;
     annotations := annotations msg;
     timeline :=
       match currentThinkingTexts with
       | [] =>
           Some (or_empty (timeline msg)
                 ++ [{| tl_type := tl_thinking;
                        tl_content := JStr (lit "Processing thinking...");
                        tl_timestamp := now |}])
       | _ :: _ => timeline msg
       end;
     toolsUsed := toolsUsed msg |}.

(** Chart (lines 258-269). *)
Definition upd_chart (chartContent : ChartContent) (now : N) (msg : ChatMessage) : ChatMessage :=
  {| id := id msg; text := text msg; sender := sender msg;
     timestamp := timestamp msg;
     status := status msg;
     error := error msg;
     isStreaming := isStreaming msg;
     streamingStatus := streamingStatus msg;
     thinkingSteps := thinkingSteps msg;
     thinkingTexts := thinkingTexts msg;
     sqlQueries := sqlQueries msg;
     charts := Some (or_empty (charts msg) ++ [chartContent]);
     annotations := annotations msg;
     timeline :=
       Some (or_empty (timeline msg)
             ++ [{| tl_type := tl_chart;
                    tl_content := JStr (lit "Chart visualization added");
                    tl_timestamp := now |}]);
     toolsUsed := toolsUsed msg |}.

(** [annotation.title || 'Reference'] *)
Definition title_or_reference (a : TextAnnotation) : value :=
  js_or (ann_title a) (JStr (lit "Reference")).

(** Annotation (lines 296-311). *)
Definition upd_annotation (annotation : TextAnnotation) (now : N) (msg : ChatMessage) : ChatMessage :=
  {| id := id msg; text := text msg; sender := sender msg;
     timestamp := timestamp msg;
     status := status msg;
     error := error msg;
     isStreaming := isStreaming msg;
     streamingStatus := streamingStatus msg;
     thinkingSteps := thinkingSteps msg;
     thinkingTexts := thinkingTexts msg;
     sqlQueries := sqlQueries msg;
     charts := charts msg;
     annotations := Some (or_empty (annotations msg) ++ [annotation]);
     timeline :=
       Some (or_empty (timeline msg)
             ++ [{| tl_type := tl_annotation;
                    tl_content :=
                      JStr (lit "Citation: "
                            ++ toString (title_or_reference annotation));
                    tl_timestamp := now |}]);
     toolsUsed := toolsUsed msg |}.

(** [assistantText || ERROR_TEXT.RESPONSE_COMPLETED] *)
Definition text_or_completed (assistantText : jsstring) : jsstring :=
  match assistantText with
  | [] => Text.RESPONSE_COMPLETED
  | _ :: _ => assistantText
  end.

(** The completion patch at the normal end of the stream (lines 326-336). *)
Definition upd_complete (assistantText : jsstring) (msg : ChatMessage) : ChatMessage :=
  {| id := id msg; text := text_or_completed assistantText; sender := sender msg;
     timestamp := timestamp msg;
     status := Some status_sent;
     error := error msg;
     isStreaming := Some false;
     streamingStatus := None;
     thinkingSteps := thinkingSteps msg;
     thinkingTexts := thinkingTexts msg;
     sqlQueries := sqlQueries msg;
     charts := charts msg;
     annotations := annotations msg;
     timeline := timeline msg;
     toolsUsed := toolsUsed msg |}.

(** The terminal error patch of both branches of the [catch] clause
    (lines 343-354 and 369-380). *)
Definition upd_failed (errorMessage : value) (msg : ChatMessage) : ChatMessage :=
  {| id := id msg; text := []; sender := sender msg;
     timestamp := timestamp msg;
     status := Some status_error;
     error := Some errorMessage;
     isStreaming := Some false;
     streamingStatus := None;
     thinkingSteps := thinkingSteps msg;
     thinkingTexts := thinkingTexts msg;
     sqlQueries := sqlQueries msg;
     charts := charts msg;
     annotations := annotations msg;
     timeline := timeline msg;
     toolsUsed := toolsUsed msg |}.

End Updaters.

(** ** The stream loop of [sendMessage] *)

Section Stream.

Context {E : Env}.

Definition with_messages (h : HookState) (msgs : list ChatMessage) : HookState :=
  {| messages := msgs;
     isLoading := isLoading h;
     abortControllerRef := abortControllerRef h;
     clock_reads := clock_reads h |}.

(** [setMessages(prev => prev.map(...))] of a handler whose updater reads
    the clock: the readings of one handler are taken as one, the hook
    never reads a timestamp back. *)
Definition setMessages_dated (aid : jsstring)
    (f : N -> ChatMessage -> ChatMessage) (h : HookState) : HookState :=
  {| messages := patch aid (f (clock (clock_reads h))) (messages h);
     isLoading := isLoading h;
     abortControllerRef := abortControllerRef h;
     clock_reads := S (clock_reads h) |}.

Definition setMessages (aid : jsstring)
    (f : ChatMessage -> ChatMessage) (h : HookState) : HookState :=
  with_messages h (patch aid f (messages h)).

(** [data.k]: [None] when the read throws a [TypeError] because [data] is
    [null]; [Some None] is [undefined]. *)
Definition get (data : value) (k : string) : option (option value) :=
  match data with
  | JNull => None
  | _ => Some (prop data (lit k))
  end.

(** The annotation record built from a truthy [data] (lines 279-294). *)
Definition make_annotation (data : value) : TextAnnotation :=
  let annotationData := js_or (prop data (lit "annotation")) data in
  {| ann_type := js_or (prop annotationData (lit "type")) (JStr (lit "citation"));
     ann_start_index := prop data (lit "start_index");
     ann_end_index := prop data (lit "end_index");
     ann_annotation_index := prop data (lit "annotation_index");
     ann_content_index := prop data (lit "content_index");
     ann_text := prop annotationData (lit "text");
     ann_url := prop annotationData (lit "doc_id");
     ann_title := prop annotationData (lit "doc_title");
     ann_source := prop annotationData (lit "source");
     ann_doc_id := prop annotationData (lit "doc_id");
     ann_search_result_id := prop annotationData (lit "search_result_id");
     ann_index := prop annotationData (lit "index") |}.

(** [currentEvent === name && data.k]: [None] when reading the property
    throws, [Some None] when the condition is false, [Some (Some v)] when
    it holds, [v] being the truthy [data.k]. *)
Definition cond_prop (ev name : jsstring) (data : value) (k : string)
    : option (option value) :=
  if Str.eqb ev name then
    match get data k with
    | None => None
    | Some (Some v) => if truthy v then Some (Some v) else Some None
    | Some None => Some None
    end
  else Some None.

(** [currentEvent === 'response.thinking' && data.thinking &&
    data.thinking.text] *)
Definition cond_thinking (ev : jsstring) (data : value) : option (option value) :=
  match cond_prop ev Text.response_thinking data "thinking" with
  | None => None
  | Some None => Some None
  | Some (Some th) =>
      match prop th (lit "text") with
      | Some v => if truthy v then Some (Some v) else Some None
      | None => Some None
      end
  end.

(** The body of the inner [try] for one parsed payload [data] under the
    event name [ev] (lines 141-317): the chain of [else if] branches.  [None] means that
    an exception was thrown, which the [catch] of the record swallows;
    every exception comes before the one [setMessages] of a branch. *)
Definition dispatch (ev : jsstring) (data : value) (t : turn) (h : HookState)
    : option (turn * HookState) :=
  let aid := assistantMessageId t in
  let unchanged := Some (t, h) in
  match cond_prop ev Text.text_delta data "text" with
  | None => None
  | Some (Some txt) =>
      let currentText := assistantText t ++ toString txt in
      Some ({| assistantMessageId := aid;
               assistantText := currentText;
               currentEvent := currentEvent t |},
            setMessages aid (upd_text_delta currentText) h)
  | Some None =>
  match cond_prop ev Text.response_status data "message" with
  | None => None
  | Some (Some statusMessage) =>
      Some (t, setMessages_dated aid (upd_status statusMessage) h)
  | Some None =>
  if Str.eqb ev Text.tool_result then
    Some (t, setMessages_dated aid
               (upd_tool_result Text.PROCESSING_RESULTS (extractSqlQuery data)
                  (extractVerificationInfo data)) h)
  else
  match cond_thinking ev data with
  | None => None
  | Some (Some (JStr s)) =>
      match trim s with
      | [] => unchanged
      | thinkingText =>
          Some (t, setMessages_dated aid (upd_thinking thinkingText) h)
      end
  | Some (Some _) => None
  | Some None =>
  match cond_prop ev Text.thinking_delta data "text" with
  | None => None
  | Some (Some deltaText) =>
      Some (t, setMessages_dated aid (upd_thinking_delta deltaText) h)
  | Some None =>
  if Str.eqb ev Text.response_chart then
    match get data "chart_spec" with
    | None => None
    | Some (Some spec) =>
        if truthy spec then
          match JSON_parse (toString spec) with
          | Some chartSpec =>
              Some (t, setMessages_dated aid
                         (upd_chart {| chart_spec := chartSpec |}) h)
          | None => unchanged
          end
        else unchanged
    | Some None => unchanged
    end
  else if Str.eqb ev Text.text_annotation then
    if truthy data
    then Some (t, setMessages_dated aid (upd_annotation (make_annotation data)) h)
    else unchanged
  else unchanged
  end end end end.

(** The branch of a line that starts with ['data: '] (lines 135-320), [ev]
    being the value of [currentEvent] it reads. *)
Definition process_data (ev : jsstring) (st : turn * HookState)
    (line : jsstring) : turn * HookState :=
  let (t, h) := st in
  let dataStr := trim (slice 6 line) in
  if Str.eqb dataStr [] || Str.eqb dataStr Text.DONE then st
  else
    match JSON_parse dataStr with
    | None => st
    | Some data =>
        match dispatch ev data t h with
        | Some st' => st'
        | None => st
        end
    end.

(** The body of [for (const line of lines)] (lines 131-322). *)
Definition process_line (st : turn * HookState) (line : jsstring)
    : turn * HookState :=
  if startsWith Text.event_prefix line then
    ({| assistantMessageId := assistantMessageId (fst st);
        assistantText := assistantText (fst st);
        currentEvent := trim (slice 7 line) |}, snd st)
  else if startsWith Text.data_prefix line then
    process_data (currentEvent (fst st)) st line
  else st.

Definition process_lines (st : turn * HookState) (lines : list jsstring)
    : turn * HookState :=
  fold_left process_line lines st.

(** One iteration of [while (true)] on a chunk that was read (lines
    128-130): its decoded text is split on ['\n'] and every line is
    processed. *)
Definition process_chunk (st : turn * HookState) (chunk : jsstring)
    : turn * HookState :=
  process_lines st (split chunk).

(** The loop over the chunks read before the stream ends or a read fails. *)
Definition read_loop (st : turn * HookState) (cs : list jsstring)
    : turn * HookState :=
  fold_left process_chunk cs st.

End Stream.

(** ** [sendMessage], [cancelRequest], [clearMessages] *)

Section Hook.

Context {E : Env}.

(** What the callbacks of one render close over (the dependency arrays
    [[isLoading, selectedAgent]] and [[isLoading]]): the agent the hook was
    called with, and [loading], the value the state [isLoading] had at that
    render.  A callback keeps that value until the component renders again,
    whatever the state has become since. *)
Variable selectedAgent : jsstring.
Variable loading : bool.

(** The [TypeError] of a conversion to a string that throws. *)
Definition conversion_TypeError : JsError :=
  {| instanceof_TypeError := true;
     name := lit "TypeError";
     message := conversion_error;
     fullMessage := None |}.

(** What [const error = new Error(msg); error.fullMessage = msg; throw
    error] throws (lines 107-109 and 115-117): [new Error(msg)] converts
    [msg] to a string first, and when that conversion throws, its
    [TypeError] is what the statement throws; otherwise the error made, with
    [fullMessage] set to [msg]. *)
Definition new_Error_full (msg : value) : JsError :=
  if converts msg then
    {| instanceof_TypeError := false;
       name := lit "Error";
       message := toString msg;
       fullMessage := Some msg |}
  else conversion_TypeError.

(** The rejection of a [fetch] or a [read] whose signal was aborted. *)
Definition AbortError (msg : jsstring) : JsError :=
  {| instanceof_TypeError := false;
     name := lit "AbortError";
     message := msg;
     fullMessage := None |}.

Definition userMessage (messageId : jsstring) (message : jsstring) (date : N)
    : ChatMessage :=
  {| id := messageId ++ lit "_user";
     text := trim message;
     sender := user;
     timestamp := date;
     status := None; error := None; isStreaming := None;
     streamingStatus := None; thinkingSteps := None; thinkingTexts := None;
     sqlQueries := None; charts := None; annotations := None;
     timeline := None; toolsUsed := None |}.

Definition assistantMessage (assistantMessageId : jsstring) (date : N)
    : ChatMessage :=
  {| id := assistantMessageId;
     text := [];
     sender := assistant;
     timestamp := date;
     status := Some status_thinking;
     error := None;
     isStreaming := Some true;
     streamingStatus := None;
     thinkingSteps := Some [];
     thinkingTexts := None;
     sqlQueries := Some [];
     charts := None;
     annotations := None;
     timeline := Some [];
     toolsUsed := Some [] |}.

(** [arr.slice(-n)]: the last [n] elements. *)
Definition slice_last {A : Type} (n : nat) (arr : list A) : list A :=
  skipn (List.length arr - n) arr.

(** The updater of the first [setMessages] (lines 46-52): the pair is
    appended and the conversation trimmed to its last [MAX_MESSAGES]
    entries. *)
Definition append_pair (userMsg assistantMsg : ChatMessage)
    (prev : list ChatMessage) : list ChatMessage :=
  let newMessages := prev ++ [userMsg; assistantMsg] in
  if MAX_MESSAGES <? List.length newMessages
  then slice_last MAX_MESSAGES newMessages
  else newMessages.

(** [!message.trim() || isLoading] (line 21): [isLoading] is the value the
    callback closed over, not the state. *)
Definition refused (message : jsstring) : bool :=
  Str.eqb (trim message) [] || loading.

(** The synchronous start of an admitted call (lines 23-57), up to the
    creation of the [AbortController]: three readings of the clock, for [Date.now()] and
    the two [new Date()]. *)
Definition start (h : HookState) (message : jsstring) : turn * HookState :=
  let k := clock_reads h in
  let messageId := of_N (clock k) in
  let assistantMessageId := messageId ++ lit "_assistant" in
  ({| assistantMessageId := assistantMessageId;
      assistantText := [];
      currentEvent := [] |},
   {| messages :=
        append_pair (userMessage messageId message (clock (S k)))
          (assistantMessage assistantMessageId (clock (S (S k))))
          (messages h);
      isLoading := true;
      abortControllerRef := Some {| aborted := false |};
      clock_reads := S (S (S k)) |}).

(** What the statements for a response that is not [ok] throw (lines
    91-110).  Inside the [try] of lines 94-105 every exception leaves the
    generic message in place, also the [TypeError] of a [join] whose
    elements do not convert to strings; [new Error] at line 107 is outside
    that [try]. *)
Definition http_error (r : Response) : JsError :=
  let fallback : value :=
    JStr (Text.API_ERROR ++ lit ": " ++ of_N (resp_status r)
          ++ lit " " ++ statusText r) in
  let errorMessage : value :=
    match content_type r with
    | Some contentType =>
        if includes (lit "application/json") contentType then
          match json_body r with
          | JsonResolves JNull => fallback
          | JsonResolves errorData =>
              match prop errorData (lit "errorParts") with
              | Some parts =>
                  if truthy parts then
                    match parts with
                    | JArr items =>
                        if converts parts
                        then JStr (join_values Text.blank_line items)
                        else fallback
                    | _ => fallback
                    end
                  else js_or (prop errorData (lit "error"))
                         (js_or (prop errorData (lit "message")) fallback)
              | None => js_or (prop errorData (lit "error"))
                          (js_or (prop errorData (lit "message")) fallback)
              end
          | JsonRejects _ => fallback
          end
        else fallback
    | None => fallback
    end in
  new_Error_full errorMessage.

Definition no_stream_error : JsError :=
  new_Error_full (JStr Text.NO_READABLE_STREAM).

Definition uri_error (msg : jsstring) : JsError :=
  {| instanceof_TypeError := false;
     name := lit "URIError";
     message := msg;
     fullMessage := None |}.

Definition classify (err : thrown) : failure_kind :=
  match err with
  | ThrowError e =>
      if Str.eqb (name e) (lit "AbortError") then UserCanceled
      else if instanceof_TypeError e
              && (includes (lit "network") (message e)
                  || includes (lit "fetch") (message e)
                  || includes (lit "Failed to fetch") (message e))
      then ConnectionLost
      else Reported (js_or (fullMessage e) (JStr (message e)))
  | ThrowValue => Unknown
  end.

Definition canceled_text : jsstring :=
  Text.ERROR_PREFIX ++ Text.blank_line ++ Text.USER_CANCELED.

Definition connection_lost_text : jsstring :=
  Text.ERROR_PREFIX ++ Text.blank_line
  ++ lit "Connection lost during streaming." ++ Text.blank_line
  ++ Text.bulb ++ lit " Tip: The backend server at " ++ backendUrl
  ++ lit " stopped or crashed, network connection was interrupted, or the backend server is no longer running.".

(** The [error] written by the terminal patch. *)
Definition error_text (k : failure_kind) : value :=
  match k with
  | UserCanceled => JStr canceled_text
  | ConnectionLost => JStr connection_lost_text
  | Reported errorMessage => errorMessage
  | Unknown => JStr Text.UNKNOWN_ERROR
  end.

(** The [catch] clause (lines 340-381). *)
Definition on_catch (t : turn) (h : HookState) (err : thrown) : HookState :=
  setMessages (assistantMessageId t) (upd_failed (error_text (classify err))) h.

(** The [finally] clause (lines 383-386). *)
Definition finally (h : HookState) : HookState :=
  {| messages := messages h;
     isLoading := false;
     abortControllerRef := None;
     clock_reads := clock_reads h |}.

(** The completion at the normal end of the stream. *)
Definition complete (t : turn) (h : HookState) : HookState :=
  setMessages (assistantMessageId t) (upd_complete (assistantText t)) h.

(** The [try] block after the request was built: the outcome of the
    [fetch] decides between the error paths and the stream loop. *)
Definition receive (t : turn) (h : HookState) (net : fetch_result)
    : HookState * send_result :=
  match net with
  | FetchRejects err => (on_catch t h err, Failure err)
  | FetchResolves r =>
      if negb (ok r) then
        let err := ThrowError (http_error r) in
        (on_catch t h err, Failure err)
      else
        match body r with
        | None =>
            let err := ThrowError no_stream_error in
            (on_catch t h err, Failure err)
        | Some stream =>
            let (t', h') := read_loop (t, h) (chunks stream) in
            match read_failure stream with
            | Some err => (on_catch t' h' err, Failure err)
            | None => (complete t' h', Success (assistantMessageId t'))
            end
        end
  end.

(** [sendMessage(message)] run to the end of its turn, [net] being what
    the network does with the request: the final state, the requests
    issued and the result. *)
Definition sendMessage (h : HookState) (message : jsstring) (net : fetch_result)
    : HookState * list Request * send_result :=
  if refused message then (h, [], Ignored)
  else
    let (t, h1) := start h message in
    match encodeURIComponent selectedAgent with
    | inr msg =>
        let err := ThrowError (uri_error msg) in
        (finally (on_catch t h1 err), [], Failure err)
    | inl agent =>
        let request :=
          {| endpoint := backendUrl ++ lit "/api/agents/" ++ agent
                         ++ lit "/messages";
             request_text := trim message |} in
        let (h2, result) := receive t h1 net in
        (finally h2, [request], result)
    end.

(** [cancelRequest()] (lines 389-393): [abortControllerRef.current &&
    isLoading], the ref as it is now and the [isLoading] closed over. *)
Definition cancelRequest (h : HookState) : HookState :=
  match abortControllerRef h with
  | Some _ =>
      if loading then
        {| messages := messages h;
           isLoading := isLoading h;
           abortControllerRef := Some {| aborted := true |};
           clock_reads := clock_reads h |}
      else h
  | None => h
  end.

(** [clearMessages()] (lines 395-404).  The abort of lines 397-399 shows in
    what the network does with the call in flight; the ref is cleared
    whether or not the abort was made. *)
Definition clearMessages (h : HookState) : HookState :=
  {| messages := [];
     isLoading := false;
     abortControllerRef := None;
     clock_reads := clock_reads h |}.

Definition initial : HookState :=
  {| messages := [];
     isLoading := false;
     abortControllerRef := None;
     clock_reads := 0 |}.

End Hook.




(** ** What the properties are stated with *)

Section Notions.

Context {E : Env}.

(** The event name declared last in [lines], [ev0] when no line of them
    declares one: the value the framer attributes a data line to. *)
Definition last_declared_event (ev0 : jsstring) (lines : list jsstring) : jsstring :=
  match find (startsWith Text.event_prefix) (rev lines) with
  | Some line => trim (slice 7 line)
  | None => ev0
  end.

(** No value of the list equals a later one, in the sense of [includes]. *)
Definition pairwise_distinct (steps : list value) : Prop :=
  forall i j a b, i < j ->
    nth_error steps i = Some a -> nth_error steps j = Some b ->
    sameValueZero a b = false.

Definition steps_distinct (msg : ChatMessage) : Prop :=
  pairwise_distinct (or_empty (thinkingSteps msg)).

(** A conversation made of user/assistant pairs whose ids share a prefix. *)
Inductive paired : list ChatMessage -> Prop :=
| paired_nil : paired []
| paired_cons (u a : ChatMessage) (rest : list ChatMessage) (base : jsstring) :
    sender u = user -> sender a = assistant ->
    id u = base ++ lit "_user" -> id a = base ++ lit "_assistant" ->
    paired rest -> paired (u :: a :: rest).

(** The states of the hook: every step is one state change of the source,
    whichever call it belongs to.  The locals [t] of the call that makes a
    step are arbitrary, so that calls may overlap in any way. *)
Inductive reachable : HookState -> Prop :=
| reach_initial : reachable initial
| reach_start (h : HookState) (message : jsstring) :
    reachable h -> reachable (snd (start h message))
| reach_line (t : turn) (h : HookState) (line : jsstring) :
    reachable h -> reachable (snd (process_line (t, h) line))
| reach_complete (t : turn) (h : HookState) :
    reachable h -> reachable (complete t h)
| reach_catch (t : turn) (h : HookState) (err : thrown) :
    reachable h -> reachable (on_catch t h err)
| reach_finally (h : HookState) :
    reachable h -> reachable (finally h)
| reach_cancel (loading : bool) (h : HookState) :
    reachable h -> reachable (cancelRequest loading h)
| reach_clear (h : HookState) :
    reachable h -> reachable (clearMessages h).

(** A line that starts with ['data: '] and carries a JSON payload whose
    [text] member is the non-empty string [txt]. *)
Definition text_payload_line (line txt : jsstring) : Prop :=
  startsWith Text.data_prefix line = true /\
  trim (slice 6 line) <> [] /\
  trim (slice 6 line) <> Text.DONE /\
  txt <> [] /\
  exists data, JSON_parse (trim (slice 6 line)) = Some data
               /\ prop data (lit "text") = Some (JStr txt).

(** [carries_text_deltas ev lines texts]: read with [ev] as the current
    event name, the text-delta events of [lines] carry exactly [texts], in
    this order.  Lines that declare an event, lines attributed to another
    event, and lines without payload are free. *)
Inductive carries_text_deltas : jsstring -> list jsstring -> list jsstring -> Prop :=
| ctd_end (ev : jsstring) : carries_text_deltas ev [] []
| ctd_declare (ev line : jsstring) (lines texts : list jsstring) :
    startsWith Text.event_prefix line = true ->
    carries_text_deltas (trim (slice 7 line)) lines texts ->
    carries_text_deltas ev (line :: lines) texts
| ctd_delta (line txt : jsstring) (lines texts : list jsstring) :
    text_payload_line line txt ->
    carries_text_deltas Text.text_delta lines texts ->
    carries_text_deltas Text.text_delta (line :: lines) (txt :: texts)
| ctd_other_event (ev line : jsstring) (lines texts : list jsstring) :
    ev <> Text.text_delta ->
    startsWith Text.event_prefix line = false ->
    carries_text_deltas ev lines texts ->
    carries_text_deltas ev (line :: lines) texts
| ctd_no_payload (ev line : jsstring) (lines texts : list jsstring) :
    startsWith Text.event_prefix line = false ->
    startsWith Text.data_prefix line = false
    \/ trim (slice 6 line) = [] \/ trim (slice 6 line) = Text.DONE ->
    carries_text_deltas ev lines texts ->
    carries_text_deltas ev (line :: lines) texts.

(** The [AbortError] with which the platform rejects an operation whose
    signal was aborted. *)
Definition is_abort (err : thrown) : Prop :=
  exists e, err = ThrowError e /\ name e = lit "AbortError".

(** The abort reaches the [catch] clause: the pending [fetch], or after an
    [ok] response a pending [read], is rejected with the [AbortError]. *)
Definition abort_reaches_catch (net : fetch_result) : Prop :=
  match net with
  | FetchRejects err => is_abort err
  | FetchResolves r =>
      ok r = true /\
      exists stream err,
        body r = Some stream /\ read_failure stream = Some err /\ is_abort err
  end.

(** The abort lands while [response.json()] reads the body of a response
    that is not [ok] and declares a JSON content type. *)
Definition abort_in_error_body (net : fetch_result) : Prop :=
  match net with
  | FetchRejects _ => False
  | FetchResolves r =>
      ok r = false /\
      exists contentType err,
        content_type r = Some contentType /\
        includes (lit "application/json") contentType = true /\
        json_body r = JsonRejects err /\ is_abort err
  end.

(** A turn aborted by the cancellation handle: one of the operations the
    call awaits under the signal is rejected with the [AbortError]. *)
Definition turn_aborted (net : fetch_result) : Prop :=
  abort_reaches_catch net \/ abort_in_error_body net.

(** [m] is the last message of the conversation. *)
Definition last_message (msgs : list ChatMessage) (m : ChatMessage) : Prop :=
  exists older, msgs = older ++ [m].

(** The functions the source passes to [map] inside [setMessages]. *)
Inductive updater : (ChatMessage -> ChatMessage) -> Prop :=
| upd_is_text_delta (currentText : jsstring) :
    updater (upd_text_delta currentText)
| upd_is_status (statusMessage : value) (now : N) :
    updater (upd_status statusMessage now)
| upd_is_tool_result (toolStatus : jsstring) (sqlQuery : option jsstring)
    (info : option verification) (now : N) :
    updater (upd_tool_result toolStatus sqlQuery info now)
| upd_is_thinking (thinkingText : jsstring) (now : N) :
    updater (upd_thinking thinkingText now)
| upd_is_thinking_delta (deltaText : value) (now : N) :
    updater (upd_thinking_delta deltaText now)
| upd_is_chart (chartContent : ChartContent) (now : N) :
    updater (upd_chart chartContent now)
| upd_is_annotation (annotation : TextAnnotation) (now : N) :
    updater (upd_annotation annotation now)
| upd_is_complete (assistantText : jsstring) :
    updater (upd_complete assistantText)
| upd_is_failed (errorMessage : value) :
    updater (upd_failed errorMessage).

(** [msgs'] is [msgs] or [msgs] after one [setMessages] of a [map]. *)
Definition patched (msgs msgs' : list ChatMessage) : Prop :=
  msgs' = msgs \/ exists aid f, updater f /\ msgs' = patch aid f msgs.

(** The operations of the hook, each run to its end and called from a
    render that has seen the state it starts from. *)
Inductive op : Type :=
| OpSend (message : jsstring) (net : fetch_result)
| OpCancel
| OpClear.

Definition run_op (selectedAgent : jsstring) (h : HookState) (o : op) : HookState :=
  match o with
  | OpSend message net =>
      fst (fst (sendMessage selectedAgent (isLoading h) h message net))
  | OpCancel => cancelRequest (isLoading h) h
  | OpClear => clearMessages h
  end.

Definition run_ops (selectedAgent : jsstring) (ops : list op) : HookState :=
  fold_left (run_op selectedAgent) ops initial.

End Notions.

(** ** An environment to run the model

    Integers stand for the numbers; the parser covers JSON without
    fractions, exponents and [\u] escapes, which it rejects.  The examples
    below evaluate the hook in this environment; the theorems hold in every
    environment. *)

Module Demo.

Definition is_json_ws (c : N) : bool :=
  N.eqb c 32 || N.eqb c 9 || N.eqb c 10 || N.eqb c 13.

Fixpoint skip_ws (s : jsstring) : jsstring :=
  match s with
  | c :: s' => if is_json_ws c then skip_ws s' else s
  | [] => []
  end.

Definition is_digit (c : N) : bool := ((48 <=? c) && (c <=? 57))%N.

(** The character an escape letter stands for. *)
Definition unescape (c : N) : option N :=
  if N.eqb c 34 then Some 34%N          (* quote *)
  else if N.eqb c 92 then Some 92%N     (* backslash *)
  else if N.eqb c 47 then Some 47%N     (* slash *)
  else if N.eqb c 98 then Some 8%N      (* b *)
  else if N.eqb c 102 then Some 12%N    (* f *)
  else if N.eqb c 110 then Some 10%N    (* n *)
  else if N.eqb c 114 then Some 13%N    (* r *)
  else if N.eqb c 116 then Some 9%N     (* t *)
  else None.

(** The rest of a string literal after its opening quote. *)
Fixpoint parse_string (s : jsstring) (acc : jsstring) : option (jsstring * jsstring) :=
  match s with
  | [] => None
  | c :: rest =>
      if N.eqb c 34 then Some (rev acc, rest)
      else if N.eqb c 92 then
        match rest with
        | e :: rest' =>
            match unescape e with
            | Some u => parse_string rest' (u :: acc)
            | None => None
            end
        | [] => None
        end
      else if (c <? 32)%N then None
      else parse_string rest (c :: acc)
  end.

Fixpoint parse_digits (s : jsstring) (acc : Z) : Z * jsstring :=
  match s with
  | c :: rest =>
      if is_digit c then parse_digits rest (10 * acc + Z.of_N (c - 48))%Z
      else (acc, s)
  | [] => (acc, [])
  end.

(** An integer literal: no leading zero, no fraction, no exponent. *)
Definition parse_int (s : jsstring) : option (Z * jsstring) :=
  let (negative, s1) :=
    match s with
    | c :: rest => if N.eqb c 45 then (true, rest) else (false, s)
    | [] => (false, s)
    end in
  match s1 with
  | d :: rest =>
      if is_digit d then
        let (n, s2) :=
          if N.eqb d 48 then (0%Z, rest) else parse_digits s1 0%Z in
        match s2 with
        | c :: _ =>
            if is_digit c || N.eqb c 46 || N.eqb c 101 || N.eqb c 69
            then None
            else Some (if negative then (- n)%Z else n, s2)
        | [] => Some (if negative then (- n)%Z else n, s2)
        end
      else None
  | [] => None
  end.

Fixpoint parse_value (fuel : nat) (s : jsstring) : option (json Z * jsstring) :=
  match fuel with
  | O => None
  | S fuel' =>
      match skip_ws s with
      | [] => None
      | c :: rest =>
          if N.eqb c 34 then
            match parse_string rest [] with
            | Some (str, rest') => Some (JStr str, rest')
            | None => None
            end
          else if N.eqb c 91 then
            match skip_ws rest with
            | d :: rest' =>
                if N.eqb d 93 then Some (JArr [], rest')
                else parse_elements fuel' rest []
            | [] => None
            end
          else if N.eqb c 123 then
            match skip_ws rest with
            | d :: rest' =>
                if N.eqb d 125 then Some (JObj [], rest')
                else parse_members fuel' rest []
            | [] => None
            end
          else if startsWith (lit "true") (c :: rest)
          then Some (JBool true, slice 4 (c :: rest))
          else if startsWith (lit "false") (c :: rest)
          then Some (JBool false, slice 5 (c :: rest))
          else if startsWith (lit "null") (c :: rest)
          then Some (JNull, slice 4 (c :: rest))
          else
            match parse_int (c :: rest) with
            | Some (n, rest') => Some (JNum n, rest')
            | None => None
            end
      end
  end
with parse_elements (fuel : nat) (s : jsstring) (acc : list (json Z))
    : option (json Z * jsstring) :=
  match fuel with
  | O => None
  | S fuel' =>
      match parse_value fuel' s with
      | Some (v, rest) =>
          match skip_ws rest with
          | c :: rest' =>
              if N.eqb c 44 then parse_elements fuel' rest' (v :: acc)
              else if N.eqb c 93 then Some (JArr (rev (v :: acc)), rest')
              else None
          | [] => None
          end
      | None => None
      end
  end
with parse_members (fuel : nat) (s : jsstring) (acc : list (jsstring * json Z))
    : option (json Z * jsstring) :=
  match fuel with
  | O => None
  | S fuel' =>
      match skip_ws s with
      | q :: rest =>
          if N.eqb q 34 then
            match parse_string rest [] with
            | Some (key, rest1) =>
                match skip_ws rest1 with
                | colon :: rest2 =>
                    if N.eqb colon 58 then
                      match parse_value fuel' rest2 with
                      | Some (v, rest3) =>
                          match skip_ws rest3 with
                          | c :: rest4 =>
                              if N.eqb c 44
                              then parse_members fuel' rest4 ((key, v) :: acc)
                              else if N.eqb c 125
                              then Some (JObj (rev ((key, v) :: acc)), rest4)
                              else None
                          | [] => None
                          end
                      | None => None
                      end
                    else None
                | [] => None
                end
            | None => None
            end
          else None
      | [] => None
      end
  end.

Definition parse (s : jsstring) : option (json Z) :=
  match parse_value (2 * List.length s + 2) s with
  | Some (v, rest) =>
      match skip_ws rest with
      | [] => Some v
      | _ :: _ => None
      end
  | None => None
  end.

Definition Z_toString (z : Z) : jsstring :=
  lit (NilZero.string_of_int (Z.to_int z)).

(** Names made of letters, digits, [-] and [_] are their own encoding; the
    example environment encodes no other name. *)
Definition is_unreserved (c : N) : bool :=
  ((48 <=? c) && (c <=? 57))%N || ((65 <=? c) && (c <=? 90))%N
  || ((97 <=? c) && (c <=? 122))%N || N.eqb c 45 || N.eqb c 95.

Definition encode (s : jsstring) : jsstring + jsstring :=
  if forallb is_unreserved s then inl s else inr (lit "URI malformed").

(** The [sql] member of a payload, when it is a string. *)
Definition sql_member (data : json Z) : option jsstring :=
  match prop data (lit "sql") with
  | Some (JStr q) => Some q
  | _ => None
  end.

#[export] Instance env : Env := {|
  number := Z;
  number_truthy := fun z => negb (Z.eqb z 0);
  number_toString := Z_toString;
  number_sameValueZero := Z.eqb;
  number_add := Z.add;
  number_of_nat := Z.of_nat;
  JSON_parse := parse;
  clock := fun k => (N.of_nat k + 1700000000000)%N;
  backendUrl := lit "http://localhost:4000";
  encodeURIComponent := encode;
  conversion_error := lit "Cannot convert object to primitive value";
  verification := unit;
  extractSqlQuery := sql_member;
  extractVerificationInfo := fun _ => None
|}.

Definition agent : jsstring := lit "SALES_AGENT".

(** A text written in ASCII with ['] standing for the double quote. *)
Definition q (s : string) : jsstring :=
  map (fun c => if N.eqb c 39 then 34%N else c) (lit s).

(** A chunk made of the given lines, each ended by a line feed. *)
Definition chunk_of (lines : list string) : jsstring :=
  List.concat (map (fun l => q l ++ [LF]) lines).

(** The rejection of [response.json()] on a body that is no JSON. *)
Definition not_json : thrown :=
  ThrowError {| instanceof_TypeError := false;
                name := lit "SyntaxError";
                message := lit "Unexpected token";
                fullMessage := None |}.

(** A body that delivers the chunks [cs] and then ends, or fails with
    [failure]. *)
Definition stream_of (cs : list jsstring) (failure : option thrown) : body_stream :=
  {| chunks := cs; read_failure := failure |}.

(** A response with status 200 and that body. *)
Definition streaming (cs : list jsstring) (failure : option thrown) : Response :=
  {| ok := true;
     resp_status := 200;
     statusText := lit "OK";
     content_type := Some (lit "text/event-stream");
     json_body := JsonRejects not_json;
     body := Some (stream_of cs failure) |}.

Local Open Scope string_scope.

Definition question : jsstring := lit "How many orders?".

(** The locals and the state right after an admitted call started. *)
Definition fresh : turn * HookState := start initial question.

(** Two text deltas, ['Hel'] and ['lo'], in two chunks. *)
Definition hello_chunks : list jsstring :=
  [chunk_of ["event: response.text.delta"; "data: {'text':'Hel'}"; ""];
   chunk_of ["data: {'text':'lo'}"; ""; "data: [DONE]"]].

(** The same bytes split inside the first data line. *)
Definition cut_before : jsstring := lit "event: response.text.delta".
Definition cut_a : jsstring := q "data: {'text':'Hel".
Definition cut_b : jsstring := q "lo'}".
Definition cut_after : jsstring := [LF].

(** Status updates and tool results, the status ['Planning'] twice, and an
    annotation whose payload has both a [url] and a [doc_id]. *)
Definition steps_chunks : list jsstring :=
  [chunk_of ["event: response.status"; "data: {'message':'Planning'}"; "";
             "event: response.tool_result"; "data: {'sql':'SELECT 1'}"; "";
             "event: response.status"; "data: {'message':'Planning'}"; "";
             "event: response.tool_result"; "data: {'content':[]}"; ""];
   chunk_of ["event: response.text.annotation";
             "data: {'annotation':{'url':'https://example.com/a','doc_id':'doc-7','doc_title':'Guide'},'start_index':3}";
             ""]].

Definition annotation_payload : json Z :=
  JObj [(lit "annotation",
         JObj [(lit "url", JStr (lit "https://example.com/a"));
               (lit "doc_id", JStr (lit "doc-7"));
               (lit "doc_title", JStr (lit "Guide"))]);
        (lit "start_index", JNum 3%Z)].

(** The state in the middle of that turn, all its chunks processed. *)
Definition midway : turn * HookState := read_loop fresh steps_chunks.

(** The assistant message of a conversation of one turn. *)
Definition reply (h : HookState) : ChatMessage :=
  nth 1 (messages h) (assistantMessage [] 0%N).

(** A response with status 500 and the JSON body
    [{"errorParts":["A","B"]}], under the given [content-type]. *)
Definition error_response (contentType : option jsstring) : Response :=
  {| ok := false;
     resp_status := 500;
     statusText := lit "Internal Server Error";
     content_type := contentType;
     json_body :=
       JsonResolves
         (JObj [(lit "errorParts", JArr [JStr (lit "A"); JStr (lit "B")])]);
     body := None |}.

(** The rejection of an operation whose signal was aborted. *)
Definition abort_error : thrown :=
  ThrowError (AbortError (lit "The user aborted a request.")).

(** A response with status 500 and a JSON content type, the reading of
    whose body is cut by the abort. *)
Definition error_response_cut : Response :=
  {| ok := false;
     resp_status := 500;
     statusText := lit "Internal Server Error";
     content_type := Some (lit "application/json");
     json_body := JsonRejects abort_error;
     body := None |}.

(** The rejection of a [fetch] that lost its connection. *)
Definition fetch_failure : thrown :=
  ThrowError {| instanceof_TypeError := true;
                name := lit "TypeError";
                message := lit "Failed to fetch";
                fullMessage := None |}.

(** Fifty turns, each with an empty stream: a conversation at its bound. *)
Definition full : HookState :=
  run_ops agent
    (repeat (OpSend question (FetchResolves (streaming [] None))) 50).

End Demo.

(** ** The code around the hook

    [getApiStatusMessage] and [getResponseSubtitle] of
    [constants/textConstants], the filter and the handlers of
    [components/Main.tsx] that consume and drive the hook, and the parts of
    [components/chat/ChatMessage.tsx] and
    [components/chat/AnnotationsSection.tsx] that read what the hook
    stores. *)

Module Str2.

(** [s.substring(0, n)] *)
Definition substring0 (n : nat) (s : jsstring) : jsstring := firstn n s.

(** [s.endsWith(suffix)] *)
Definition endsWith (suffix s : jsstring) : bool :=
  startsWith (rev suffix) (rev s).

(** The position of the first [c] from position [i] on, counted from the
    start of the whole string, kept when a later one is found. *)
Fixpoint lastIndexOf_from (c : N) (i : nat) (s : jsstring) : option nat :=
  match s with
  | [] => None
  | x :: s' =>
      match lastIndexOf_from c (S i) s' with
      | Some j => Some j
      | None => if N.eqb x c then Some i else None
      end
  end.

(** [s.lastIndexOf(c)] for a one-unit [c]; [None] is [-1]. *)
Definition lastIndexOf (c : N) (s : jsstring) : option nat :=
  lastIndexOf_from c 0 s.

(** [s.split(/[.!?]+/)[0]]: the text before the first full stop,
    exclamation mark or question mark. *)
Fixpoint first_sentence (s : jsstring) : jsstring :=
  match s with
  | [] => []
  | c :: s' =>
      if N.eqb c 46 || N.eqb c 33 || N.eqb c 63 then []
      else c :: first_sentence s'
  end.

(** [s.split(/\s+/)]: the texts between the runs of white space; [word] is
    the text read since the last run. *)
Fixpoint split_spaces (word : jsstring) (s : jsstring) : list jsstring :=
  match s with
  | [] => [rev word]
  | c :: s' =>
      if is_whitespace c then rev word :: skip_spaces s'
      else split_spaces (c :: word) s'
  end
with skip_spaces (s : jsstring) : list jsstring :=
  match s with
  | [] => [[]]
  | c :: s' =>
      if is_whitespace c then skip_spaces s'
      else split_spaces [c] s'
  end.

(** [s.split('\n\n')] *)
Fixpoint split_blank (s : jsstring) : list jsstring :=
  let push c parts :=
    match parts with
    | part :: rest => (c :: part) :: rest
    | [] => [[c]]
    end in
  match s with
  | [] => [[]]
  | c :: s' =>
      match s' with
      | d :: s'' =>
          if N.eqb c LF && N.eqb d LF then [] :: split_blank s''
          else push c (split_blank s')
      | [] => push c (split_blank s')
      end
  end.

End Str2.
Export Str2.

Section Around.

Context {E : Env}.


(** [getResponseSubtitle(messageText)] ([textConstants], lines 224-255). *)
Definition getResponseSubtitle (messageText : jsstring) : jsstring :=
  match messageText with
  | [] => []
  | _ :: _ =>
      let firstSentence := trim (first_sentence (trim messageText)) in
      if 10 <? List.length firstSentence then
        if 120 <? List.length firstSentence then
          let truncated := trim (substring0 80 firstSentence) in
          let summary :=
            match lastIndexOf 32 truncated with
            | Some lastSpace =>
                if 30 <? lastSpace then substring0 lastSpace truncated
                else truncated
            | None => truncated
            end in
          summary ++ lit "..."
        else if endsWith (lit ":") firstSentence then firstSentence
        else firstSentence ++ lit ":"
      else
        let words := firstn 10 (split_spaces [] (trim messageText)) in
        let summary := Str.join (lit " ") words in
        if (3 <=? List.length words) && (List.length summary <? 80)
        then summary ++ lit "..."
        else lit "Response:"
  end.

(** *** The filter of [Main.tsx] (lines 213-229)

    [None] is a [TypeError]: [trim] called on a value that is no string. *)

(** [v.trim().length > 0] *)
Definition nonblank (v : value) : option bool :=
  match v with
  | JStr s => Some (negb (Str.eqb (trim s) []))
  | _ => None
  end.

(** [texts.some(text => text.trim().length > 0)] *)
Fixpoint some_nonblank (texts : list value) : option bool :=
  match texts with
  | [] => Some false
  | v :: rest =>
      match nonblank v with
      | None => None
      | Some true => Some true
      | Some false => some_nonblank rest
      end
  end.

(** [arr && arr.length > 0] *)
Definition nonempty {A : Type} (arr : option (list A)) : bool :=
  match arr with
  | Some (_ :: _) => true
  | _ => false
  end.

Definition is_assistant (msg : ChatMessage) : bool :=
  match sender msg with assistant => true | user => false end.

Definition has_status (s : Status) (msg : ChatMessage) : bool :=
  match status msg, s with
  | Some status_sending, status_sending
  | Some status_sent, status_sent
  | Some status_error, status_error
  | Some status_thinking, status_thinking => true
  | _, _ => false
  end.

Definition willShowThinking (message : ChatMessage) : option bool :=
  if is_assistant message then
    if nonempty (thinkingTexts message) then
      match some_nonblank (or_empty (thinkingTexts message)) with
      | None => None
      | Some true => Some true
      | Some false => Some (nonempty (sqlQueries message))
      end
    else Some (nonempty (sqlQueries message))
  else Some false.

Definition willShowText (message : ChatMessage) : bool :=
  negb (Str.eqb (trim (text message)) []).

Definition willShowStatus (message : ChatMessage) : bool :=
  has_status status_thinking message
  && match isStreaming message with Some b => b | None => false end
  && (nonempty (thinkingTexts message) || nonempty (sqlQueries message)
      || willShowText message).

Definition willShowError (message : ChatMessage) : option bool :=
  if has_status status_error message then
    match error message with
    | Some err => if truthy err then nonblank err else Some false
    | None => Some false
    end
  else Some false.

(** The predicate of [messages.filter(...)]. *)
Definition willShow (message : ChatMessage) : option bool :=
  match willShowThinking message with
  | None => None
  | Some thinking =>
      match willShowError message with
      | None => None
      | Some failed =>
          Some (thinking || willShowText message || willShowStatus message
                || failed)
      end
  end.

(** [visibleMessages] *)
Fixpoint visibleMessages (msgs : list ChatMessage) : option (list ChatMessage) :=
  match msgs with
  | [] => Some []
  | msg :: rest =>
      match willShow msg with
      | None => None
      | Some keep =>
          match visibleMessages rest with
          | None => None
          | Some shown => Some (if keep then msg :: shown else shown)
          end
      end
  end.

(** *** The handlers of [Main.tsx] (lines 155-180) *)

(** The state of [SimpleChatInterface] the handlers touch. *)
Record MainState : Type := {
  hook : HookState;
  inputText : jsstring;
  starterQuestionsExpanded : bool
}.

(** [handleSubmit(e)]: cancels while a turn is loading, sends the trimmed
    input otherwise when it is not blank; [net] is what the network does
    with the request of the send.  The handlers are those of the render that
    shows the state [hook m]: the [isLoading] they read, and the one the
    callbacks of the hook they call close over, is [isLoading (hook m)]. *)
Definition handleSubmit (selectedAgent : jsstring) (m : MainState)
    (net : fetch_result) : MainState * list Request :=
  if isLoading (hook m) then
    ({| hook := cancelRequest (isLoading (hook m)) (hook m);
        inputText := inputText m;
        starterQuestionsExpanded := starterQuestionsExpanded m |}, [])
  else if negb (Str.eqb (trim (inputText m)) []) then
    ({| hook := fst (fst (sendMessage selectedAgent (isLoading (hook m))
                            (hook m) (trim (inputText m)) net));
        inputText := [];
        starterQuestionsExpanded := false |},
     snd (fst (sendMessage selectedAgent (isLoading (hook m)) (hook m)
                 (trim (inputText m)) net)))
  else (m, []).

(** [handleStarterQuestionClick(question)] and [handleResendMessage(text)],
    which have one body. *)
Definition handleResendMessage (selectedAgent : jsstring) (m : MainState)
    (text : jsstring) (net : fetch_result) : MainState * list Request :=
  if negb (Str.eqb (trim text) []) then
    ({| hook := fst (fst (sendMessage selectedAgent (isLoading (hook m))
                            (hook m) text net));
        inputText := inputText m;
        starterQuestionsExpanded := false |},
     snd (fst (sendMessage selectedAgent (isLoading (hook m)) (hook m)
                 text net)))
  else (m, []).

(** [handleResend] of the message component: [if (onResendMessage &&
    message.text) onResendMessage(message.text)]. *)
Definition handleResend (selectedAgent : jsstring) (m : MainState)
    (message : ChatMessage) (net : fetch_result) : MainState * list Request :=
  match text message with
  | [] => (m, [])
  | _ :: _ => handleResendMessage selectedAgent m (text message) net
  end.

(** *** The error box of the message component *)

(** [errorLines[0]] and [errorLines.slice(1).join('\n\n')] for
    [errorLines = message.error.split('\n\n')]. *)
Definition error_header (error : jsstring) : jsstring :=
  hd [] (split_blank error).

Definition error_rest (error : jsstring) : jsstring :=
  Str.join Text.blank_line (tl (split_blank error)).

(** *** The citation chips of [AnnotationsSection.tsx] (lines 116-118 and
    58, 88-90) *)

(** [annotation.url || annotation.doc_id] *)
Definition linkUrl (annotation : TextAnnotation) : option value :=
  match ann_url annotation with
  | Some url => if truthy url then Some url else ann_doc_id annotation
  | None => ann_doc_id annotation
  end.

(** [!!(linkUrl && linkUrl.trim().length > 0)]; [None] is the [TypeError] of
    [trim] on a link that is no string. *)
Definition hasValidLink (annotation : TextAnnotation) : option bool :=
  match linkUrl annotation with
  | Some link => if truthy link then nonblank link else Some false
  | None => Some false
  end.

(** [annotation.title || annotation.doc_title || 'Reference']: the record
    the hook stores has no [doc_title] member. *)
Definition tooltip_title (annotation : TextAnnotation) : value :=
  js_or (ann_title annotation) (js_or None (JStr (lit "Reference"))).

(** The excerpt of the tooltip for a text that is a string:
    [text.length > 400 ? text.substring(0, 400) + '...' : text]. *)
Definition tooltip_excerpt (text : jsstring) : jsstring :=
  if 400 <? List.length text then substring0 400 text ++ lit "..." else text.

End Around.

(** ** What the further properties are stated with *)

Section Notions2.

Context {E : Env}.

(** [after] is [before] with entries added at its end. *)
Definition extends {A : Type} (before after : option (list A)) : Prop :=
  exists more, or_empty after = or_empty before ++ more.

(** [msg'] is [msg] after events: the same message, every collection
    grown at its end, no reasoning buffer lost. *)
Definition grown (msg msg' : ChatMessage) : Prop :=
  id msg' = id msg /\ sender msg' = sender msg /\
  timestamp msg' = timestamp msg /\
  extends (timeline msg) (timeline msg') /\
  extends (thinkingSteps msg) (thinkingSteps msg') /\
  extends (sqlQueries msg) (sqlQueries msg') /\
  extends (charts msg) (charts msg') /\
  extends (annotations msg) (annotations msg') /\
  List.length (or_empty (thinkingTexts msg))
  <= List.length (or_empty (thinkingTexts msg')).

Definition same_type (a b : TimelineType) : bool :=
  match a, b with
  | tl_status, tl_status | tl_thinking, tl_thinking | tl_tool, tl_tool
  | tl_sql, tl_sql | tl_chart, tl_chart | tl_annotation, tl_annotation => true
  | _, _ => false
  end.

(** The number of timeline entries of a message that have the given type. *)
Definition entries_of (type : TimelineType) (msg : ChatMessage) : nat :=
  List.length (filter (fun e => same_type (tl_type e) type)
                 (or_empty (timeline msg))).

(** The timeline accounts for the collections: one ['sql'] entry per stored
    query, one ['chart'] entry per chart, one ['annotation'] entry per
    annotation, one ['thinking'] entry per reasoning buffer. *)
Definition timeline_accounts (msg : ChatMessage) : Prop :=
  entries_of tl_sql msg = List.length (or_empty (sqlQueries msg)) /\
  entries_of tl_chart msg = List.length (or_empty (charts msg)) /\
  entries_of tl_annotation msg = List.length (or_empty (annotations msg)) /\
  entries_of tl_thinking msg = List.length (or_empty (thinkingTexts msg)).

(** The event names the dispatcher knows. *)
Definition known_events : list jsstring :=
  [Text.text_delta; Text.response_status; Text.tool_result;
   Text.response_thinking; Text.thinking_delta; Text.response_chart;
   Text.text_annotation].

(** The response has no usable JSON error body: no JSON content type, a
    rejected or [null] body, an [errorParts] member that is truthy and no
    array, or an [errorParts] array with an element that does not convert
    to a string. *)
Definition no_error_detail (r : Response) : Prop :=
  content_type r = None
  \/ (exists contentType, content_type r = Some contentType
        /\ includes (lit "application/json") contentType = false)
  \/ (exists err, json_body r = JsonRejects err)
  \/ json_body r = JsonResolves JNull
  \/ (exists errorData parts,
        json_body r = JsonResolves errorData
        /\ prop errorData (lit "errorParts") = Some parts
        /\ truthy parts = true
        /\ match parts with JArr _ => False | _ => True end)
  \/ (exists errorData items,
        json_body r = JsonResolves errorData
        /\ prop errorData (lit "errorParts") = Some (JArr items)
        /\ converts (JArr items) = false).

(** ['<label>: <status> <statusText>'] *)
Definition generic_http_error (r : Response) : jsstring :=
  Text.API_ERROR ++ lit ": " ++ of_N (resp_status r) ++ lit " " ++ statusText r.

(** The failure is one the [catch] clause words itself: the abort, a lost
    connection, or a thrown value that is no [Error]. *)
Definition worded_by_the_hook (err : thrown) : Prop :=
  match classify err with
  | Reported _ => False
  | _ => True
  end.

(** What the [try] block of a call throws for what the network does:
    the rejection of the [fetch], the error made for a response that is not
    [ok] or has no body, or the rejection of a [read]; [None] when the
    stream ends normally. *)
Definition thrown_by (net : fetch_result) : option thrown :=
  match net with
  | FetchRejects err => Some err
  | FetchResolves r =>
      if negb (ok r) then Some (ThrowError (http_error r))
      else
        match body r with
        | None => Some (ThrowError no_stream_error)
        | Some stream => read_failure stream
        end
  end.

(** [msgs'] is [msgs] with one function, which only adds, mapped over the
    messages whose id is [aid]. *)
Definition own_patch (aid : jsstring) (msgs msgs' : list ChatMessage) : Prop :=
  exists F, (forall m, grown m (F m)) /\ msgs' = patch aid F msgs.

(** An id made from a reading of the clock before the [k]-th one. *)
Definition issued (k : nat) (i : jsstring) : Prop :=
  exists j suffix,
    j < k /\ i = of_N (clock j) ++ suffix
    /\ (suffix = lit "_user" \/ suffix = lit "_assistant").

(** A user message as a call created it, for a text that is not blank. *)
Definition sent_question (m : ChatMessage) : Prop :=
  exists base message date,
    m = userMessage base message date /\ trim message <> [].

(** No two readings of the clock return the same instant. *)
Definition clock_never_repeats : Prop :=
  forall i j : nat, clock i = clock j -> i = j.

End Notions2.

(** Inputs of the further properties in the environment [Demo.env]. *)
Module Sample.

Import Demo.

Local Open Scope string_scope.

(** A reasoning segment followed by two reasoning deltas, and a chart whose
    spec is JSON, then a chart whose spec is not. *)
Definition reasoning_chunks : list jsstring :=
  [chunk_of ["event: response.thinking";
             "data: {'thinking':{'text':' Plan: '}}"; "";
             "event: response.thinking.delta";
             "data: {'text':'Hel'}"; "data: {'text':'lo'}"; "";
             "event: response.chart";
             "data: {'chart_spec':'{\'mark\':\'bar\'}'}";
             "data: {'chart_spec':'not-json'}"; "";
             "event: response.unknown"; "data: {'text':'ignored'}"; ""]].

(** A reasoning delta whose text is a number, as first reasoning event. *)
Definition numeric_delta_chunks : list jsstring :=
  [chunk_of ["event: response.thinking.delta"; "data: {'text':5}"; ""]].

(** The state of [Main]: idle, with a question typed between spaces. *)
Definition typing : MainState :=
  {| hook := initial;
     inputText := lit "  How many orders?  ";
     starterQuestionsExpanded := true |}.

(** The state of [Main] while the turn of [Demo.midway] is in flight. *)
Definition waiting : MainState :=
  {| hook := snd Demo.midway;
     inputText := lit "another question";
     starterQuestionsExpanded := false |}.

(** A response with status 404 that is plain text. *)
Definition plain_404 : Response :=
  {| ok := false;
     resp_status := 404;
     statusText := lit "Not Found";
     content_type := Some (lit "text/html");
     json_body := JsonRejects not_json;
     body := None |}.

(** A response with status 400 whose JSON body has an [error] and a
    [message]. *)
Definition json_400 : Response :=
  {| ok := false;
     resp_status := 400;
     statusText := lit "Bad Request";
     content_type := Some (lit "application/json");
     json_body :=
       JsonResolves (JObj [(lit "message", JStr (lit "details"));
                           (lit "error", JStr (lit "Agent not found"))]);
     body := None |}.

(** A response with status 200 and no body. *)
Definition no_body : Response :=
  {| ok := true;
     resp_status := 200;
     statusText := lit "OK";
     content_type := Some (lit "text/event-stream");
     json_body := JsonRejects not_json;
     body := None |}.

(** A response with status 500 whose JSON body has an [error] member that
    is an object. *)
Definition structured_500 : Response :=
  {| ok := false;
     resp_status := 500;
     statusText := lit "Internal Server Error";
     content_type := Some (lit "application/json; charset=utf-8");
     json_body :=
       JsonResolves (JObj [(lit "error", JObj [(lit "code", JNum 5%Z)])]);
     body := None |}.

(** A response with status 500 whose JSON body has an [error] member that
    is an object with a [toString] member, the body
    [{"error":{"toString":1}}]. *)
Definition unconvertible_500 : Response :=
  {| ok := false;
     resp_status := 500;
     statusText := lit "Internal Server Error";
     content_type := Some (lit "application/json");
     json_body :=
       JsonResolves (JObj [(lit "error", JObj [(lit "toString", JNum 1%Z)])]);
     body := None |}.


Definition chart_payload : json Z :=
  JObj [(lit "chart_spec", JStr (q "{'mark':'bar'}"))].

Definition bad_chart_payload : json Z :=
  JObj [(lit "chart_spec", JStr (lit "not-json"))].

(** The [TypeError] of a [fetch] that lost its connection. *)
Definition fetch_error : Types.JsError Z :=
  {| instanceof_TypeError := true;
     name := lit "TypeError";
     message := lit "Failed to fetch";
     fullMessage := None |}.

(** The hook after one turn, and after a second one. *)
Definition after_hello : HookState :=
  run_ops agent [OpSend question (FetchResolves (streaming hello_chunks None))].

Definition two_turns : HookState :=
  run_ops agent [OpSend question (FetchResolves (streaming hello_chunks None));
                 OpSend (lit " And returns? ")
                   (FetchResolves (streaming steps_chunks None))].

(** A text whose first sentence is longer than 120 code units. *)
Definition long_text : jsstring :=
  lit "The quarterly revenue of the northern region grew by twelve percent while the southern region stayed flat and the eastern region declined slightly compared with last year. More follows.".

End Sample.


(** ** Strings *)

Lemma eqb_eq (a b : jsstring) : Str.eqb a b = true <-> a = b.
Proof.
  revert b; induction a as [|x a IH]; intros [|y b]; simpl; split;
    try congruence; try reflexivity.
  - intros H. apply andb_true_iff in H as [Hx Hab].
    apply N.eqb_eq in Hx. apply IH in Hab. congruence.
  - intros H. injection H as -> ->. rewrite N.eqb_refl. simpl. now apply IH.
Qed.

Lemma eqb_refl (a : jsstring) : Str.eqb a a = true.
Proof. now apply eqb_eq. Qed.

Lemma eqb_neq (a b : jsstring) : Str.eqb a b = false <-> a <> b.
Proof.
  split.
  - intros H Hab. apply eqb_eq in Hab. congruence.
  - intros H. destruct (Str.eqb a b) eqn:Hab; [|reflexivity].
    apply eqb_eq in Hab. contradiction.
Qed.

Lemma data_line_declares_nothing (line : jsstring) :
  startsWith Text.data_prefix line = true ->
  startsWith Text.event_prefix line = false.
Proof.
  destruct line as [|c line]; [discriminate|].
  change (startsWith Text.data_prefix (c :: line))
    with (N.eqb 100 c && startsWith (lit "ata: ") line).
  change (startsWith Text.event_prefix (c :: line))
    with (N.eqb 101 c && startsWith (lit "vent: ") line).
  destruct (N.eqb_spec 100 c) as [<-|]; [reflexivity|discriminate].
Qed.

Lemma split_nonempty (s : jsstring) : split s <> [].
Proof.
  destruct s as [|c s]; simpl; [discriminate|].
  destruct (N.eqb c LF); [discriminate|].
  destruct (split s); discriminate.
Qed.

(** Splitting a concatenation: the last line of the first part and the
    first line of the second are one line. *)
Lemma split_app (a b : jsstring) :
  split (a ++ b)
  = removelast (split a) ++ [last (split a) [] ++ hd [] (split b)] ++ tl (split b).
Proof.
  induction a as [|c a IH]; simpl.
  - destruct (split b) eqn:Hb; [now apply split_nonempty in Hb|reflexivity].
  - destruct (N.eqb c LF).
    + rewrite IH. destruct (split a) eqn:Ha; [now apply split_nonempty in Ha|].
      reflexivity.
    + rewrite IH. destruct (split a) as [|l ls] eqn:Ha;
        [now apply split_nonempty in Ha|].
      destruct ls; reflexivity.
Qed.

Lemma split_last_hd (a b : jsstring) :
  split a ++ split b
  = removelast (split a) ++ [last (split a) []] ++ [hd [] (split b)] ++ tl (split b).
Proof.
  destruct (split b) as [|l ls] eqn:Hb; [now apply split_nonempty in Hb|].
  simpl. generalize (split_nonempty a). generalize (split a) as x.
  intros x Hx. rewrite (app_removelast_last [] Hx) at 1.
  now rewrite <- app_assoc.
Qed.

(** A text without line feed is one line. *)
Lemma split_no_LF (s : jsstring) : ~ In LF s -> split s = [s].
Proof.
  induction s as [|c s IH]; simpl; intros H; [reflexivity|].
  destruct (N.eqb_spec c LF) as [->|_]; [exfalso; apply H; now left|].
  rewrite IH; [reflexivity|]. intros Hin. apply H. now right.
Qed.

Lemma split_LF (a b : jsstring) : split (a ++ LF :: b) = split a ++ split b.
Proof.
  induction a as [|c a IH]; simpl; [reflexivity|].
  destruct (N.eqb c LF); rewrite IH; [reflexivity|].
  destruct (split a) eqn:Ha; [now apply split_nonempty in Ha|reflexivity].
Qed.

(** ** The framer *)

Section Framer.

Context {E : Env}.

Lemma process_lines_app (st : turn * HookState) (l1 l2 : list jsstring) :
  process_lines st (l1 ++ l2) = process_lines (process_lines st l1) l2.
Proof. apply fold_left_app. Qed.

Lemma read_loop_lines (st : turn * HookState) (cs : list jsstring) :
  read_loop st cs = process_lines st (flat_map split cs).
Proof.
  revert st; induction cs as [|c cs IH]; intros st; simpl; [reflexivity|].
  rewrite process_lines_app. apply IH.
Qed.

End Framer.


(** ** The dispatcher *)

Section Dispatcher.

Context {E : Env}.

Lemma cond_prop_holds (ev name : jsstring) (data : value) (k : string) (v : value) :
  cond_prop ev name data k = Some (Some v) ->
  ev = name /\ get data k = Some (Some v) /\ truthy v = true.
Proof.
  unfold cond_prop. destruct (Str.eqb ev name) eqn:Hev; [|discriminate].
  apply eqb_eq in Hev.
  destruct (get data k) as [[w|]|]; try discriminate.
  destruct (truthy w) eqn:Hw; [|discriminate].
  intros H. injection H as <-. auto.
Qed.

Lemma cond_prop_other (ev name : jsstring) (data : value) (k : string) :
  ev <> name -> cond_prop ev name data k = Some None.
Proof.
  intros H. unfold cond_prop. apply eqb_neq in H. now rewrite H.
Qed.

Ltac break_dispatch H :=
  repeat match type of H with
         | context [match ?x with _ => _ end] => destruct x eqn:?
         end.

(** One payload changes neither the id nor the event name of the turn, only
    a text delta changes its text, and the conversation is patched by one
    updater at most. *)
Lemma dispatch_effect (ev : jsstring) (data : value) (t t' : turn) (h h' : HookState) :
  dispatch ev data t h = Some (t', h') ->
  assistantMessageId t' = assistantMessageId t /\
  currentEvent t' = currentEvent t /\
  (ev <> Text.text_delta -> assistantText t' = assistantText t) /\
  isLoading h' = isLoading h /\
  abortControllerRef h' = abortControllerRef h /\
  patched (messages h) (messages h').
Proof.
  intros H. unfold dispatch in H.
  destruct (cond_prop ev Text.text_delta data "text") as [[txt|]|] eqn:Hdelta;
    [|idtac|discriminate].
  { apply cond_prop_holds in Hdelta as [-> _].
    injection H as <- <-. cbn.
    repeat split; try congruence.
    right. eexists _, _. split; [apply upd_is_text_delta|reflexivity]. }
  assert (Hdone : forall f : N -> ChatMessage -> ChatMessage,
             (forall now, updater (f now)) ->
             patched (messages h)
               (messages (setMessages_dated (assistantMessageId t) f h))).
  { intros f Hf. right. eexists _, _. split; [apply Hf|reflexivity]. }
  break_dispatch H; try discriminate; injection H as <- <-; cbn;
    repeat split; try reflexivity;
    try (now left);
    apply Hdone; intros now; constructor.
Qed.

End Dispatcher.

Section FramerProperties.

Context {E : Env}.

Lemma process_data_effect (ev : jsstring) (st : turn * HookState) (line : jsstring) :
  assistantMessageId (fst (process_data ev st line)) = assistantMessageId (fst st) /\
  currentEvent (fst (process_data ev st line)) = currentEvent (fst st) /\
  (ev <> Text.text_delta ->
   assistantText (fst (process_data ev st line)) = assistantText (fst st)) /\
  isLoading (snd (process_data ev st line)) = isLoading (snd st) /\
  abortControllerRef (snd (process_data ev st line)) = abortControllerRef (snd st) /\
  patched (messages (snd st)) (messages (snd (process_data ev st line))).
Proof.
  assert (Hsame : forall x : turn * HookState,
             assistantMessageId (fst x) = assistantMessageId (fst x) /\
             currentEvent (fst x) = currentEvent (fst x) /\
             (ev <> Text.text_delta -> assistantText (fst x) = assistantText (fst x)) /\
             isLoading (snd x) = isLoading (snd x) /\
             abortControllerRef (snd x) = abortControllerRef (snd x) /\
             patched (messages (snd x)) (messages (snd x))).
  { intros x. repeat split; try reflexivity. now left. }
  destruct st as [t h]. unfold process_data.
  destruct (Str.eqb _ [] || Str.eqb _ Text.DONE); [apply Hsame|].
  destruct (JSON_parse _) as [data|]; [|apply Hsame].
  destruct (dispatch ev data t h) as [[t' h']|] eqn:Hd; [|apply Hsame].
  apply dispatch_effect in Hd. exact Hd.
Qed.

Lemma process_line_event (st : turn * HookState) (line : jsstring) :
  startsWith Text.event_prefix line = true ->
  process_line st line
  = ({| assistantMessageId := assistantMessageId (fst st);
        assistantText := assistantText (fst st);
        currentEvent := trim (slice 7 line) |}, snd st).
Proof. intros H. unfold process_line. now rewrite H. Qed.

Lemma process_line_data (st : turn * HookState) (line : jsstring) :
  startsWith Text.data_prefix line = true ->
  process_line st line = process_data (currentEvent (fst st)) st line.
Proof.
  intros H. unfold process_line.
  now rewrite (data_line_declares_nothing line H), H.
Qed.

Lemma process_line_other (st : turn * HookState) (line : jsstring) :
  startsWith Text.event_prefix line = false ->
  startsWith Text.data_prefix line = false ->
  process_line st line = st.
Proof. intros H1 H2. unfold process_line. now rewrite H1, H2. Qed.

(** A line that declares no event leaves the current event name as it is. *)
Lemma process_line_keeps_event (st : turn * HookState) (line : jsstring) :
  startsWith Text.event_prefix line = false ->
  currentEvent (fst (process_line st line)) = currentEvent (fst st).
Proof.
  intros H. unfold process_line. rewrite H.
  destruct (startsWith Text.data_prefix line); [|reflexivity].
  apply process_data_effect.
Qed.

Lemma last_declared_event_snoc (ev0 : jsstring) (lines : list jsstring) (line : jsstring) :
  last_declared_event ev0 (lines ++ [line])
  = if startsWith Text.event_prefix line then trim (slice 7 line)
    else last_declared_event ev0 lines.
Proof.
  unfold last_declared_event. rewrite rev_app_distr.
  change (rev [line] ++ rev lines) with (line :: rev lines). cbn [find].
  now destruct (startsWith Text.event_prefix line).
Qed.

Lemma currentEvent_process_lines (st : turn * HookState) (lines : list jsstring) :
  currentEvent (fst (process_lines st lines))
  = last_declared_event (currentEvent (fst st)) lines.
Proof.
  induction lines as [|line lines IH] using rev_ind; [reflexivity|].
  rewrite process_lines_app, last_declared_event_snoc.
  change (process_lines (process_lines st lines) [line])
    with (process_line (process_lines st lines) line).
  destruct (startsWith Text.event_prefix line) eqn:Hev.
  - now rewrite process_line_event.
  - now rewrite process_line_keeps_event.
Qed.

(** C2 - Event framer: after any lines [pre], the current event name is the
    one declared by the last line of [pre] that starts with ['event: ']
    (blank lines, data lines and other lines in between do not reset it).
    A next line that starts with ['event: '] sets the name to what it
    declares; a next line that starts with ['data: '] is handled under the
    name declared last; and a next line that declares no event leaves the
    name unchanged. *)
Theorem C2_framer_attribution (st : turn * HookState) (pre : list jsstring)
    (line : jsstring) :
  let ev := last_declared_event (currentEvent (fst st)) pre in
  currentEvent (fst (process_lines st pre)) = ev /\
  (startsWith Text.event_prefix line = true ->
   currentEvent (fst (process_lines st (pre ++ [line]))) = trim (slice 7 line) /\
   snd (process_lines st (pre ++ [line])) = snd (process_lines st pre)) /\
  (startsWith Text.data_prefix line = true ->
   process_lines st (pre ++ [line]) = process_data ev (process_lines st pre) line) /\
  (startsWith Text.event_prefix line = false ->
   currentEvent (fst (process_lines st (pre ++ [line]))) = ev).
Proof.
  intros ev. unfold ev. rewrite process_lines_app.
  change (process_lines (process_lines st pre) [line])
    with (process_line (process_lines st pre) line).
  split; [apply currentEvent_process_lines|].
  split; [|split].
  - intros H. now rewrite process_line_event.
  - intros H. rewrite process_line_data by exact H.
    now rewrite currentEvent_process_lines.
  - intros H. rewrite process_line_keeps_event by exact H.
    apply currentEvent_process_lines.
Qed.

(** C10 - Line framing is done chunk by chunk, nothing is carried over: two
    chunks are processed as the lines of the first followed by the lines of
    the second, so the last line of the first chunk and the first line of
    the second are two lines, where the stream read in one piece has them
    as one line; a line cut into the fragments [a] and [b] by a chunk
    boundary is processed as the line [a] and then the line [b]. *)
Theorem C10_no_carry_over (st : turn * HookState) (c1 c2 : jsstring) :
  read_loop st [c1; c2] = process_lines st (split c1 ++ split c2) /\
  split c1 ++ split c2
  = removelast (split c1) ++ [last (split c1) []] ++ [hd [] (split c2)]
    ++ tl (split c2) /\
  split (c1 ++ c2)
  = removelast (split c1) ++ [last (split c1) [] ++ hd [] (split c2)]
    ++ tl (split c2) /\
  List.length (split c1 ++ split c2) = S (List.length (split (c1 ++ c2))) /\
  (forall before a b after : jsstring,
     ~ In LF a -> ~ In LF b ->
     c1 = before ++ LF :: a -> c2 = b ++ LF :: after ->
     read_loop st [c1; c2]
     = process_lines st (split before ++ [a] ++ [b] ++ split after) /\
     read_loop st [c1 ++ c2]
     = process_lines st (split before ++ [a ++ b] ++ split after)).
Proof.
  split; [|split; [|split; [|split]]].
  - unfold read_loop, process_chunk. simpl. now rewrite process_lines_app.
  - apply split_last_hd.
  - apply split_app.
  - rewrite split_last_hd, split_app. repeat rewrite length_app. simpl. lia.
  - intros before a b after Ha Hb -> ->.
    rewrite !read_loop_lines. simpl. rewrite !app_nil_r.
    rewrite <- app_assoc. simpl.
    rewrite !split_LF. rewrite (split_no_LF a Ha), (split_no_LF b Hb).
    split; [now rewrite <- !app_assoc|].
    replace (a ++ b ++ LF :: after) with ((a ++ b) ++ LF :: after)
      by now rewrite <- app_assoc.
    rewrite split_LF, (split_no_LF (a ++ b)); [reflexivity|].
    intros Hin. apply in_app_or in Hin. tauto.
Qed.

End FramerProperties.

(** ** The conversation under the updaters *)

Section Conversation.

Context {E : Env}.

Lemma patch_length (aid : jsstring) (f : ChatMessage -> ChatMessage)
    (msgs : list ChatMessage) :
  List.length (patch aid f msgs) = List.length msgs.
Proof. apply length_map. Qed.

Lemma patch_nth_error (aid : jsstring) (f : ChatMessage -> ChatMessage)
    (msgs : list ChatMessage) (i : nat) :
  nth_error (patch aid f msgs) i
  = option_map (fun msg => if Str.eqb (id msg) aid then f msg else msg)
      (nth_error msgs i).
Proof. apply nth_error_map. Qed.

Lemma patch_app (aid : jsstring) (f : ChatMessage -> ChatMessage)
    (l1 l2 : list ChatMessage) :
  patch aid f (l1 ++ l2) = patch aid f l1 ++ patch aid f l2.
Proof. apply map_app. Qed.

(** Every updater keeps the id and the sender of the message. *)
Lemma updater_id_sender (f : ChatMessage -> ChatMessage) (msg : ChatMessage) :
  updater f -> id (f msg) = id msg /\ sender (f msg) = sender msg.
Proof. intros []; split; reflexivity. Qed.

Lemma patched_length (msgs msgs' : list ChatMessage) :
  patched msgs msgs' -> List.length msgs' = List.length msgs.
Proof.
  intros [->|(aid & f & _ & ->)]; [reflexivity|apply patch_length].
Qed.

Lemma paired_patch (aid : jsstring) (f : ChatMessage -> ChatMessage)
    (msgs : list ChatMessage) :
  updater f -> paired msgs -> paired (patch aid f msgs).
Proof.
  intros Hf Hp. induction Hp as [|u a rest base Hu Ha Hidu Hida _ IH];
    [constructor|].
  simpl. apply paired_cons with (base := base); try assumption.
  - destruct (Str.eqb (id u) aid); [|assumption].
    now rewrite (proj2 (updater_id_sender u Hf)).
  - destruct (Str.eqb (id a) aid); [|assumption].
    now rewrite (proj2 (updater_id_sender a Hf)).
  - destruct (Str.eqb (id u) aid); [|assumption].
    now rewrite (proj1 (updater_id_sender u Hf)).
  - destruct (Str.eqb (id a) aid); [|assumption].
    now rewrite (proj1 (updater_id_sender a Hf)).
Qed.

Lemma paired_patched (msgs msgs' : list ChatMessage) :
  patched msgs msgs' -> paired msgs -> paired msgs'.
Proof.
  intros [->|(aid & f & Hf & ->)] Hp; [assumption|now apply paired_patch].
Qed.

Lemma paired_app (l1 l2 : list ChatMessage) :
  paired l1 -> paired l2 -> paired (l1 ++ l2).
Proof.
  intros H1 H2. induction H1; [assumption|].
  simpl. econstructor; eassumption.
Qed.

Lemma paired_even (msgs : list ChatMessage) :
  paired msgs -> exists k, List.length msgs = 2 * k.
Proof.
  intros H. induction H as [|u a rest base _ _ _ _ _ [k Hk]].
  - now exists 0.
  - exists (S k). simpl. lia.
Qed.

(** The pair a call appends. *)
Lemma paired_new_pair (messageId message : jsstring) (d1 d2 : N) :
  paired [userMessage messageId message d1;
          assistantMessage (messageId ++ lit "_assistant") d2].
Proof. now apply paired_cons with (base := messageId); try constructor. Qed.

(** What [append_pair] does to a conversation of pairs within the bound:
    below the bound the pair is appended; at the bound the two oldest
    messages, one pair, go and the rest keeps its order. *)
Lemma append_pair_paired (u a : ChatMessage) (prev : list ChatMessage) :
  paired prev -> List.length prev <= MAX_MESSAGES ->
  (List.length prev + 2 <= MAX_MESSAGES /\ append_pair u a prev = prev ++ [u; a])
  \/ (List.length prev = MAX_MESSAGES /\
      append_pair u a prev = skipn 2 prev ++ [u; a] /\
      exists u0 a0 base,
        prev = u0 :: a0 :: skipn 2 prev /\
        sender u0 = user /\ sender a0 = assistant /\
        id u0 = base ++ lit "_user" /\ id a0 = base ++ lit "_assistant" /\
        paired (skipn 2 prev)).
Proof.
  intros Hp Hlen. unfold append_pair, slice_last.
  rewrite length_app. simpl List.length.
  destruct (paired_even Hp) as [k Hk]. unfold MAX_MESSAGES in *.
  destruct (Nat.ltb_spec 100 (List.length prev + 2)) as [Hgt|Hle].
  - right. assert (Hfull : List.length prev = 100) by lia.
    split; [assumption|]. rewrite Hfull.
    change (100 + 2 - 100) with 2.
    destruct Hp as [|u0 a0 rest base Hu0 Ha0 Hiu Hia Hrest]; [discriminate|].
    split; [reflexivity|].
    exists u0, a0, base. simpl. auto 10.
  - left. split; [lia|reflexivity].
Qed.

Lemma paired_append_pair (messageId message : jsstring) (d1 d2 : N)
    (prev : list ChatMessage) :
  paired prev -> List.length prev <= MAX_MESSAGES ->
  let msgs := append_pair (userMessage messageId message d1)
                (assistantMessage (messageId ++ lit "_assistant") d2) prev in
  paired msgs /\ List.length msgs <= MAX_MESSAGES.
Proof.
  intros Hp Hlen msgs. unfold msgs.
  destruct (append_pair_paired (userMessage messageId message d1)
              (assistantMessage (messageId ++ lit "_assistant") d2) Hp Hlen)
    as [[Hroom ->]|(Hfull & -> & u0 & a0 & base & Hprev & _ & _ & _ & _ & Hrest)].
  - split; [apply paired_app; [assumption|apply paired_new_pair]|].
    rewrite length_app. unfold MAX_MESSAGES in *. simpl. lia.
  - split; [apply paired_app; [assumption|apply paired_new_pair]|].
    rewrite length_app, length_skipn. unfold MAX_MESSAGES in *. simpl. lia.
Qed.

(** *** The step list *)

Lemma pairwise_distinct_snoc (steps : list value) (label : value) :
  pairwise_distinct steps ->
  array_includes steps label = false ->
  pairwise_distinct (steps ++ [label]).
Proof.
  intros Hd Hnew i j a b Hij Hi Hj.
  assert (Hjlen : j < List.length (steps ++ [label]))
    by (apply nth_error_Some; congruence).
  rewrite length_app in Hjlen. simpl in Hjlen.
  rewrite nth_error_app1 in Hi by lia.
  destruct (Nat.eq_dec j (List.length steps)) as [->|Hne].
  - rewrite nth_error_app2, Nat.sub_diag in Hj by lia.
    injection Hj as <-.
    unfold array_includes in Hnew.
    destruct (sameValueZero a label) eqn:Hsame; [|reflexivity].
    assert (Hex : existsb (fun x => sameValueZero x label) steps = true).
    { apply existsb_exists. exists a. split; [|assumption].
      eapply nth_error_In; eassumption. }
    congruence.
  - rewrite nth_error_app1 in Hj by lia. exact (Hd i j a b Hij Hi Hj).
Qed.

(** A label is appended exactly when the list does not include it, and the
    list stays free of repetitions. *)
Lemma add_step_distinct (steps : option (list value)) (label : value) :
  pairwise_distinct (or_empty steps) ->
  pairwise_distinct (or_empty (add_step steps label)).
Proof.
  intros Hd. unfold add_step.
  destruct (array_includes (or_empty steps) label) eqn:Hinc; [assumption|].
  simpl. now apply pairwise_distinct_snoc.
Qed.

Lemma updater_steps_distinct (f : ChatMessage -> ChatMessage) (msg : ChatMessage) :
  updater f -> steps_distinct msg -> steps_distinct (f msg).
Proof.
  unfold steps_distinct.
  intros [] Hd; simpl; try assumption; now apply add_step_distinct.
Qed.

Lemma steps_distinct_patched (msgs msgs' : list ChatMessage) :
  patched msgs msgs' ->
  Forall steps_distinct msgs -> Forall steps_distinct msgs'.
Proof.
  intros [->|(aid & f & Hf & ->)] Hall; [assumption|].
  unfold patch. apply Forall_map. eapply Forall_impl; [|exact Hall].
  intros msg Hmsg. destruct (Str.eqb (id msg) aid); [|assumption].
  now apply updater_steps_distinct.
Qed.

End Conversation.

(** ** The states of the hook *)

Section Reachable.

Context {E : Env}.

Lemma process_line_patched (st : turn * HookState) (line : jsstring) :
  patched (messages (snd st)) (messages (snd (process_line st line))).
Proof.
  unfold process_line.
  destruct (startsWith Text.event_prefix line); [now left|].
  destruct (startsWith Text.data_prefix line); [|now left].
  apply process_data_effect.
Qed.

Lemma setMessages_patched (aid : jsstring) (f : ChatMessage -> ChatMessage)
    (h : HookState) :
  updater f -> patched (messages h) (messages (setMessages aid f h)).
Proof. intros Hf. right. now exists aid, f. Qed.

Lemma Forall_append_pair (P : ChatMessage -> Prop) (u a : ChatMessage)
    (prev : list ChatMessage) :
  Forall P prev -> P u -> P a -> Forall P (append_pair u a prev).
Proof.
  intros Hprev Hu Ha.
  assert (Hall : Forall P (prev ++ [u; a])).
  { apply Forall_app. split; [assumption|]. now repeat constructor. }
  unfold append_pair, slice_last.
  destruct (MAX_MESSAGES <? _); [|assumption].
  rewrite <- (firstn_skipn (List.length (prev ++ [u; a]) - MAX_MESSAGES)) in Hall.
  now apply Forall_app in Hall.
Qed.

(** In every state of the hook the conversation holds at most
    [MAX_MESSAGES] messages, is made of user/assistant pairs, and no step
    list repeats a value. *)
Lemma reachable_invariant (h : HookState) :
  reachable h ->
  List.length (messages h) <= MAX_MESSAGES /\
  paired (messages h) /\
  Forall steps_distinct (messages h).
Proof.
  assert (Hpatched : forall msgs msgs',
             patched msgs msgs' ->
             List.length msgs <= MAX_MESSAGES /\ paired msgs
             /\ Forall steps_distinct msgs ->
             List.length msgs' <= MAX_MESSAGES /\ paired msgs'
             /\ Forall steps_distinct msgs').
  { intros msgs msgs' Hp (Hlen & Hpair & Hsteps).
    rewrite (patched_length Hp).
    split; [assumption|]. split.
    - eapply paired_patched; eassumption.
    - eapply steps_distinct_patched; eassumption. }
  induction 1 as [|h message _ (Hlen & Hpair & Hsteps)
                  |t h line _ IH|t h _ IH|t h err _ IH
                  |h _ IH|loading h _ IH|h _ IH].
  - simpl. unfold MAX_MESSAGES. repeat split; [lia|constructor|constructor].
  - cbn [start snd messages].
    destruct (paired_append_pair (of_N (clock (clock_reads h))) message
                (clock (S (clock_reads h))) (clock (S (S (clock_reads h))))
                Hpair Hlen) as [Hp' Hlen'].
    split; [exact Hlen'|]. split; [exact Hp'|].
    apply Forall_append_pair; [assumption| |];
      intros i j a b _ Hi; now destruct i.
  - exact (Hpatched _ _ (process_line_patched (t, h) line) IH).
  - refine (Hpatched _ _ (setMessages_patched _ h _) IH). constructor.
  - refine (Hpatched _ _ (setMessages_patched _ h _) IH). constructor.
  - exact IH.
  - unfold cancelRequest.
    destruct (abortControllerRef h); [destruct loading|]; exact IH.
  - simpl. unfold MAX_MESSAGES. repeat split; [lia|constructor|constructor].
Qed.

Lemma process_lines_reachable (lines : list jsstring) (st : turn * HookState) :
  reachable (snd st) -> reachable (snd (process_lines st lines)).
Proof.
  revert st; induction lines as [|line lines IH]; intros [t h] Hr; [exact Hr|].
  simpl. apply IH. destruct (process_line (t, h) line) eqn:Hl.
  change h0 with (snd (t0, h0)). rewrite <- Hl. now apply reach_line.
Qed.

Lemma read_loop_reachable (cs : list jsstring) (st : turn * HookState) :
  reachable (snd st) -> reachable (snd (read_loop st cs)).
Proof. rewrite read_loop_lines. apply process_lines_reachable. Qed.

Lemma receive_reachable (t : turn) (h : HookState) (net : fetch_result) :
  reachable h -> reachable (fst (receive t h net)).
Proof.
  intros Hr. unfold receive.
  destruct net as [err|r]; [now apply reach_catch|].
  destruct (ok r); cbn [negb]; [|now apply reach_catch].
  destruct (body r) as [stream|]; [|now apply reach_catch].
  pose proof (read_loop_reachable (chunks stream) (t, h) Hr) as Hloop.
  destruct (read_loop (t, h) (chunks stream)) as [t' h'].
  destruct (read_failure stream);
    [now apply reach_catch|now apply reach_complete].
Qed.

(** A whole call of [sendMessage] is a sequence of steps of the hook. *)
Lemma sendMessage_reachable (selectedAgent : jsstring) (loading : bool)
    (h : HookState)
    (message : jsstring) (net : fetch_result) :
  reachable h -> reachable (fst (fst (sendMessage selectedAgent loading h message net))).
Proof.
  intros Hr. unfold sendMessage.
  destruct (refused loading message); [exact Hr|].
  pose proof (reach_start message Hr) as Hstart.
  destruct (start h message) as [t h1]. cbn [snd] in Hstart.
  destruct (encodeURIComponent selectedAgent) as [agent|msg].
  - pose proof (receive_reachable t net Hstart) as Hrecv.
    destruct (receive t h1 net) as [h2 result].
    now apply reach_finally.
  - apply reach_finally. now apply reach_catch.
Qed.

Lemma run_ops_reachable (selectedAgent : jsstring) (ops : list op) :
  reachable (run_ops selectedAgent ops).
Proof.
  unfold run_ops. generalize reach_initial. generalize initial as h.
  induction ops as [|o ops IH]; intros h Hr; [exact Hr|].
  simpl. apply IH. destruct o as [message net| |]; simpl.
  - now apply sendMessage_reachable.
  - now apply reach_cancel.
  - now apply reach_clear.
Qed.

(** C3 - Bounded conversation: in every state reached by any sequence of
    steps of the hook (sends, stream events, completions, failures,
    cancellations, clears; [run_ops_reachable] for whole operations) the
    conversation holds at most 100 messages.
    When a send appends its user/assistant pair to a conversation with
    room, the pair is added at the end; when the conversation is full,
    exactly its two oldest messages, one user/assistant pair, are removed
    and every newer message is kept in order before the new pair. *)
Theorem C3_conversation_bounded (h : HookState) (message : jsstring) :
  reachable h ->
  let messageId := of_N (clock (clock_reads h)) in
  let u := userMessage messageId message (clock (S (clock_reads h))) in
  let a := assistantMessage (messageId ++ lit "_assistant")
             (clock (S (S (clock_reads h)))) in
  List.length (messages h) <= MAX_MESSAGES /\
  List.length (messages (snd (start h message))) <= MAX_MESSAGES /\
  ((List.length (messages h) + 2 <= MAX_MESSAGES /\
    messages (snd (start h message)) = messages h ++ [u; a])
   \/
   (List.length (messages h) = MAX_MESSAGES /\
    messages (snd (start h message)) = skipn 2 (messages h) ++ [u; a] /\
    exists u0 a0,
      messages h = u0 :: a0 :: skipn 2 (messages h) /\
      sender u0 = user /\ sender a0 = assistant)).
Proof.
  intros Hr messageId u a.
  destruct (reachable_invariant Hr) as (Hlen & Hpair & _).
  destruct (reachable_invariant (reach_start message Hr)) as (Hlen' & _ & _).
  split; [exact Hlen|]. split; [exact Hlen'|].
  cbn [start snd messages]. fold messageId. fold u. fold a.
  destruct (append_pair_paired u a Hpair Hlen)
    as [[Hroom Heq]|(Hfull & Heq & u0 & a0 & base & Hprev & Hu0 & Ha0 & _)].
  - left. split; [exact Hroom|exact Heq].
  - right. split; [exact Hfull|]. split; [exact Heq|].
    exists u0, a0. auto.
Qed.

(** C7 - Step list without repetition: in every state reached by any
    sequence of steps of the hook, hence after any sequence of
    status-update and tool-result events, no value of the step list of a
    message equals (in the sense of [includes]) a value further in the
    list; two string labels of one list are different strings.  Both event
    kinds add their label with [add_step], which appends it only when the
    list does not include it. *)
Theorem C7_steps_never_repeat (h : HookState) (msg : ChatMessage) :
  reachable h -> In msg (messages h) ->
  pairwise_distinct (or_empty (thinkingSteps msg)) /\
  (forall i j x y, i < j ->
     nth_error (or_empty (thinkingSteps msg)) i = Some (JStr x) ->
     nth_error (or_empty (thinkingSteps msg)) j = Some (JStr y) ->
     x <> y) /\
  (forall statusMessage toolStatus sqlQuery info now,
     thinkingSteps (upd_status statusMessage now msg)
     = add_step (thinkingSteps msg) statusMessage /\
     thinkingSteps (upd_tool_result toolStatus sqlQuery info now msg)
     = add_step (thinkingSteps msg) (JStr toolStatus) /\
     pairwise_distinct (or_empty (add_step (thinkingSteps msg) statusMessage))).
Proof.
  intros Hr Hin.
  destruct (reachable_invariant Hr) as (_ & _ & Hsteps).
  rewrite Forall_forall in Hsteps. specialize (Hsteps msg Hin).
  split; [exact Hsteps|]. split.
  - intros i j x y Hij Hi Hj Hxy.
    pose proof (Hsteps i j _ _ Hij Hi Hj) as Hd. simpl in Hd.
    apply eqb_neq in Hd. contradiction.
  - intros. repeat split; try reflexivity. now apply add_step_distinct.
Qed.

End Reachable.


(** ** The end of a turn *)

Section TurnEnd.

Context {E : Env}.

(** The guard of line 21: a call with a text that is empty after [trim],
    or from a callback that closed over a set [isLoading], returns at once;
    the state of the hook is unchanged and no request is issued. *)
Lemma refused_send_is_noop (selectedAgent : jsstring) (loading : bool)
    (h : HookState) (message : jsstring) (net : fetch_result) :
  trim message = [] \/ loading = true ->
  sendMessage selectedAgent loading h message net = (h, [], Ignored).
Proof.
  intros H. unfold sendMessage.
  assert (Hrefused : refused loading message = true).
  { unfold refused. destruct H as [-> | ->]; [reflexivity|apply orb_true_r]. }
  now rewrite Hrefused.
Qed.

(** C9 - Terminal error patch: whatever failure the [catch] clause
    receives, the conversation keeps its length; a message whose id is not
    the id of the turn's assistant message is unchanged; the assistant
    message of the turn gets the empty display text, status [error], the
    streaming flag off and the error text of the failure, and keeps its
    timeline, step list, reasoning texts, SQL queries, charts and
    annotations as they were. *)
Theorem C9_failure_keeps_collections (t : turn) (h : HookState) (err : thrown)
    (i : nat) (msg : ChatMessage) :
  nth_error (messages h) i = Some msg ->
  List.length (messages (on_catch t h err)) = List.length (messages h) /\
  exists msg',
    nth_error (messages (on_catch t h err)) i = Some msg' /\
    (id msg <> assistantMessageId t -> msg' = msg) /\
    (id msg = assistantMessageId t ->
     text msg' = [] /\
     status msg' = Some status_error /\
     isStreaming msg' = Some false /\
     error msg' = Some (error_text (classify err)) /\
     timeline msg' = timeline msg /\
     thinkingSteps msg' = thinkingSteps msg /\
     thinkingTexts msg' = thinkingTexts msg /\
     sqlQueries msg' = sqlQueries msg /\
     charts msg' = charts msg /\
     annotations msg' = annotations msg /\
     id msg' = id msg /\ sender msg' = sender msg /\
     timestamp msg' = timestamp msg).
Proof.
  intros Hi. unfold on_catch, setMessages. cbn [messages with_messages].
  split; [apply patch_length|].
  rewrite patch_nth_error, Hi. cbn [option_map].
  eexists. split; [reflexivity|].
  destruct (Str.eqb (id msg) (assistantMessageId t)) eqn:Hid.
  - apply eqb_eq in Hid. split; [intros Hne; contradiction|].
    intros _. cbn. repeat split; reflexivity.
  - apply eqb_neq in Hid. split; [reflexivity|]. intros Heq. contradiction.
Qed.

End TurnEnd.

(** ** A whole turn *)

Section Turn.

Context {E : Env}.

(** The placeholder is the last message after the start of a call. *)
Lemma start_last_message (h : HookState) (message : jsstring) :
  last_message (messages (snd (start h message)))
    (assistantMessage (of_N (clock (clock_reads h)) ++ lit "_assistant")
       (clock (S (S (clock_reads h))))).
Proof.
  cbn [start snd messages]. unfold append_pair, slice_last, last_message.
  set (u := userMessage _ _ _). set (a := assistantMessage _ _).
  replace (messages h ++ [u; a]) with ((messages h ++ [u]) ++ [a])
    by now rewrite <- app_assoc.
  destruct (MAX_MESSAGES <? _); [|now eexists].
  rewrite skipn_app.
  replace (_ - _ - _) with 0
    by (rewrite !length_app; simpl; unfold MAX_MESSAGES; lia).
  now eexists.
Qed.

Lemma patch_last_message (aid : jsstring) (f : ChatMessage -> ChatMessage)
    (msgs : list ChatMessage) (m : ChatMessage) :
  last_message msgs m ->
  last_message (patch aid f msgs) (if Str.eqb (id m) aid then f m else m).
Proof. intros [older ->]. rewrite patch_app. now eexists. Qed.

Lemma patched_last_message (msgs msgs' : list ChatMessage) (m : ChatMessage) :
  patched msgs msgs' -> last_message msgs m ->
  exists m', last_message msgs' m' /\ id m' = id m /\ sender m' = sender m.
Proof.
  intros [->|(aid & f & Hf & ->)] Hlast; [now exists m|].
  exists (if Str.eqb (id m) aid then f m else m).
  split; [now apply patch_last_message|].
  destruct (Str.eqb (id m) aid); [|now split].
  now apply updater_id_sender.
Qed.

Lemma process_lines_turn (lines : list jsstring) (st : turn * HookState)
    (m : ChatMessage) :
  last_message (messages (snd st)) m ->
  assistantMessageId (fst (process_lines st lines)) = assistantMessageId (fst st) /\
  isLoading (snd (process_lines st lines)) = isLoading (snd st) /\
  exists m', last_message (messages (snd (process_lines st lines))) m'
             /\ id m' = id m /\ sender m' = sender m.
Proof.
  revert st m; induction lines as [|line lines IH]; intros st m Hlast.
  - simpl. repeat split. now exists m.
  - simpl.
    destruct (patched_last_message (process_line_patched st line) Hlast)
      as (m1 & Hlast1 & Hid1 & Hsender1).
    destruct (IH (process_line st line) m1 Hlast1) as (Haid & Hload & m' & Hm' & Hid' & Hs').
    assert (Hstep : assistantMessageId (fst (process_line st line))
                    = assistantMessageId (fst st)
                    /\ isLoading (snd (process_line st line)) = isLoading (snd st)).
    { unfold process_line.
      destruct (startsWith Text.event_prefix line); [now split|].
      destruct (startsWith Text.data_prefix line); [|now split].
      split; apply process_data_effect. }
    destruct Hstep as [Ha Hl].
    split; [congruence|]. split; [congruence|].
    exists m'. repeat split; congruence.
Qed.

(** The text-delta events of a stream add their texts, in order, to the
    text of the turn. *)
Lemma carries_text_deltas_text (ev : jsstring) (lines texts : list jsstring) :
  carries_text_deltas ev lines texts ->
  forall st, currentEvent (fst st) = ev ->
  assistantText (fst (process_lines st lines))
  = assistantText (fst st) ++ List.concat texts.
Proof.
  induction 1 as [ev|ev line lines texts Hev _ IH
                  |line txt lines texts Hline _ IH
                  |ev line lines texts Hne Hev _ IH
                  |ev line lines texts Hev Hno _ IH]; intros st Hcur.
  - simpl. now rewrite app_nil_r.
  - simpl. rewrite IH; rewrite process_line_event by exact Hev; reflexivity.
  - destruct Hline as (Hdata & Hne & Hnd & Htxt & data & Hparse & Hprop).
    simpl. rewrite IH.
    + rewrite process_line_data by exact Hdata. rewrite Hcur.
      destruct st as [t h]. unfold process_data.
      apply eqb_neq in Hne, Hnd. rewrite Hne, Hnd, Hparse. cbn [orb].
      unfold dispatch, cond_prop. rewrite eqb_refl.
      unfold get. destruct data; try discriminate Hprop.
      rewrite Hprop. cbn [truthy].
      apply eqb_neq in Htxt. rewrite Htxt. cbn.
      now rewrite <- app_assoc.
    + rewrite process_line_keeps_event
        by (now apply data_line_declares_nothing). exact Hcur.
  - simpl. rewrite IH.
    + f_equal. unfold process_line. rewrite Hev.
      destruct (startsWith Text.data_prefix line); [|reflexivity].
      rewrite Hcur. now apply process_data_effect.
    + now rewrite process_line_keeps_event.
  - simpl. rewrite IH.
    + f_equal. unfold process_line. rewrite Hev.
      destruct (startsWith Text.data_prefix line) eqn:Hdata; [|reflexivity].
      destruct Hno as [Hno|[Hno|Hno]]; [discriminate| |];
        destruct st as [t h]; unfold process_data; rewrite Hno;
        reflexivity.
    + now rewrite process_line_keeps_event.
Qed.

Lemma carries_text_deltas_nonempty (ev : jsstring) (lines texts : list jsstring) :
  carries_text_deltas ev lines texts -> Forall (fun txt => txt <> []) texts.
Proof.
  induction 1 as [| | line txt lines texts Hline _ IH | |]; try assumption;
    constructor; [apply Hline|assumption].
Qed.

Lemma receive_stream (t : turn) (h : HookState) (r : Response)
    (stream : body_stream) :
  ok r = true -> body r = Some stream ->
  receive t h (FetchResolves r)
  = let st := read_loop (t, h) (chunks stream) in
    match read_failure stream with
    | Some err => (on_catch (fst st) (snd st) err, Failure err)
    | None => (complete (fst st) (snd st), Success (assistantMessageId (fst st)))
    end.
Proof.
  intros Hok Hbody. unfold receive. rewrite Hok, Hbody. cbn [negb].
  now destruct (read_loop (t, h) (chunks stream)).
Qed.

Lemma sendMessage_admitted (selectedAgent agent : jsstring) (loading : bool)
    (h : HookState)
    (message : jsstring) (net : fetch_result) :
  refused loading message = false ->
  encodeURIComponent selectedAgent = inl agent ->
  sendMessage selectedAgent loading h message net
  = (finally (fst (receive (fst (start h message)) (snd (start h message)) net)),
     [{| endpoint := backendUrl ++ lit "/api/agents/" ++ agent ++ lit "/messages";
         request_text := trim message |}],
     snd (receive (fst (start h message)) (snd (start h message)) net)).
Proof.
  intros Hadm Henc. unfold sendMessage. rewrite Hadm.
  destruct (start h message) as [t h1]. rewrite Henc. cbn [fst snd].
  now destruct (receive t h1 net).
Qed.

(** C1 - Text deltas: when an admitted call gets an [ok] response whose
    stream ends normally, and the text-delta events of the stream carry
    JSON payloads with the non-empty [text] strings [texts], then the
    assistant message of the turn, the last of the conversation, ends with
    status [sent], the streaming flag off, no status label, and as display
    text the concatenation of [texts] in order; ['Response completed']
    stands in only when the stream carried no text. *)
Theorem C1_text_deltas_concatenate (selectedAgent agent : jsstring)
    (loading : bool)
    (h : HookState) (message : jsstring) (r : Response) (stream : body_stream)
    (texts : list jsstring) :
  refused loading message = false ->
  encodeURIComponent selectedAgent = inl agent ->
  ok r = true -> body r = Some stream -> read_failure stream = None ->
  carries_text_deltas [] (flat_map split (chunks stream)) texts ->
  let aid := of_N (clock (clock_reads h)) ++ lit "_assistant" in
  let final := sendMessage selectedAgent loading h message (FetchResolves r) in
  snd final = Success aid /\
  exists m,
    last_message (messages (fst (fst final))) m /\
    id m = aid /\ sender m = assistant /\
    status m = Some status_sent /\
    isStreaming m = Some false /\
    streamingStatus m = None /\
    text m = match texts with
             | [] => Text.RESPONSE_COMPLETED
             | _ :: _ => List.concat texts
             end.
Proof.
  intros Hadm Henc Hok Hbody Hend Hcarries aid final. unfold final.
  rewrite (@sendMessage_admitted selectedAgent agent loading h message
             (FetchResolves r) Hadm Henc).
  rewrite (@receive_stream _ _ r stream Hok Hbody), Hend. cbn [fst snd].
  rewrite read_loop_lines.
  set (st0 := (fst (start h message), snd (start h message))).
  destruct (@process_lines_turn (flat_map split (chunks stream)) st0 _
              (start_last_message h message))
    as (Haid & _ & m' & Hlast & Hid & Hsender).
  pose proof (carries_text_deltas_text Hcarries st0 eq_refl) as Htext.
  change (assistantText (fst st0)) with (@nil N) in Htext.
  change (assistantMessageId (fst st0)) with aid in Haid.
  change (id (assistantMessage _ _)) with aid in Hid.
  change (sender (assistantMessage _ _)) with assistant in Hsender.
  cbn [app] in Htext.
  split; [now rewrite Haid|].
  unfold complete, setMessages, finally, with_messages. cbn [messages].
  rewrite Haid.
  eexists. split; [apply patch_last_message; exact Hlast|].
  rewrite Hid, eqb_refl. cbn.
  repeat split; try assumption.
  rewrite Htext. unfold text_or_completed.
  pose proof (carries_text_deltas_nonempty Hcarries) as Hne.
  destruct texts as [|txt texts]; [reflexivity|].
  inversion Hne as [|? ? Htxt _]; subst.
  destruct txt as [|c txt]; [contradiction|reflexivity].
Qed.

End Turn.

(** ** Failures and annotations *)

Section Failures.

Context {E : Env}.

Lemma on_catch_last_message (t : turn) (h : HookState) (err : thrown)
    (m : ChatMessage) :
  last_message (messages h) m -> id m = assistantMessageId t ->
  exists m',
    last_message (messages (finally (on_catch t h err))) m' /\
    id m' = id m /\ sender m' = sender m /\
    status m' = Some status_error /\
    isStreaming m' = Some false /\
    streamingStatus m' = None /\
    text m' = [] /\
    error m' = Some (error_text (classify err)).
Proof.
  intros Hlast Hid.
  exists (upd_failed (error_text (classify err)) m). split.
  - unfold finally, on_catch, setMessages, with_messages. cbn [messages].
    pose proof (patch_last_message (assistantMessageId t)
                  (upd_failed (error_text (classify err))) Hlast) as H.
    now rewrite Hid, eqb_refl in H.
  - cbn. repeat split; reflexivity.
Qed.

Lemma classify_abort (err : thrown) :
  classify err = UserCanceled <-> is_abort err.
Proof.
  split.
  - destruct err as [e|]; [|discriminate]. unfold classify.
    destruct (Str.eqb (name e) (lit "AbortError")) eqn:Hname.
    + intros _. exists e. split; [reflexivity|now apply eqb_eq].
    + destruct (instanceof_TypeError e && _); discriminate.
  - intros (e & -> & Hname). unfold classify.
    now rewrite Hname, eqb_refl.
Qed.

Lemma canceled_is_not_connection_lost : canceled_text <> connection_lost_text.
Proof.
  unfold canceled_text, connection_lost_text. intros H.
  apply app_inv_head in H. apply app_inv_head in H. discriminate H.
Qed.

(** Cancellation on the paths that report it: when the abort of an admitted
    call reaches the [catch] clause, its pending [fetch] or a pending [read]
    of the stream being rejected with the [AbortError], the assistant
    message of the turn, the last of the conversation, ends with status
    [error], the streaming flag off, the empty display text, and as error
    the fixed header, a blank line and the notice ['User canceled the
    request'], which the error string so contains; the loading flag and the
    handle are cleared.  The cancellation branch is taken for the
    [AbortError] and for no other failure, and its text differs from the
    text of a lost connection and of an unknown error. *)
Theorem abort_reaching_catch_is_canceled (selectedAgent agent : jsstring)
    (loading : bool)
    (h : HookState) (message : jsstring) (net : fetch_result) :
  refused loading message = false ->
  encodeURIComponent selectedAgent = inl agent ->
  abort_reaches_catch net ->
  let aid := of_N (clock (clock_reads h)) ++ lit "_assistant" in
  let final := fst (fst (sendMessage selectedAgent loading h message net)) in
  (exists m,
     last_message (messages final) m /\
     id m = aid /\ sender m = assistant /\
     status m = Some status_error /\
     isStreaming m = Some false /\
     text m = [] /\
     error m = Some (JStr (Text.ERROR_PREFIX ++ Text.blank_line
                           ++ Text.USER_CANCELED))) /\
  includes Text.USER_CANCELED
    (Text.ERROR_PREFIX ++ Text.blank_line ++ Text.USER_CANCELED) = true /\
  isLoading final = false /\ abortControllerRef final = None /\
  (forall err, classify err = UserCanceled <-> is_abort err) /\
  error_text UserCanceled <> error_text ConnectionLost /\
  error_text UserCanceled <> error_text Unknown.
Proof.
  intros Hadm Henc Hab aid final. unfold final.
  rewrite (@sendMessage_admitted _ selectedAgent agent loading h message net Hadm Henc).
  cbn [fst snd].
  split; [|split; [vm_compute; reflexivity|]].
  - assert (Hend : forall t h' err m,
               last_message (messages h') m -> id m = assistantMessageId t ->
               id m = aid -> sender m = assistant -> is_abort err ->
               exists m',
                 last_message (messages (finally (on_catch t h' err))) m' /\
                 id m' = aid /\ sender m' = assistant /\
                 status m' = Some status_error /\
                 isStreaming m' = Some false /\
                 text m' = [] /\
                 error m' = Some (JStr (Text.ERROR_PREFIX ++ Text.blank_line
                                        ++ Text.USER_CANCELED))).
    { intros t h' err m Hlast Hid Haid Hsender Herr.
      destruct (on_catch_last_message t h' err Hlast Hid)
        as (m' & Hl & Hi & Hs & Hst & Hstr & _ & Htxt & Herror).
      apply classify_abort in Herr. rewrite Herr in Herror.
      exists m'. repeat split; try assumption; congruence. }
    destruct net as [err|r]; cbn [abort_reaches_catch] in Hab.
    + cbn [receive fst].
      exact (Hend (fst (start h message)) (snd (start h message)) err _
               (start_last_message h message) eq_refl eq_refl eq_refl Hab).
    + destruct Hab as (Hok & stream & err & Hbody & Hfail & Herr).
      rewrite (@receive_stream _ _ _ r stream Hok Hbody), Hfail. cbn [fst snd].
      rewrite read_loop_lines.
      destruct (@process_lines_turn _ (flat_map split (chunks stream))
                  (fst (start h message), snd (start h message)) _
                  (start_last_message h message))
        as (Haid & _ & m' & Hlast & Hid & Hsender).
      refine (Hend _ _ err m' Hlast _ _ Hsender Herr).
      * rewrite Hid, Haid. reflexivity.
      * rewrite Hid. reflexivity.
  - repeat split; try (apply classify_abort).
    + cbn. intros H. injection H as H.
      now apply canceled_is_not_connection_lost.
    + cbn. intros H. injection H as H. vm_compute in H. discriminate H.
Qed.

(** The error of a response that is not [ok], declares a JSON content type
    and carries an [errorParts] array of two strings. *)
Lemma http_error_parts (r : Response) (contentType : jsstring)
    (errorData : value) (a b : jsstring) :
  content_type r = Some contentType ->
  includes (lit "application/json") contentType = true ->
  json_body r = JsonResolves errorData ->
  prop errorData (lit "errorParts") = Some (JArr [JStr a; JStr b]) ->
  http_error r = new_Error_full (JStr (a ++ Text.blank_line ++ b)).
Proof.
  intros Hct Hinc Hbody Hparts. unfold http_error.
  rewrite Hct, Hinc, Hbody.
  destruct errorData; try discriminate Hparts.
  now rewrite Hparts.
Qed.

(** An error made by the hook from a string is reported with that string. *)
Lemma reported_text (s : jsstring) :
  error_text (classify (ThrowError (new_Error_full (JStr s)))) = JStr s.
Proof.
  unfold classify, new_Error_full. cbn [converts].
  cbn [name instanceof_TypeError fullMessage message].
  change (Str.eqb (lit "Error") (lit "AbortError")) with false.
  cbn [andb error_text js_or truthy toString].
  now destruct (negb (Str.eqb s [])).
Qed.

(** C4 - Error parts, as the code has it: for an admitted call, when the
    response is not [ok], its [content-type] header includes
    ['application/json'] and its JSON body has the [errorParts] array
    [[a, b]] of two strings, the assistant message of the turn ends with
    status [error] and the error text [a], a blank line, [b]. *)
Theorem C4_error_parts_with_json_content_type (selectedAgent agent : jsstring)
    (loading : bool)
    (h : HookState) (message : jsstring) (r : Response)
    (contentType : jsstring) (errorData : value) (a b : jsstring) :
  refused loading message = false ->
  encodeURIComponent selectedAgent = inl agent ->
  ok r = false ->
  content_type r = Some contentType ->
  includes (lit "application/json") contentType = true ->
  json_body r = JsonResolves errorData ->
  prop errorData (lit "errorParts") = Some (JArr [JStr a; JStr b]) ->
  let final := fst (fst (sendMessage selectedAgent loading h message (FetchResolves r))) in
  exists m,
    last_message (messages final) m /\
    id m = of_N (clock (clock_reads h)) ++ lit "_assistant" /\
    status m = Some status_error /\
    text m = [] /\
    error m = Some (JStr (a ++ [LF; LF] ++ b)).
Proof.
  intros Hadm Henc Hok Hct Hinc Hbody Hparts final. unfold final.
  rewrite (@sendMessage_admitted _ selectedAgent agent loading h message
             (FetchResolves r) Hadm Henc).
  cbn [fst snd]. unfold receive. rewrite Hok. cbn [negb fst].
  rewrite (http_error_parts r Hct Hinc Hbody Hparts).
  destruct (on_catch_last_message (fst (start h message)) (snd (start h message))
              (ThrowError (new_Error_full (JStr (a ++ Text.blank_line ++ b))))
              (start_last_message h message) eq_refl)
    as (m' & Hl & Hi & _ & Hst & _ & _ & Htxt & Herror).
  exists m'. repeat split; try assumption.
  rewrite Herror. f_equal. apply reported_text.
Qed.



End Failures.

(** ** The properties on concrete turns *)

#[local] Existing Instance Demo.env.

Ltac payload_line :=
  vm_compute;
  split; [reflexivity|]; split; [discriminate|]; split; [discriminate|];
  split; [discriminate|]; eexists; split; reflexivity.

(** Builds the derivation of [carries_text_deltas] for evaluated lines. *)
Ltac carried :=
  vm_compute;
  repeat first
    [ apply ctd_end
    | apply ctd_declare; [vm_compute; reflexivity|vm_compute]
    | apply ctd_delta; [payload_line|vm_compute]
    | apply ctd_no_payload; [vm_compute; reflexivity|vm_compute; tauto|vm_compute] ].

Ltac computed := vm_compute; reflexivity.

(** Closes a goal with an instance [H] of a theorem, both evaluated. *)
Ltac settle H := vm_compute in H; vm_compute; exact H.

(** C1 on a turn whose stream carries the deltas ['Hel'] and ['lo'] in two
    chunks: the display text is ['Hello']. *)
Lemma C1_text_deltas_concatenate_witness :
  snd (sendMessage Demo.agent false initial Demo.question
         (FetchResolves (Demo.streaming Demo.hello_chunks None)))
  = Success (lit "1700000000000_assistant") /\
  exists m,
    last_message
      (messages (fst (fst (sendMessage Demo.agent false initial Demo.question
                             (FetchResolves (Demo.streaming Demo.hello_chunks None))))))
      m /\
    id m = lit "1700000000000_assistant" /\ sender m = assistant /\
    status m = Some status_sent /\
    isStreaming m = Some false /\
    streamingStatus m = None /\
    text m = lit "Hello".
Proof.
  assert (Hadm : refused false Demo.question = false) by computed.
  assert (Henc : encodeURIComponent Demo.agent = inl Demo.agent) by computed.
  assert (Hcarries :
            carries_text_deltas []
              (flat_map split
                 (chunks (Demo.stream_of Demo.hello_chunks None)))
              [lit "Hel"; lit "lo"]) by carried.
  pose proof (@C1_text_deltas_concatenate Demo.env Demo.agent Demo.agent false initial
                Demo.question (Demo.streaming Demo.hello_chunks None)
                (Demo.stream_of Demo.hello_chunks None)
                [lit "Hel"; lit "lo"] Hadm Henc eq_refl eq_refl eq_refl Hcarries)
    as H.
  settle H.
Defined.

(** C2 on a stream with blank lines and a comment line between the event
    declaration and the second data line. *)
Lemma C2_framer_attribution_witness :
  last_declared_event []
    [lit "event: response.text.delta"; []; Demo.q "data: {'text':'Hel'}";
     []; lit ": keep-alive"; []]
  = lit "response.text.delta" /\
  process_lines Demo.fresh
    ([lit "event: response.text.delta"; []; Demo.q "data: {'text':'Hel'}";
      []; lit ": keep-alive"; []] ++ [Demo.q "data: {'text':'lo'}"])
  = process_data (lit "response.text.delta")
      (process_lines Demo.fresh
         [lit "event: response.text.delta"; []; Demo.q "data: {'text':'Hel'}";
          []; lit ": keep-alive"; []])
      (Demo.q "data: {'text':'lo'}") /\
  assistantText
    (fst (process_lines Demo.fresh
            ([lit "event: response.text.delta"; []; Demo.q "data: {'text':'Hel'}";
              []; lit ": keep-alive"; []] ++ [Demo.q "data: {'text':'lo'}"])))
  = lit "Hello".
Proof.
  split; [computed|]. split; [|computed].
  assert (Hdata : startsWith Text.data_prefix (Demo.q "data: {'text':'lo'}") = true)
    by computed.
  pose proof (proj1 (proj2 (proj2
                (C2_framer_attribution Demo.fresh
                   [lit "event: response.text.delta"; [];
                    Demo.q "data: {'text':'Hel'}"; []; lit ": keep-alive"; []]
                   (Demo.q "data: {'text':'lo'}")))) Hdata) as H.
  settle H.
Defined.

(** C3 on a conversation of fifty turns: the next send removes the pair of
    the first turn and appends its own. *)
Lemma C3_conversation_bounded_witness :
  List.length (messages Demo.full) = 100 /\
  List.length (messages (snd (start Demo.full Demo.question))) <= 100 /\
  messages (snd (start Demo.full Demo.question))
  = skipn 2 (messages Demo.full)
    ++ [userMessage (lit "1700000000150") Demo.question 1700000000151%N;
        assistantMessage (lit "1700000000150_assistant") 1700000000152%N] /\
  map (fun m => id m) (firstn 2 (messages Demo.full))
  = [lit "1700000000000_user"; lit "1700000000000_assistant"].
Proof.
  pose proof (@C3_conversation_bounded Demo.env Demo.full Demo.question
                (run_ops_reachable Demo.agent _)) as H.
  cbv zeta in H.
  destruct H as (_ & Hlen & [[Hroom _]|(Hfull & Heq & _)]).
  - exfalso. vm_compute in Hroom. lia.
  - split; [exact Hfull|]. split; [exact Hlen|]. split; [settle Heq|computed].
Defined.

(** C4 as the spec states it does not hold: a response with status 500
    whose JSON body is [{"errorParts":["A","B"]}] but whose [content-type]
    is not a JSON one ends the turn with the generic error text. *)
Lemma C4_counterexample :
  ok (Demo.error_response (Some (lit "text/plain"))) = false /\
  json_body (Demo.error_response (Some (lit "text/plain")))
  = JsonResolves
      (JObj [(lit "errorParts", JArr [JStr (lit "A"); JStr (lit "B")])]) /\
  map (fun m => error m)
    (messages (fst (fst (sendMessage Demo.agent false initial Demo.question
                           (FetchResolves
                              (Demo.error_response (Some (lit "text/plain"))))))))
  = [None; Some (JStr (lit "API Error: 500 Internal Server Error"))] /\
  JStr (number := Z) (lit "API Error: 500 Internal Server Error")
  <> JStr (lit "A" ++ [LF; LF] ++ lit "B").
Proof.
  split; [reflexivity|]. split; [reflexivity|].
  split; [computed|]. vm_compute. discriminate.
Qed.

(** C4 on a response with status 500 and a JSON content type. *)
Lemma C4_error_parts_with_json_content_type_witness :
  exists m,
    last_message
      (messages
         (fst (fst (sendMessage Demo.agent false initial Demo.question
                      (FetchResolves
                         (Demo.error_response
                            (Some (lit "application/json; charset=utf-8"))))))))
      m /\
    id m = lit "1700000000000_assistant" /\
    status m = Some status_error /\
    text m = [] /\
    error m = Some (JStr (lit "A" ++ [LF; LF] ++ lit "B")).
Proof.
  assert (Hadm : refused false Demo.question = false) by computed.
  assert (Henc : encodeURIComponent Demo.agent = inl Demo.agent) by computed.
  assert (Hinc : includes (lit "application/json")
                   (lit "application/json; charset=utf-8") = true) by computed.
  assert (Hparts :
            prop (JObj [(lit "errorParts",
                         JArr [JStr (number := Z) (lit "A"); JStr (lit "B")])])
              (lit "errorParts")
            = Some (JArr [JStr (lit "A"); JStr (lit "B")])) by computed.
  pose proof (@C4_error_parts_with_json_content_type Demo.env Demo.agent
                Demo.agent false initial Demo.question
                (Demo.error_response (Some (lit "application/json; charset=utf-8")))
                (lit "application/json; charset=utf-8")
                (JObj [(lit "errorParts", JArr [JStr (lit "A"); JStr (lit "B")])])
                (lit "A") (lit "B")
                Hadm Henc eq_refl eq_refl Hinc eq_refl Hparts) as H.
  settle H.
Defined.

(** C5 - An abort that lands while [response.json()] reads the body of a
    response with status 500: the turn is aborted, the inner [catch] of
    lines 94-105 takes the [AbortError] for a failed parse, and the turn ends
    with the HTTP error text, which has no cancellation notice. *)
Lemma C5_abort_while_reading_error_body :
  turn_aborted (FetchResolves Demo.error_response_cut) /\
  map (fun m => (status m, isStreaming m, text m, error m))
    (messages (fst (fst (sendMessage Demo.agent false initial Demo.question
                           (FetchResolves Demo.error_response_cut)))))
  = [(None, None, lit "How many orders?", None);
     (Some status_error, Some false, [],
      Some (JStr (lit "API Error: 500 Internal Server Error")))] /\
  includes Text.USER_CANCELED (lit "API Error: 500 Internal Server Error")
  = false.
Proof.
  split; [|split; computed].
  right. split; [reflexivity|].
  exists (lit "application/json"), Demo.abort_error.
  split; [reflexivity|]. split; [computed|]. split; [reflexivity|].
  eexists. split; [reflexivity|computed].
Qed.

(** The cancellation of a turn whose second read is rejected by the abort,
    after the delta ['Hel'] has arrived. *)
Lemma abort_reaching_catch_is_canceled_witness :
  exists m,
    last_message
      (messages
         (fst (fst (sendMessage Demo.agent false initial Demo.question
                      (FetchResolves
                         (Demo.streaming Demo.hello_chunks
                            (Some Demo.abort_error)))))))
      m /\
    id m = lit "1700000000000_assistant" /\ sender m = assistant /\
    status m = Some status_error /\
    isStreaming m = Some false /\
    text m = [] /\
    error m
    = Some (JStr (lit "PAWS right there! We have hit a snag :(" ++ [LF; LF]
                  ++ lit "User canceled the request")).
Proof.
  assert (Hadm : refused false Demo.question = false) by computed.
  assert (Henc : encodeURIComponent Demo.agent = inl Demo.agent) by computed.
  assert (Habort : abort_reaches_catch
                     (FetchResolves
                        (Demo.streaming Demo.hello_chunks (Some Demo.abort_error)))).
  { split; [reflexivity|].
    exists (Demo.stream_of Demo.hello_chunks (Some Demo.abort_error)),
      Demo.abort_error.
    split; [reflexivity|]. split; [reflexivity|].
    eexists. split; [reflexivity|computed]. }
  pose proof (proj1 (@abort_reaching_catch_is_canceled Demo.env Demo.agent Demo.agent false
                       initial Demo.question
                       (FetchResolves
                          (Demo.streaming Demo.hello_chunks
                             (Some Demo.abort_error)))
                       Hadm Henc Habort)) as H.
  settle H.
Defined.



(** C7 on a turn that receives the status ['Planning'] twice and two tool
    results. *)
Lemma C7_steps_never_repeat_witness :
  thinkingSteps (Demo.reply (snd Demo.midway))
  = Some [JStr (lit "Planning"); JStr (lit "Processing results...")] /\
  pairwise_distinct (or_empty (thinkingSteps (Demo.reply (snd Demo.midway)))).
Proof.
  split; [computed|].
  refine (proj1 (@C7_steps_never_repeat Demo.env (snd Demo.midway)
                   (Demo.reply (snd Demo.midway)) _ _)).
  - apply read_loop_reachable. apply reach_start. apply reach_initial.
  - vm_compute. right. left. reflexivity.
Defined.


(** C9 on a turn that loses its connection after steps, SQL queries and an
    annotation have arrived. *)
Lemma C9_failure_keeps_collections_witness :
  exists msg',
    nth_error (messages (on_catch (fst Demo.midway) (snd Demo.midway)
                           Demo.fetch_failure)) 1 = Some msg' /\
    text msg' = [] /\
    status msg' = Some status_error /\
    thinkingSteps msg'
    = Some [JStr (lit "Planning"); JStr (lit "Processing results...")] /\
    option_map (@List.length _) (timeline msg') = Some 6 /\
    option_map (@List.length _) (sqlQueries msg') = Some 1 /\
    option_map (@List.length _) (annotations msg') = Some 1.
Proof.
  assert (Hnth : nth_error (messages (snd Demo.midway)) 1
                 = Some (Demo.reply (snd Demo.midway))) by computed.
  assert (Hid : id (Demo.reply (snd Demo.midway))
                = assistantMessageId (fst Demo.midway)) by computed.
  destruct (@C9_failure_keeps_collections Demo.env (fst Demo.midway)
              (snd Demo.midway) Demo.fetch_failure 1
              (Demo.reply (snd Demo.midway)) Hnth)
    as (_ & msg' & Hmsg & _ & Hsame).
  destruct (Hsame Hid)
    as (Htext & Hstatus & _ & _ & Htl & Hsteps & _ & Hsql & _ & Hann & _).
  exists msg'. split; [exact Hmsg|]. split; [exact Htext|].
  split; [exact Hstatus|].
  rewrite Hsteps, Htl, Hsql, Hann.
  repeat split; computed.
Defined.

(** C10 on a data line cut inside its JSON payload: both fragments are
    dropped and the text is lost, where the uncut line gives ['Hello']. *)
Lemma C10_no_carry_over_witness :
  read_loop Demo.fresh
    [Demo.cut_before ++ LF :: Demo.cut_a; Demo.cut_b ++ LF :: Demo.cut_after]
  = process_lines Demo.fresh
      (split Demo.cut_before ++ [Demo.cut_a] ++ [Demo.cut_b]
       ++ split Demo.cut_after) /\
  read_loop Demo.fresh
    [(Demo.cut_before ++ LF :: Demo.cut_a) ++ Demo.cut_b ++ LF :: Demo.cut_after]
  = process_lines Demo.fresh
      (split Demo.cut_before ++ [Demo.cut_a ++ Demo.cut_b]
       ++ split Demo.cut_after) /\
  assistantText
    (fst (read_loop Demo.fresh
            [Demo.cut_before ++ LF :: Demo.cut_a;
             Demo.cut_b ++ LF :: Demo.cut_after])) = [] /\
  assistantText
    (fst (read_loop Demo.fresh
            [(Demo.cut_before ++ LF :: Demo.cut_a)
             ++ Demo.cut_b ++ LF :: Demo.cut_after])) = lit "Hello".
Proof.
  assert (Ha : ~ In LF Demo.cut_a).
  { vm_compute. intros H. repeat destruct H as [H|H]; try discriminate H. exact H. }
  assert (Hb : ~ In LF Demo.cut_b).
  { vm_compute. intros H. repeat destruct H as [H|H]; try discriminate H. exact H. }
  destruct (@C10_no_carry_over Demo.env Demo.fresh
              (Demo.cut_before ++ LF :: Demo.cut_a)
              (Demo.cut_b ++ LF :: Demo.cut_after))
    as (_ & _ & _ & _ & Hcut).
  destruct (Hcut Demo.cut_before Demo.cut_a Demo.cut_b Demo.cut_after
              Ha Hb eq_refl eq_refl) as [Htwo Hone].
  split; [exact Htwo|]. split; [exact Hone|].
  split; computed.
Defined.

(** ** More on strings *)

Lemma trimStart_nil_iff (s : jsstring) :
  trimStart s = [] <-> forallb is_whitespace s = true.
Proof.
  induction s as [|c s IH]; simpl; [tauto|].
  destruct (is_whitespace c); simpl; [exact IH|].
  split; discriminate.
Qed.

Lemma trimStart_length (s : jsstring) : List.length (trimStart s) <= List.length s.
Proof.
  induction s as [|c s IH]; simpl; [lia|].
  destruct (is_whitespace c); simpl; lia.
Qed.

(** What [trimStart] removes is white space. *)
Lemma trimStart_split (s : jsstring) :
  exists spaces, s = spaces ++ trimStart s /\ forallb is_whitespace spaces = true.
Proof.
  induction s as [|c s (spaces & Hs & Hall)]; simpl; [now exists []|].
  destruct (is_whitespace c) eqn:Hc; [|now exists []].
  exists (c :: spaces). simpl. rewrite Hc, Hall. split; [congruence|reflexivity].
Qed.

Lemma trimStart_fixed (s : jsstring) :
  match s with [] => True | c :: _ => is_whitespace c = false end ->
  trimStart s = s.
Proof. destruct s as [|c s]; simpl; [reflexivity|]. now intros ->. Qed.

Lemma trimStart_starts (s : jsstring) :
  match trimStart s with [] => True | c :: _ => is_whitespace c = false end.
Proof.
  induction s as [|c s IH]; simpl; [exact I|].
  destruct (is_whitespace c) eqn:Hc; [exact IH|exact Hc].
Qed.

Lemma trim_length (s : jsstring) : List.length (trim s) <= List.length s.
Proof.
  unfold trim, trimEnd. rewrite length_rev.
  etransitivity; [apply trimStart_length|]. rewrite length_rev.
  apply trimStart_length.
Qed.

(** [trim] gives the empty string exactly on white space. *)
Lemma trim_nil_iff (s : jsstring) :
  trim s = [] <-> forallb is_whitespace s = true.
Proof.
  unfold trim, trimEnd. split.
  - intros H.
    assert (Hrev : trimStart (rev (trimStart s)) = []).
    { destruct (trimStart (rev (trimStart s))); [reflexivity|].
      apply (f_equal (@List.length N)) in H. rewrite length_rev in H.
      discriminate H. }
    apply trimStart_nil_iff in Hrev.
    pose proof (trimStart_starts s) as Hstart.
    destruct (trimStart s) as [|c u] eqn:Hu; [now apply trimStart_nil_iff|].
    rewrite forallb_forall in Hrev.
    rewrite (Hrev c) in Hstart; [discriminate|].
    apply -> in_rev. now left.
  - intros H. apply trimStart_nil_iff in H. now rewrite H.
Qed.

(** [s.trim().trim()] is [s.trim()]. *)
Lemma trim_idempotent (s : jsstring) : trim (trim s) = trim s.
Proof.
  unfold trim at 2. unfold trimEnd.
  set (u := trimStart s).
  destruct (trimStart_split (rev u)) as (spaces & Hsplit & _).
  set (v := trimStart (rev u)) in *.
  assert (Hu : u = rev v ++ rev spaces).
  { rewrite <- rev_app_distr, <- Hsplit. now rewrite rev_involutive. }
  assert (Hstart : trimStart (rev v) = rev v).
  { apply trimStart_fixed. pose proof (trimStart_starts s) as Hs.
    fold u in Hs. rewrite Hu in Hs. now destruct (rev v). }
  unfold trim, trimEnd. rewrite Hstart, rev_involutive.
  unfold v at 1. rewrite (trimStart_fixed _ (trimStart_starts (rev u))).
  reflexivity.
Qed.

Lemma startsWith_app (p s : jsstring) : startsWith p (p ++ s) = true.
Proof.
  induction p as [|c p IH]; simpl; [reflexivity|].
  now rewrite N.eqb_refl.
Qed.

(** A text includes each of its parts. *)
Lemma includes_app (needle before after : jsstring) :
  includes needle (before ++ needle ++ after) = true.
Proof.
  induction before as [|c before IH]; simpl.
  - destruct (needle ++ after) eqn:Hna; simpl; rewrite <- Hna;
      now rewrite startsWith_app.
  - rewrite IH. apply orb_true_r.
Qed.

Lemma endsWith_app (suffix s : jsstring) : endsWith suffix (s ++ suffix) = true.
Proof. unfold endsWith. rewrite rev_app_distr. apply startsWith_app. Qed.

Lemma split_blank_nonempty (s : jsstring) : split_blank s <> [].
Proof.
  destruct s as [|c [|d s]]; simpl; try discriminate.
  - destruct (N.eqb c LF && N.eqb d LF); [discriminate|].
    destruct (match s with [] => _ | _ => _ end); discriminate.
Qed.

Lemma join_push (sep : jsstring) (c : N) (part : jsstring) (rest : list jsstring) :
  Str.join sep ((c :: part) :: rest) = c :: Str.join sep (part :: rest).
Proof. now destruct rest. Qed.

Lemma join_cons (sep part : jsstring) (rest : list jsstring) :
  rest <> [] -> Str.join sep (part :: rest) = part ++ sep ++ Str.join sep rest.
Proof. now destruct rest. Qed.

(** Joining what ['\n\n'] splits gives the text back. *)
Lemma join_split_blank (s : jsstring) :
  Str.join Text.blank_line (split_blank s) = s.
Proof.
  assert (H : forall n s, List.length s <= n ->
                          Str.join Text.blank_line (split_blank s) = s).
  { clear s. induction n as [|n IH]; intros s Hn.
    - destruct s; [reflexivity|simpl in Hn; lia].
    - destruct s as [|c s']; [reflexivity|].
      assert (Hpush : Str.join Text.blank_line
                        (match split_blank s' with
                         | part :: rest => (c :: part) :: rest
                         | [] => [[c]]
                         end) = c :: s').
      { pose proof (IH s' ltac:(simpl in Hn; lia)) as Hs'.
        destruct (split_blank s') as [|part rest] eqn:Hsp;
          [now apply split_blank_nonempty in Hsp|].
        now rewrite join_push, Hs'. }
      destruct s' as [|d s'']; [exact Hpush|].
      change (split_blank (c :: d :: s''))
        with (if N.eqb c LF && N.eqb d LF then [] :: split_blank s''
              else match split_blank (d :: s'') with
                   | part :: rest => (c :: part) :: rest
                   | [] => [[c]]
                   end).
      destruct (N.eqb_spec c LF) as [->|Hc]; [|exact Hpush].
      destruct (N.eqb_spec d LF) as [->|Hd]; [|exact Hpush].
      cbn [andb]. rewrite join_cons by apply split_blank_nonempty.
      rewrite (IH s'') by (simpl in Hn; lia). reflexivity. }
  exact (H (List.length s) s (le_n _)).
Qed.

Lemma split_blank_one (part : jsstring) :
  ~ In LF part -> split_blank part = [part].
Proof.
  induction part as [|c part IH]; intros Hno; [reflexivity|].
  assert (Hc : N.eqb c LF = false).
  { apply N.eqb_neq. intros ->. apply Hno. now left. }
  assert (Hrest : split_blank part = [part]).
  { apply IH. intros Hin. apply Hno. now right. }
  destruct part as [|d part]; [reflexivity|].
  change (split_blank (c :: d :: part))
    with (if N.eqb c LF && N.eqb d LF then [] :: split_blank part
          else match split_blank (d :: part) with
               | p :: rest => (c :: p) :: rest
               | [] => [[c]]
               end).
  now rewrite Hc, Hrest.
Qed.

Lemma split_blank_app (part rest : jsstring) :
  ~ In LF part ->
  split_blank (part ++ Text.blank_line ++ rest) = part :: split_blank rest.
Proof.
  induction part as [|c part IH]; intros Hno.
  - reflexivity.
  - assert (Hc : N.eqb c LF = false).
    { apply N.eqb_neq. intros ->. apply Hno. now left. }
    assert (Hrest : split_blank (part ++ Text.blank_line ++ rest)
                    = part :: split_blank rest).
    { apply IH. intros Hin. apply Hno. now right. }
    cbn [app].
    destruct (part ++ Text.blank_line ++ rest) as [|d tail] eqn:Htail;
      [destruct part; discriminate Htail|].
    change (split_blank (c :: d :: tail))
      with (if N.eqb c LF && N.eqb d LF then [] :: split_blank tail
            else match split_blank (d :: tail) with
                 | p :: others => (c :: p) :: others
                 | [] => [[c]]
                 end).
    now rewrite Hc, Hrest.
Qed.

(** Splitting what was joined from parts without line feed gives the parts
    back. *)
Lemma split_blank_join (part : jsstring) (parts : list jsstring) :
  Forall (fun p => ~ In LF p) (part :: parts) ->
  split_blank (Str.join Text.blank_line (part :: parts)) = part :: parts.
Proof.
  revert part; induction parts as [|next parts IH]; intros part Hall.
  - simpl. apply split_blank_one. now inversion Hall.
  - inversion Hall as [|? ? Hpart Hrest]; subst.
    rewrite join_cons by discriminate.
    rewrite split_blank_app by exact Hpart.
    now rewrite IH.
Qed.

Section AroundProperties.

Context {E : Env}.

(** X1 - The error box shows the whole error: the header, and when the
    error has a blank line, the blank line and the rest, are the error
    text. *)
Theorem error_box_is_whole_error (error : jsstring) :
  error
  = match tl (split_blank error) with
    | [] => error_header error
    | _ :: _ => error_header error ++ Text.blank_line ++ error_rest error
    end.
Proof.
  unfold error_header, error_rest.
  pose proof (join_split_blank error) as Hjoin.
  destruct (split_blank error) as [|header rest] eqn:Hsplit;
    [now apply split_blank_nonempty in Hsplit|].
  cbn [hd tl]. destruct rest as [|next rest]; [exact (eq_sym Hjoin)|].
  rewrite <- Hjoin at 1. now rewrite join_cons by discriminate.
Qed.

(** X2 - Error parts in the error box: for the error text the hook joins
    from an [errorParts] array of strings without line feed, the header of
    the box is the first part and the rest is the other parts joined by
    blank lines; the same holds for the cancellation text, whose header is
    the fixed header and whose rest is the cancellation notice. *)
Theorem error_box_of_error_parts (part : jsstring) (parts : list jsstring) :
  Forall (fun p => ~ In LF p) (part :: parts) ->
  error_header (join_values Text.blank_line (map JStr (part :: parts))) = part /\
  error_rest (join_values Text.blank_line (map JStr (part :: parts)))
  = Str.join Text.blank_line parts /\
  error_header canceled_text = Text.ERROR_PREFIX /\
  error_rest canceled_text = Text.USER_CANCELED.
Proof.
  intros Hall.
  assert (Hjoin : join_values Text.blank_line (map JStr (part :: parts))
                  = Str.join Text.blank_line (part :: parts)).
  { unfold join_values. f_equal. rewrite map_map. apply map_id. }
  unfold error_header, error_rest.
  rewrite Hjoin, (split_blank_join Hall).
  repeat split; reflexivity.
Qed.


End AroundProperties.

Section Subtitle.

Context {E : Env}.

(** X4 - Response subtitle: the subtitle of the empty text is empty; the
    subtitle of any other text is not empty, has at most 121 code units
    (83 when the first sentence is cut), and ends with [':'] or with
    ['...']. *)
Theorem subtitle_is_short_and_closed (messageText : jsstring) :
  getResponseSubtitle [] = [] /\
  (messageText <> [] ->
   getResponseSubtitle messageText <> [] /\
   List.length (getResponseSubtitle messageText) <= 121 /\
   (endsWith (lit ":") (getResponseSubtitle messageText) = true
    \/ endsWith (lit "...") (getResponseSubtitle messageText) = true) /\
   (120 < List.length (trim (first_sentence (trim messageText))) ->
    List.length (getResponseSubtitle messageText) <= 83 /\
    endsWith (lit "...") (getResponseSubtitle messageText) = true)).
Proof.
  split; [reflexivity|]. intros Hne.
  destruct messageText as [|c0 rest0]; [contradiction|].
  unfold getResponseSubtitle. cbv beta iota zeta.
  generalize (firstn 10 (split_spaces [] (trim (c0 :: rest0)))) as words.
  generalize (trim (first_sentence (trim (c0 :: rest0)))) as firstSentence.
  intros firstSentence words.
  assert (Hdots : forall summary : jsstring,
             summary ++ lit "..." <> [] /\
             List.length (summary ++ lit "...") = List.length summary + 3 /\
             endsWith (lit "...") (summary ++ lit "...") = true).
  { intros summary. split; [|split].
    - intros H. apply (f_equal (@List.length N)) in H.
      rewrite length_app in H. simpl in H. lia.
    - now rewrite length_app.
    - apply endsWith_app. }
  assert (Hfixed : lit "Response:" <> [] /\
                   List.length (lit "Response:") <= 121 /\
                   endsWith (lit ":") (lit "Response:") = true).
  { split; [discriminate|]. split; [|reflexivity].
    change (List.length (lit "Response:")) with 9. lia. }
  destruct (Nat.ltb_spec 10 (List.length firstSentence)) as [Hlong|Hshort].
  - destruct (Nat.ltb_spec 120 (List.length firstSentence)) as [Hcut|Hfit].
    + set (truncated := trim (substring0 80 firstSentence)).
      assert (Htr : List.length truncated <= 80).
      { unfold truncated, substring0.
        etransitivity; [apply trim_length|]. apply firstn_le_length. }
      generalize dependent truncated. intros truncated Htr.
      set (summary := match lastIndexOf 32 truncated with
                      | Some lastSpace =>
                          if 30 <? lastSpace then substring0 lastSpace truncated
                          else truncated
                      | None => truncated
                      end).
      assert (Hsum : List.length summary <= 80).
      { unfold summary.
        destruct (lastIndexOf 32 truncated) as [lastSpace|]; [|exact Htr].
        destruct (30 <? lastSpace); [|exact Htr].
        unfold substring0. rewrite length_firstn. lia. }
      destruct (Hdots summary) as (Hn & Hl & He).
      split; [exact Hn|]. split; [lia|]. split; [now right|].
      intros _. split; [lia|exact He].
    + destruct (endsWith (lit ":") firstSentence) eqn:Hcolon.
      * split; [intros H; rewrite H in Hlong; cbn in Hlong; lia|].
        split; [lia|]. split; [now left|]. intros H. lia.
      * assert (Hlen : List.length (firstSentence ++ lit ":")
                       = List.length firstSentence + 1)
          by now rewrite length_app.
        split; [intros H; rewrite H in Hlen; cbn in Hlen; lia|].
        split; [lia|]. split; [left; apply endsWith_app|]. intros H. lia.
  - assert (Hno : ~ 120 < List.length firstSentence) by lia.
    destruct (3 <=? List.length words); cbn [andb].
    + destruct (Nat.ltb_spec (List.length (Str.join (lit " ") words)) 80)
        as [Hlt|Hge].
      * destruct (Hdots (Str.join (lit " ") words)) as (Hn & Hl & He).
        split; [exact Hn|]. split; [lia|]. split; [now right|].
        intros H. contradiction.
      * destruct Hfixed as (Hn & Hl & He).
        split; [exact Hn|]. split; [exact Hl|]. split; [now left|].
        intros H. contradiction.
    + destruct Hfixed as (Hn & Hl & He).
      split; [exact Hn|]. split; [exact Hl|]. split; [now left|].
      intros H. contradiction.
Qed.

End Subtitle.

(** ** The hook: what a turn changes and how it ends *)

Ltac break_matches H :=
  repeat match type of H with
         | context [match ?x with _ => _ end] => destruct x eqn:?
         end.

Section HookProperties.

Context {E : Env}.

Lemma extends_refl {A : Type} (l : option (list A)) : extends l l.
Proof. exists []. now rewrite app_nil_r. Qed.

Lemma extends_trans {A : Type} (a b c : option (list A)) :
  extends a b -> extends b c -> extends a c.
Proof.
  intros [m1 H1] [m2 H2]. exists (m1 ++ m2).
  now rewrite H2, H1, app_assoc.
Qed.

Lemma extends_snoc {A : Type} (l : option (list A)) (more : list A) :
  extends l (Some (or_empty l ++ more)).
Proof. now exists more. Qed.

Lemma grown_refl (m : ChatMessage) : grown m m.
Proof. unfold grown. repeat split; try apply extends_refl. lia. Qed.

Lemma grown_trans (a b c : ChatMessage) : grown a b -> grown b c -> grown a c.
Proof.
  unfold grown.
  intros (I1 & S1 & T1 & A1 & B1 & C1 & D1 & E1 & L1)
         (I2 & S2 & T2 & A2 & B2 & C2 & D2 & E2 & L2).
  repeat split; try congruence; try (eapply extends_trans; eassumption). lia.
Qed.

Lemma length_replace_last {A : Type} (l : list A) (x : A) :
  l <> [] -> List.length (removelast l ++ [x]) = List.length l.
Proof.
  intros Hl. rewrite (app_removelast_last x Hl) at 2.
  now rewrite !length_app.
Qed.

(** Every function the hook maps over a message keeps its identity and
    only adds to its collections. *)
Lemma updater_grown (f : ChatMessage -> ChatMessage) (m : ChatMessage) :
  updater f -> grown m (f m).
Proof.
  intros Hf. unfold grown.
  destruct Hf; cbn [id sender timestamp timeline thinkingSteps sqlQueries
                    charts annotations thinkingTexts
                    upd_text_delta upd_status upd_tool_result upd_thinking
                    upd_thinking_delta upd_chart upd_annotation upd_complete
                    upd_failed];
    repeat split;
    try apply extends_refl; try apply extends_snoc; try lia.
  - unfold add_step. destruct (array_includes _ _);
      [apply extends_refl|apply extends_snoc].
  - unfold add_step. destruct (array_includes _ _);
      [apply extends_refl|apply extends_snoc].
  - destruct (truthy_sql sqlQuery); [apply extends_snoc|apply extends_refl].
  - cbn [or_empty]. rewrite length_app. simpl. lia.
  - destruct (or_empty (thinkingTexts m));
      [apply extends_snoc|apply extends_refl].
  - destruct (or_empty (thinkingTexts m)) as [|v l] eqn:Hl; cbn [or_empty].
    + simpl. lia.
    + rewrite length_replace_last by discriminate. lia.
Qed.

Lemma patch_same (aid : jsstring) (msgs : list ChatMessage) :
  patch aid (fun m => m) msgs = msgs.
Proof.
  unfold patch. induction msgs as [|m msgs IH]; [reflexivity|].
  simpl. rewrite IH. now destruct (Str.eqb (id m) aid).
Qed.

Lemma patch_patch (aid : jsstring) (f g : ChatMessage -> ChatMessage)
    (msgs : list ChatMessage) :
  (forall m, id (f m) = id m) ->
  patch aid g (patch aid f msgs) = patch aid (fun m => g (f m)) msgs.
Proof.
  intros Hf. unfold patch. rewrite map_map. apply map_ext. intros m.
  destruct (Str.eqb (id m) aid) eqn:Hm; [|now rewrite Hm].
  now rewrite Hf, Hm.
Qed.

Lemma own_patch_refl (aid : jsstring) (msgs : list ChatMessage) :
  own_patch aid msgs msgs.
Proof.
  exists (fun m => m). split; [apply grown_refl|now rewrite patch_same].
Qed.

Lemma own_patch_trans (aid : jsstring) (a b c : list ChatMessage) :
  own_patch aid a b -> own_patch aid b c -> own_patch aid a c.
Proof.
  intros (F & HF & ->) (G & HG & ->). exists (fun m => G (F m)). split.
  - intros m. eapply grown_trans; [apply HF|apply HG].
  - apply patch_patch. intros m. apply HF.
Qed.

Lemma own_patch_updater (aid : jsstring) (f : ChatMessage -> ChatMessage)
    (msgs : list ChatMessage) :
  updater f -> own_patch aid msgs (patch aid f msgs).
Proof.
  intros Hf. exists f. split; [|reflexivity].
  intros m. now apply updater_grown.
Qed.

(** One payload patches the message of its own turn, if any. *)
Lemma dispatch_own (ev : jsstring) (data : value) (t t' : turn) (h h' : HookState) :
  dispatch ev data t h = Some (t', h') ->
  own_patch (assistantMessageId t) (messages h) (messages h')
  /\ clock_reads h <= clock_reads h'.
Proof.
  intros H. unfold dispatch in H.
  destruct (cond_prop ev Text.text_delta data "text") as [[txt|]|] eqn:Hdelta;
    [|idtac|discriminate].
  { injection H as <- <-. cbn. split; [|lia].
    apply own_patch_updater. constructor. }
  assert (Hdone : forall f : N -> ChatMessage -> ChatMessage,
             (forall now, updater (f now)) ->
             own_patch (assistantMessageId t) (messages h)
               (messages (setMessages_dated (assistantMessageId t) f h))).
  { intros f Hf. apply own_patch_updater. apply Hf. }
  break_matches H; try discriminate; injection H as <- <-;
    (split; [|cbn; lia]);
    try apply own_patch_refl;
    apply Hdone; intros now; constructor.
Qed.

Lemma process_line_own (st : turn * HookState) (line : jsstring) :
  own_patch (assistantMessageId (fst st)) (messages (snd st))
    (messages (snd (process_line st line)))
  /\ clock_reads (snd st) <= clock_reads (snd (process_line st line)).
Proof.
  unfold process_line.
  destruct (startsWith Text.event_prefix line);
    [split; [apply own_patch_refl|cbn; lia]|].
  destruct (startsWith Text.data_prefix line);
    [|split; [apply own_patch_refl|lia]].
  destruct st as [t h]. unfold process_data.
  destruct (Str.eqb _ [] || Str.eqb _ Text.DONE);
    [split; [apply own_patch_refl|lia]|].
  destruct (JSON_parse _) as [data|]; [|split; [apply own_patch_refl|lia]].
  destruct (dispatch (currentEvent (fst (t, h))) data t h) as [[t' h']|] eqn:Hd;
    [|split; [apply own_patch_refl|lia]].
  now apply dispatch_own in Hd.
Qed.

Lemma process_line_id (st : turn * HookState) (line : jsstring) :
  assistantMessageId (fst (process_line st line)) = assistantMessageId (fst st).
Proof.
  unfold process_line.
  destruct (startsWith Text.event_prefix line); [reflexivity|].
  destruct (startsWith Text.data_prefix line); [|reflexivity].
  apply process_data_effect.
Qed.

Lemma process_lines_own (lines : list jsstring) (st : turn * HookState) :
  assistantMessageId (fst (process_lines st lines)) = assistantMessageId (fst st)
  /\ own_patch (assistantMessageId (fst st)) (messages (snd st))
       (messages (snd (process_lines st lines)))
  /\ clock_reads (snd st) <= clock_reads (snd (process_lines st lines)).
Proof.
  revert st; induction lines as [|line lines IH]; intros st.
  - simpl. split; [reflexivity|]. split; [apply own_patch_refl|lia].
  - simpl. destruct (IH (process_line st line)) as (Hid & Hown & Hclock).
    rewrite process_line_id in Hid, Hown.
    destruct (process_line_own st line) as [Hown1 Hclock1].
    split; [exact Hid|]. split; [|lia].
    eapply own_patch_trans; eassumption.
Qed.

Lemma receive_own (t : turn) (h : HookState) (net : fetch_result) :
  own_patch (assistantMessageId t) (messages h) (messages (fst (receive t h net))).
Proof.
  assert (Hcatch : forall t' h' err,
             assistantMessageId t' = assistantMessageId t ->
             own_patch (assistantMessageId t) (messages h) (messages h') ->
             own_patch (assistantMessageId t) (messages h)
               (messages (on_catch t' h' err))).
  { intros t' h' err Hid Hown. eapply own_patch_trans; [exact Hown|].
    unfold on_catch, setMessages, with_messages. cbn [messages]. rewrite Hid.
    apply own_patch_updater. constructor. }
  unfold receive. destruct net as [err|r].
  - cbn [fst]. apply Hcatch; [reflexivity|apply own_patch_refl].
  - destruct (ok r); cbn [negb];
      [|cbn [fst]; apply Hcatch; [reflexivity|apply own_patch_refl]].
    destruct (body r) as [stream|];
      [|cbn [fst]; apply Hcatch; [reflexivity|apply own_patch_refl]].
    pose proof (process_lines_own (flat_map split (chunks stream)) (t, h))
      as (Hid & Hown & _).
    rewrite <- read_loop_lines in Hid, Hown. cbn [fst snd] in Hid, Hown.
    destruct (read_loop (t, h) (chunks stream)) as [t' h'].
    cbn [fst snd] in Hid, Hown.
    destruct (read_failure stream) as [err|]; cbn [fst].
    + now apply Hcatch.
    + eapply own_patch_trans; [exact Hown|].
      unfold complete, setMessages, with_messages. cbn [messages]. rewrite Hid.
      apply own_patch_updater. constructor.
Qed.

(** The whole of an admitted call after its start is one patch of the
    message of the turn. *)
Lemma sendMessage_own (selectedAgent : jsstring) (loading : bool)
    (h : HookState)
    (message : jsstring) (net : fetch_result) :
  refused loading message = false ->
  own_patch (assistantMessageId (fst (start h message)))
    (messages (snd (start h message)))
    (messages (fst (fst (sendMessage selectedAgent loading h message net)))).
Proof.
  intros Hadm. unfold sendMessage. rewrite Hadm.
  destruct (start h message) as [t h1] eqn:Hstart. cbn [fst snd].
  destruct (encodeURIComponent selectedAgent) as [agent|msg].
  - pose proof (receive_own t h1 net) as Hown.
    destruct (receive t h1 net) as [h2 result]. exact Hown.
  - cbn [fst finally messages].
    unfold on_catch, setMessages, with_messages. cbn [messages].
    apply own_patch_updater. constructor.
Qed.

Lemma own_patch_nth (aid : jsstring) (msgs msgs' : list ChatMessage) :
  own_patch aid msgs msgs' ->
  List.length msgs' = List.length msgs /\
  forall i m, nth_error msgs i = Some m ->
    exists m', nth_error msgs' i = Some m' /\ grown m m'
               /\ (id m <> aid -> m' = m).
Proof.
  intros (F & HF & ->). split; [apply patch_length|].
  intros i m Hi. unfold patch. rewrite nth_error_map, Hi. cbn [option_map].
  destruct (Str.eqb (id m) aid) eqn:Hm.
  - exists (F m). split; [reflexivity|]. split; [apply HF|].
    apply eqb_eq in Hm. intros Hne. now destruct Hne.
  - exists m. split; [reflexivity|]. split; [apply grown_refl|reflexivity].
Qed.

(** X5 - What a turn touches: from its start to its end, whatever the
    network does, an admitted call keeps the length and the order of the
    conversation; every message keeps its id, sender and timestamp, its
    timeline, steps, queries, charts and annotations only get entries added
    at their end and it loses no reasoning buffer; and a message whose id is
    not the id of the turn is left exactly as it was. *)
Theorem turn_touches_only_its_message (selectedAgent : jsstring)
    (loading : bool)
    (h : HookState) (message : jsstring) (net : fetch_result) :
  refused loading message = false ->
  let started := messages (snd (start h message)) in
  let final := messages (fst (fst (sendMessage selectedAgent loading h message net))) in
  List.length final = List.length started /\
  forall i m, nth_error started i = Some m ->
    exists m', nth_error final i = Some m' /\ grown m m'
               /\ (id m <> assistantMessageId (fst (start h message)) -> m' = m).
Proof.
  intros Hadm. cbv zeta. apply own_patch_nth.
  now apply sendMessage_own.
Qed.

Lemma suffixes_differ (base base' : jsstring) :
  base ++ lit "_user" <> base' ++ lit "_assistant".
Proof.
  intros H. apply (f_equal (@rev N)) in H. rewrite !rev_app_distr in H.
  discriminate H.
Qed.

(** The pair of the turn ends the conversation after the start. *)
Lemma start_last_two (h : HookState) (message : jsstring) :
  exists older,
    messages (snd (start h message))
    = older ++ [userMessage (of_N (clock (clock_reads h))) message
                  (clock (S (clock_reads h)));
                assistantMessage (of_N (clock (clock_reads h)) ++ lit "_assistant")
                  (clock (S (S (clock_reads h))))].
Proof.
  cbn [start snd messages]. unfold append_pair, slice_last.
  set (u := userMessage _ _ _). set (a := assistantMessage _ _).
  destruct (MAX_MESSAGES <? _); [|now eexists].
  rewrite skipn_app.
  destruct (Nat.le_gt_cases (List.length (messages h ++ [u; a]) - MAX_MESSAGES)
              (List.length (messages h))) as [Hle|Hgt].
  - replace (_ - _ - _) with 0 by lia. simpl skipn at 2. now eexists.
  - rewrite length_app in Hgt. simpl in Hgt. unfold MAX_MESSAGES in Hgt.
    rewrite skipn_all2 by lia.
    replace (List.length (messages h ++ [u; a]) - MAX_MESSAGES
             - List.length (messages h)) with 0
      by (rewrite length_app; simpl; unfold MAX_MESSAGES; lia).
    now exists [].
Qed.

(** How [receive] ends, by what the [try] block throws. *)
Lemma receive_end (t : turn) (h : HookState) (net : fetch_result)
    (m : ChatMessage) :
  last_message (messages h) m -> id m = assistantMessageId t ->
  exists m',
    last_message (messages (fst (receive t h net))) m' /\
    id m' = id m /\ sender m' = sender m /\
    isStreaming m' = Some false /\ streamingStatus m' = None /\
    match thrown_by net with
    | Some err =>
        snd (receive t h net) = Failure err /\
        status m' = Some status_error /\ text m' = [] /\
        error m' = Some (error_text (classify err))
    | None =>
        snd (receive t h net) = Success (assistantMessageId t) /\
        status m' = Some status_sent /\ text m' <> []
    end.
Proof.
  intros Hlast Hid.
  assert (Hcatch : forall t' h' m1 err,
             last_message (messages h') m1 -> id m1 = assistantMessageId t' ->
             id m1 = id m -> sender m1 = sender m ->
             exists m',
               last_message (messages (on_catch t' h' err)) m' /\
               id m' = id m /\ sender m' = sender m /\
               isStreaming m' = Some false /\ streamingStatus m' = None /\
               Failure err = Failure err /\
               status m' = Some status_error /\ text m' = [] /\
               error m' = Some (error_text (classify err))).
  { intros t' h' m1 err Hl1 Hid1 Hidm Hsm.
    destruct (@on_catch_last_message _ t' h' err m1 Hl1 Hid1)
      as (m' & Hl' & Hi' & Hs' & Hst & Hstr & Hss & Htx & Herr).
    exists m'. cbn [finally messages] in Hl'.
    repeat split; try assumption; congruence. }
  unfold receive, thrown_by. destruct net as [err|r].
  - cbn [fst snd]. now apply (Hcatch t h m).
  - destruct (ok r); cbn [negb]; [|cbn [fst snd]; now apply (Hcatch t h m)].
    destruct (body r) as [stream|]; [|cbn [fst snd]; now apply (Hcatch t h m)].
    rewrite read_loop_lines.
    destruct (process_lines_turn (flat_map split (chunks stream)) (t, h) Hlast)
      as (Haid & _ & m1 & Hl1 & Hid1 & Hs1).
    destruct (process_lines (t, h) (flat_map split (chunks stream))) as [t' h'].
    cbn [fst snd] in *.
    destruct (read_failure stream) as [err|]; cbn [fst snd].
    + apply (Hcatch t' h' m1); congruence.
    + exists (upd_complete (assistantText t') m1). split.
      * unfold complete, setMessages, with_messages. cbn [messages].
        pose proof (patch_last_message (assistantMessageId t')
                      (upd_complete (assistantText t')) Hl1) as H.
        replace (Str.eqb (id m1) (assistantMessageId t')) with true in H
          by (symmetry; apply eqb_eq; congruence).
        exact H.
      * cbn. repeat split; try congruence.
        unfold text_or_completed. now destruct (assistantText t').
Qed.

(** X6 - How a turn ends: whatever the network does, an admitted call
    leaves the hook idle (not loading, no cancellation handle), has issued
    at most one request, to the messages endpoint of the encoded agent with
    the trimmed text (none when the agent name cannot be encoded), and
    leaves its assistant message last in the conversation with the
    streaming flag off and no status label: either with status [sent], a
    text that is not empty and the id as result, or with status [error], an
    empty text, the error worded for what was thrown and the rejection as
    result. *)
Theorem admitted_turn_ends_settled (selectedAgent : jsstring) (loading : bool)
    (h : HookState)
    (message : jsstring) (net : fetch_result) :
  refused loading message = false ->
  let aid := of_N (clock (clock_reads h)) ++ lit "_assistant" in
  let final := fst (fst (sendMessage selectedAgent loading h message net)) in
  let requests := snd (fst (sendMessage selectedAgent loading h message net)) in
  let result := snd (sendMessage selectedAgent loading h message net) in
  isLoading final = false /\
  abortControllerRef final = None /\
  requests
  = match encodeURIComponent selectedAgent with
    | inl agent =>
        [{| endpoint := backendUrl ++ lit "/api/agents/" ++ agent
                        ++ lit "/messages";
            request_text := trim message |}]
    | inr _ => []
    end /\
  exists m,
    last_message (messages final) m /\
    id m = aid /\ sender m = assistant /\
    isStreaming m = Some false /\ streamingStatus m = None /\
    ((result = Success aid /\ status m = Some status_sent /\ text m <> [])
     \/ (exists err, result = Failure err /\
           status m = Some status_error /\ text m = [] /\
           error m = Some (error_text (classify err)))).
Proof.
  intros Hadm. cbv zeta.
  pose proof (start_last_message h message) as Hlast.
  unfold sendMessage. rewrite Hadm.
  destruct (start h message) as [t h1] eqn:Hstart.
  assert (Ht : assistantMessageId t = of_N (clock (clock_reads h)) ++ lit "_assistant").
  { unfold start in Hstart. now injection Hstart as <- _. }
  cbn [snd] in Hlast.
  destruct (encodeURIComponent selectedAgent) as [agent|msg].
  - destruct (@receive_end t h1 net _ Hlast (eq_sym Ht))
      as (m' & Hl & Hi & Hs & Hstr & Hss & Hend).
    destruct (receive t h1 net) as [h2 result]. cbn [fst snd] in *.
    repeat split.
    exists m'. repeat split; try assumption.
    destruct (thrown_by net) as [err|].
    + right. exists err. exact Hend.
    + left. now rewrite <- Ht.
  - cbn [fst snd]. repeat split.
    destruct (@on_catch_last_message _ t h1 (ThrowError (uri_error msg)) _
                Hlast (eq_sym Ht))
      as (m' & Hl & Hi & Hs & Hst & Hstr & Hss & Htx & Herr).
    exists m'. repeat split; try assumption.
    right. now exists (ThrowError (uri_error msg)).
Qed.

(** The error a failed call shows, by what its [try] block threw. *)
Lemma sendMessage_thrown (selectedAgent agent : jsstring) (loading : bool)
    (h : HookState)
    (message : jsstring) (net : fetch_result) (err : thrown) :
  refused loading message = false ->
  encodeURIComponent selectedAgent = inl agent ->
  thrown_by net = Some err ->
  snd (sendMessage selectedAgent loading h message net) = Failure err /\
  exists m,
    last_message (messages (fst (fst (sendMessage selectedAgent loading h message net)))) m /\
    id m = of_N (clock (clock_reads h)) ++ lit "_assistant" /\
    status m = Some status_error /\
    error m = Some (error_text (classify err)).
Proof.
  intros Hadm Henc Hthrown.
  rewrite (@sendMessage_admitted _ selectedAgent agent loading h message net Hadm Henc).
  cbn [fst snd].
  pose proof (start_last_message h message) as Hlast.
  destruct (@receive_end (fst (start h message)) (snd (start h message)) net _
              Hlast eq_refl)
    as (m' & Hl & Hi & Hs & Hstr & Hss & Hend).
  rewrite Hthrown in Hend. destruct Hend as (Hres & Hst & Htx & Herr).
  split; [exact Hres|].
  exists m'. cbn [finally messages]. now repeat split.
Qed.

End HookProperties.

(** ** The hook: the error texts of failed turns *)

Section FailureTexts.

Context {E : Env}.

(** An error made by the hook from a truthy value is reported with it. *)
Lemma reported_value (v : value) :
  truthy v = true -> converts v = true ->
  error_text (classify (ThrowError (new_Error_full v))) = v.
Proof.
  intros Hv Hc. unfold classify, new_Error_full. rewrite Hc.
  cbn [name instanceof_TypeError fullMessage message].
  change (Str.eqb (lit "Error") (lit "AbortError")) with false.
  cbn [andb error_text js_or]. now rewrite Hv.
Qed.

Lemma js_or_truthy (a : option value) (b : value) :
  truthy b = true -> truthy (js_or a b) = true.
Proof.
  intros Hb. unfold js_or. destruct a as [v|]; [|exact Hb].
  now destruct (truthy v) eqn:Hv.
Qed.

Lemma generic_http_error_truthy (r : Response) :
  truthy (JStr (generic_http_error r)) = true.
Proof. reflexivity. Qed.

Lemma http_error_generic (r : Response) :
  no_error_detail r ->
  http_error r = new_Error_full (JStr (generic_http_error r)).
Proof.
  unfold http_error. fold (generic_http_error r).
  intros [Hct|[(ct & Hct & Hinc)|[(err & Hbody)|[Hbody|
            [(errorData & parts & Hbody & Hparts & Htruthy & Hshape)
            |(errorData & items & Hbody & Hparts & Hconv)]]]]].
  - now rewrite Hct.
  - now rewrite Hct, Hinc.
  - rewrite Hbody. destruct (content_type r) as [ct|]; [|reflexivity].
    now destruct (includes _ ct).
  - rewrite Hbody. destruct (content_type r) as [ct|]; [|reflexivity].
    now destruct (includes _ ct).
  - rewrite Hbody. destruct (content_type r) as [ct|]; [|reflexivity].
    destruct (includes _ ct); [|reflexivity].
    destruct errorData; try reflexivity;
      rewrite Hparts, Htruthy; destruct parts; try reflexivity;
      contradiction.
  - rewrite Hbody. destruct (content_type r) as [ct|]; [|reflexivity].
    destruct (includes _ ct); [|reflexivity].
    destruct errorData; try reflexivity;
      rewrite Hparts; cbn [truthy]; now rewrite Hconv.
Qed.

(** What the [catch] clause words for the [TypeError] of a conversion. *)
Lemma conversion_error_text :
  error_text (classify (ThrowError conversion_TypeError))
  = JStr (if includes (lit "network") conversion_error
             || includes (lit "fetch") conversion_error
             || includes (lit "Failed to fetch") conversion_error
          then connection_lost_text
          else conversion_error).
Proof.
  unfold classify, conversion_TypeError.
  cbn [name instanceof_TypeError fullMessage message].
  change (Str.eqb (lit "TypeError") (lit "AbortError")) with false.
  cbn [andb].
  now destruct (includes (lit "network") conversion_error
                || includes (lit "fetch") conversion_error
                || includes (lit "Failed to fetch") conversion_error).
Qed.

Lemma unconverted_error (v : value) :
  converts v = false ->
  error_text (classify (ThrowError (new_Error_full v)))
  = error_text (classify (ThrowError conversion_TypeError)).
Proof. intros Hc. unfold new_Error_full. now rewrite Hc. Qed.

Lemma http_error_members (r : Response) (contentType : jsstring)
    (errorData : value) :
  content_type r = Some contentType ->
  includes (lit "application/json") contentType = true ->
  json_body r = JsonResolves errorData -> errorData <> JNull ->
  match prop errorData (lit "errorParts") with
  | Some parts => truthy parts = false
  | None => True
  end ->
  http_error r
  = new_Error_full
      (js_or (prop errorData (lit "error"))
         (js_or (prop errorData (lit "message"))
            (JStr (generic_http_error r)))).
Proof.
  intros Hct Hinc Hbody Hnull Hparts.
  unfold http_error. fold (generic_http_error r).
  rewrite Hct, Hinc, Hbody.
  destruct errorData; try congruence;
    destruct (prop _ (lit "errorParts")) as [parts|]; try reflexivity;
    now rewrite Hparts.
Qed.

(** X7 - Error text of a response that is not [ok]: the assistant message
    of an admitted call ends with status [error].  Its error text is
    ['API Error: <status> <statusText>'] when the response has no usable
    JSON error body (no JSON content type, a body that cannot be read or is
    [null], an [errorParts] member that is truthy and no array, or an
    [errorParts] array with an element that does not convert to a string).
    When the JSON body has no truthy [errorParts], the value chosen is its
    [error] member if truthy, else its [message] member if truthy, else that
    generic text: the error stored is that value when it converts to a
    string; when it does not (an object with a [toString] member of its
    own, or an array that holds one), [new Error] throws a [TypeError] and
    the error stored is the message of that [TypeError], or the
    connection-lost text when that message mentions ['network'] or
    ['fetch']. *)
Theorem http_error_text_fallbacks (selectedAgent agent : jsstring)
    (loading : bool)
    (h : HookState) (message : jsstring) (r : Response) :
  refused loading message = false ->
  encodeURIComponent selectedAgent = inl agent ->
  ok r = false ->
  exists m,
    last_message
      (messages (fst (fst (sendMessage selectedAgent loading h message (FetchResolves r)))))
      m /\
    status m = Some status_error /\
    (no_error_detail r -> error m = Some (JStr (generic_http_error r))) /\
    (forall contentType errorData,
        content_type r = Some contentType ->
        includes (lit "application/json") contentType = true ->
        json_body r = JsonResolves errorData -> errorData <> JNull ->
        match prop errorData (lit "errorParts") with
        | Some parts => truthy parts = false
        | None => True
        end ->
        let chosen :=
          js_or (prop errorData (lit "error"))
            (js_or (prop errorData (lit "message"))
               (JStr (generic_http_error r))) in
        (converts chosen = true -> error m = Some chosen) /\
        (converts chosen = false ->
         error m
         = Some (JStr (if includes (lit "network") conversion_error
                          || includes (lit "fetch") conversion_error
                          || includes (lit "Failed to fetch") conversion_error
                       then connection_lost_text
                       else conversion_error)))).
Proof.
  intros Hadm Henc Hok.
  assert (Hthrown : thrown_by (FetchResolves r) = Some (ThrowError (http_error r))).
  { unfold thrown_by. now rewrite Hok. }
  destruct (@sendMessage_thrown _ selectedAgent agent loading h message _ _
              Hadm Henc Hthrown)
    as (_ & m & Hlast & _ & Hstatus & Herror).
  exists m. split; [exact Hlast|]. split; [exact Hstatus|]. split.
  - intros Hnone. rewrite Herror, (http_error_generic Hnone).
    now rewrite reported_value.
  - intros contentType errorData Hct Hinc Hbody Hnull Hparts. cbv zeta.
    rewrite Herror, (@http_error_members r contentType errorData
                       Hct Hinc Hbody Hnull Hparts).
    split; intros Hconv.
    + rewrite reported_value; [reflexivity| |exact Hconv].
      apply js_or_truthy, js_or_truthy, generic_http_error_truthy.
    + now rewrite (unconverted_error _ Hconv), conversion_error_text.
Qed.

(** X8 - No readable stream: when the response of an admitted call is [ok]
    but has no body to read, no event is processed, the call is rejected
    with the error made for it, and the assistant message of the turn ends
    with status [error] and the error text
    ['No readable stream available']. *)
Theorem missing_body_is_reported (selectedAgent agent : jsstring)
    (loading : bool)
    (h : HookState) (message : jsstring) (r : Response) :
  refused loading message = false ->
  encodeURIComponent selectedAgent = inl agent ->
  ok r = true -> body r = None ->
  snd (sendMessage selectedAgent loading h message (FetchResolves r))
  = Failure (ThrowError no_stream_error) /\
  exists m,
    last_message
      (messages (fst (fst (sendMessage selectedAgent loading h message (FetchResolves r)))))
      m /\
    status m = Some status_error /\
    error m = Some (JStr Text.NO_READABLE_STREAM) /\
    m = upd_failed (JStr Text.NO_READABLE_STREAM)
          (assistantMessage (of_N (clock (clock_reads h)) ++ lit "_assistant")
             (clock (S (S (clock_reads h))))).
Proof.
  intros Hadm Henc Hok Hbody.
  rewrite (@sendMessage_admitted _ selectedAgent agent loading h message _ Hadm Henc).
  cbn [fst snd]. unfold receive. rewrite Hok, Hbody. cbn [negb fst snd].
  split; [reflexivity|].
  destruct (start_last_message h message) as [older Holder].
  unfold on_catch, setMessages, with_messages, finally. cbn [messages].
  rewrite Holder, patch_app. cbn [start fst assistantMessageId].
  unfold patch at 2. cbn [map id assistantMessage].
  rewrite eqb_refl. unfold no_stream_error.
  rewrite reported_value by reflexivity.
  eexists. split; [now eexists|]. repeat split.
Qed.

(** X9 - Lost connection: when what an admitted call throws is a
    [TypeError] other than the abort whose message mentions ['network'] or
    ['fetch'] (a rejected [fetch], or a rejected [read] in the middle of the
    stream), the assistant message of the turn ends with status [error] and
    the connection-lost text; that text names the configured backend URL,
    and the error box shows the fixed header above it. *)
Theorem lost_connection_names_backend (selectedAgent agent : jsstring)
    (loading : bool)
    (h : HookState) (message : jsstring) (net : fetch_result) (e : JsError) :
  refused loading message = false ->
  encodeURIComponent selectedAgent = inl agent ->
  thrown_by net = Some (ThrowError e) ->
  instanceof_TypeError e = true ->
  name e <> lit "AbortError" ->
  includes (lit "network") (Types.message e) = true
  \/ includes (lit "fetch") (Types.message e) = true ->
  (exists m,
      last_message
        (messages (fst (fst (sendMessage selectedAgent loading h message net)))) m /\
      status m = Some status_error /\
      error m = Some (JStr connection_lost_text)) /\
  includes backendUrl connection_lost_text = true /\
  error_header connection_lost_text = Text.ERROR_PREFIX /\
  startsWith (lit "Connection lost during streaming.")
    (error_rest connection_lost_text) = true.
Proof.
  intros Hadm Henc Hthrown Htype Hname Hmsg.
  assert (Hclass : classify (ThrowError e) = ConnectionLost).
  { unfold classify. apply eqb_neq in Hname. rewrite Hname, Htype.
    destruct Hmsg as [-> | ->]; [reflexivity|].
    cbn [andb orb]. now rewrite orb_true_r. }
  split; [|split; [|split]].
  - destruct (@sendMessage_thrown _ selectedAgent agent loading h message _ _
                Hadm Henc Hthrown)
      as (_ & m & Hlast & _ & Hstatus & Herror).
    exists m. rewrite Hclass in Herror. now repeat split.
  - unfold connection_lost_text.
    rewrite !(app_assoc _ _ (backendUrl ++ _)). apply includes_app.
  - unfold error_header, connection_lost_text.
    rewrite split_blank_app; [reflexivity|].
    vm_compute. intuition discriminate.
  - unfold error_rest, connection_lost_text.
    rewrite split_blank_app by (vm_compute; intuition discriminate).
    cbn [tl]. rewrite join_split_blank. apply startsWith_app.
Qed.

End FailureTexts.

(** ** The hook: the events of the stream *)

Section StreamEvents.

Context {E : Env}.

Lemma patched_Forall (P : ChatMessage -> Prop) (msgs msgs' : list ChatMessage) :
  (forall f m, updater f -> P m -> P (f m)) ->
  patched msgs msgs' -> Forall P msgs -> Forall P msgs'.
Proof.
  intros Hupd [->|(aid & f & Hf & ->)] Hall; [exact Hall|].
  unfold patch. apply Forall_map.
  eapply Forall_impl; [|exact Hall].
  intros m Hm. destruct (Str.eqb (id m) aid); [now apply Hupd|exact Hm].
Qed.

(** A property of the two messages a call creates that every updater
    keeps holds of every message in every state of the hook. *)
Lemma reachable_Forall (P : ChatMessage -> Prop) (h : HookState) :
  (forall base message date, P (userMessage base message date)) ->
  (forall aid date, P (assistantMessage aid date)) ->
  (forall f m, updater f -> P m -> P (f m)) ->
  reachable h -> Forall P (messages h).
Proof.
  intros Huser Hassistant Hupd.
  induction 1 as [|h message _ IH|t h line _ IH|t h _ IH|t h err _ IH
                  |h _ IH|loading h _ IH|h _ IH].
  - constructor.
  - cbn [start snd messages]. apply Forall_append_pair; auto.
  - exact (patched_Forall Hupd (process_line_patched (t, h) line) IH).
  - refine (patched_Forall Hupd (setMessages_patched _ h _) IH). constructor.
  - refine (patched_Forall Hupd (setMessages_patched _ h _) IH). constructor.
  - exact IH.
  - unfold cancelRequest.
    destruct (abortControllerRef h); [destruct loading|]; exact IH.
  - constructor.
Qed.

Lemma updater_accounts (f : ChatMessage -> ChatMessage) (m : ChatMessage) :
  updater f -> timeline_accounts m -> timeline_accounts (f m).
Proof.
  intros Hf (Hsql & Hchart & Hann & Hthink).
  unfold timeline_accounts, entries_of in *.
  destruct Hf;
    cbn [timeline sqlQueries charts annotations thinkingTexts
         upd_text_delta upd_status upd_tool_result upd_thinking
         upd_thinking_delta upd_chart upd_annotation upd_complete upd_failed];
    try (repeat split; assumption).
  - cbn [or_empty]. rewrite !filter_app, !length_app.
    cbn [filter tl_type same_type List.length]. repeat split; lia.
  - destruct (truthy_sql sqlQuery); cbn [or_empty];
      rewrite !filter_app, !length_app;
      cbn [filter tl_type same_type List.length app];
      rewrite ?length_app; cbn [List.length]; repeat split; lia.
  - cbn [or_empty]. rewrite !filter_app, !length_app.
    cbn [filter tl_type same_type List.length]. repeat split; lia.
  - destruct (or_empty (thinkingTexts m)) as [|v l] eqn:Hl; cbn [or_empty].
    + rewrite !filter_app, !length_app.
      cbn [filter tl_type same_type List.length]. cbn [List.length] in Hthink.
      repeat split; lia.
    + rewrite length_replace_last by discriminate. repeat split; assumption.
  - cbn [or_empty]. rewrite !filter_app, !length_app.
    cbn [filter tl_type same_type List.length]. repeat split; lia.
  - cbn [or_empty]. rewrite !filter_app, !length_app.
    cbn [filter tl_type same_type List.length]. repeat split; lia.
Qed.

(** X10 - The timeline accounts for the collections: in every state the
    hook reaches by any sequence of its steps, every message of the
    conversation has exactly one ['sql'] timeline entry per stored query,
    one ['chart'] entry per chart, one ['annotation'] entry per annotation
    and one ['thinking'] entry per reasoning buffer. *)
Theorem timeline_accounts_for_collections (h : HookState) (msg : ChatMessage) :
  reachable h -> In msg (messages h) -> timeline_accounts msg.
Proof.
  intros Hr Hin.
  assert (Hall : Forall timeline_accounts (messages h)).
  { apply reachable_Forall; [| |apply updater_accounts|exact Hr];
      intros; repeat split. }
  rewrite Forall_forall in Hall. now apply Hall.
Qed.

Lemma dispatch_unknown (ev : jsstring) (data : value) (t : turn)
    (h : HookState) :
  ~ In ev known_events -> dispatch ev data t h = Some (t, h).
Proof.
  intros Hno. unfold known_events in Hno. cbn [In] in Hno.
  assert (H1 : Str.eqb ev Text.text_delta = false) by (apply eqb_neq; intuition).
  assert (H2 : Str.eqb ev Text.response_status = false) by (apply eqb_neq; intuition).
  assert (H3 : Str.eqb ev Text.tool_result = false) by (apply eqb_neq; intuition).
  assert (H4 : Str.eqb ev Text.response_thinking = false) by (apply eqb_neq; intuition).
  assert (H5 : Str.eqb ev Text.thinking_delta = false) by (apply eqb_neq; intuition).
  assert (H6 : Str.eqb ev Text.response_chart = false) by (apply eqb_neq; intuition).
  assert (H7 : Str.eqb ev Text.text_annotation = false) by (apply eqb_neq; intuition).
  unfold dispatch, cond_thinking, cond_prop.
  now rewrite H1, H2, H3, H4, H5, H6, H7.
Qed.

Lemma process_line_unknown (st : turn * HookState) (line : jsstring) :
  ~ In (currentEvent (fst st)) known_events ->
  startsWith Text.event_prefix line = false ->
  process_line st line = st.
Proof.
  intros Hev Hp. unfold process_line. rewrite Hp.
  destruct (startsWith Text.data_prefix line); [|reflexivity].
  destruct st as [t h]. unfold process_data.
  destruct (Str.eqb _ [] || Str.eqb _ Text.DONE); [reflexivity|].
  destruct (JSON_parse _) as [data|]; [|reflexivity].
  now rewrite dispatch_unknown.
Qed.

(** X11 - Unknown events: as long as the current event name and every event
    name the lines declare are none of the seven names the hook handles,
    the lines change nothing of the state of the hook and nothing of the
    text of the turn, whatever their payloads are.  The empty name a call
    starts with is such a name. *)
Theorem unknown_events_are_ignored (st : turn * HookState) (lines : list jsstring) :
  ~ In (currentEvent (fst st)) known_events ->
  Forall (fun line => startsWith Text.event_prefix line = true ->
                      ~ In (trim (slice 7 line)) known_events) lines ->
  snd (process_lines st lines) = snd st /\
  assistantText (fst (process_lines st lines)) = assistantText (fst st) /\
  ~ In (currentEvent (fst (start (snd st) []))) known_events.
Proof.
  intros Hev Hlines.
  assert (H : snd (process_lines st lines) = snd st /\
              assistantText (fst (process_lines st lines))
              = assistantText (fst st)).
  { revert st Hev. induction Hlines as [|line lines Hline _ IH]; intros st Hev;
      [now split|].
    cbn [process_lines fold_left]. fold (process_lines (process_line st line) lines).
    destruct (startsWith Text.event_prefix line) eqn:Hp.
    - rewrite (process_line_event st line Hp).
      match goal with
      | |- context [process_lines ?x lines] => destruct (IH x) as [A B]
      end; [cbn; now apply Hline|].
      now split.
    - rewrite (process_line_unknown st line Hev Hp). now apply IH. }
  destruct H as [H1 H2]. split; [exact H1|]. split; [exact H2|].
  cbn. intuition discriminate.
Qed.

Lemma object_of_member (data : value) (k : jsstring) (v : value) :
  prop data k = Some v -> forall key : string, get data key = Some (prop data (lit key)).
Proof. intros H key. now destruct data. Qed.

Lemma js_plus_strings (a b : jsstring) : js_plus (JStr a) (JStr b) = JStr (a ++ b).
Proof. reflexivity. Qed.

Lemma deltas_on_last_buffer (deltas : list (jsstring * N)) (msg : ChatMessage)
    (buffers : list value) (seed : jsstring) :
  thinkingTexts msg = Some (buffers ++ [JStr seed]) ->
  let result :=
    fold_left (fun m d => upd_thinking_delta (JStr (fst d)) (snd d) m)
      deltas msg in
  thinkingTexts result
  = Some (buffers ++ [JStr (seed ++ List.concat (map fst deltas))])
  /\ timeline result = timeline msg.
Proof.
  revert msg seed. induction deltas as [|[d now] deltas IH]; intros msg seed Hmsg.
  - simpl. now rewrite app_nil_r.
  - cbn [fold_left map List.concat fst snd].
    assert (Hstep : thinkingTexts (upd_thinking_delta (JStr d) now msg)
                    = Some (buffers ++ [JStr (seed ++ d)])
                    /\ timeline (upd_thinking_delta (JStr d) now msg)
                       = timeline msg).
    { unfold upd_thinking_delta. cbn [thinkingTexts timeline].
      rewrite Hmsg. cbn [or_empty].
      destruct (buffers ++ [JStr seed]) as [|v l] eqn:Hl;
        [now destruct buffers|].
      rewrite <- Hl, removelast_last, last_last. now rewrite js_plus_strings. }
    destruct Hstep as [Htexts Htimeline].
    destruct (IH _ _ Htexts) as [IH1 IH2]. cbv zeta in IH1, IH2.
    rewrite IH1, IH2, Htimeline. now rewrite <- app_assoc.
Qed.

(** X12 - Reasoning deltas: the deltas that follow a reasoning segment are
    added, in order, to the text of that segment, the last reasoning
    buffer, and add no timeline entry; deltas that arrive while the message
    has no reasoning buffer start one, with a single placeholder entry
    ['Processing thinking...'] in the timeline.  Under the event
    ['response.thinking.delta'] a payload whose [text] is a non-empty string
    is applied as such a delta to the assistant message of the turn. *)
Theorem reasoning_deltas_extend_last_buffer (msg : ChatMessage)
    (deltas : list (jsstring * N)) :
  let apply_deltas :=
    fold_left (fun m d => upd_thinking_delta (JStr (fst d)) (snd d) m) deltas in
  (forall thinkingText now,
      thinkingTexts (apply_deltas (upd_thinking thinkingText now msg))
      = Some (or_empty (thinkingTexts msg)
              ++ [JStr (thinkingText ++ List.concat (map fst deltas))])
      /\ timeline (apply_deltas (upd_thinking thinkingText now msg))
         = timeline (upd_thinking thinkingText now msg)) /\
  (or_empty (thinkingTexts msg) = [] ->
   forall first now,
     thinkingTexts (apply_deltas (upd_thinking_delta (JStr first) now msg))
     = Some [JStr (first ++ List.concat (map fst deltas))]
     /\ timeline (apply_deltas (upd_thinking_delta (JStr first) now msg))
        = Some (or_empty (timeline msg)
                ++ [{| tl_type := tl_thinking;
                       tl_content := JStr (lit "Processing thinking...");
                       tl_timestamp := now |}])) /\
  (forall data deltaText t h,
      prop data (lit "text") = Some (JStr deltaText) -> deltaText <> [] ->
      dispatch Text.thinking_delta data t h
      = Some (t, setMessages_dated (assistantMessageId t)
                   (upd_thinking_delta (JStr deltaText)) h)).
Proof.
  cbv zeta. split; [|split].
  - intros thinkingText now.
    apply (@deltas_on_last_buffer deltas (upd_thinking thinkingText now msg)
             (or_empty (thinkingTexts msg)) thinkingText).
    reflexivity.
  - intros Hnone first now.
    assert (Hfirst : thinkingTexts (upd_thinking_delta (JStr first) now msg)
                     = Some ([] ++ [JStr first])).
    { unfold upd_thinking_delta. cbn [thinkingTexts]. now rewrite Hnone. }
    destruct (@deltas_on_last_buffer deltas _ _ _ Hfirst) as [H1 H2].
    cbv zeta in H1, H2. rewrite H1, H2. split; [reflexivity|].
    unfold upd_thinking_delta. cbn [timeline]. now rewrite Hnone.
  - intros data deltaText t h Hprop Hne.
    unfold dispatch, cond_thinking, cond_prop.
    change (Str.eqb Text.thinking_delta Text.text_delta) with false.
    change (Str.eqb Text.thinking_delta Text.response_status) with false.
    change (Str.eqb Text.thinking_delta Text.tool_result) with false.
    change (Str.eqb Text.thinking_delta Text.response_thinking) with false.
    change (Str.eqb Text.thinking_delta Text.thinking_delta) with true.
    cbv beta iota zeta.
    rewrite (@object_of_member data _ _ Hprop "text"), Hprop. cbn [truthy].
    destruct deltaText; [congruence|reflexivity].
Qed.

(** X13 - Charts: under the event ['response.chart'], a payload whose
    [chart_spec] is a non-empty string adds one chart with the parsed spec
    to the assistant message of the turn when the string is JSON, and
    changes nothing when it is not; the chart comes with one ['chart']
    timeline entry and leaves the text and the status of the message as
    they were. *)
Theorem chart_is_decoded_or_dropped (data : value) (spec : jsstring)
    (t : turn) (h : HookState) :
  prop data (lit "chart_spec") = Some (JStr spec) -> spec <> [] ->
  dispatch Text.response_chart data t h
  = match JSON_parse spec with
    | Some chartSpec =>
        Some (t, setMessages_dated (assistantMessageId t)
                   (upd_chart {| chart_spec := chartSpec |}) h)
    | None => Some (t, h)
    end /\
  forall chartContent now msg,
    charts (upd_chart chartContent now msg)
    = Some (or_empty (charts msg) ++ [chartContent]) /\
    entries_of tl_chart (upd_chart chartContent now msg)
    = S (entries_of tl_chart msg) /\
    text (upd_chart chartContent now msg) = text msg /\
    status (upd_chart chartContent now msg) = status msg.
Proof.
  intros Hprop Hne. split.
  - unfold dispatch, cond_thinking, cond_prop.
    change (Str.eqb Text.response_chart Text.text_delta) with false.
    change (Str.eqb Text.response_chart Text.response_status) with false.
    change (Str.eqb Text.response_chart Text.tool_result) with false.
    change (Str.eqb Text.response_chart Text.response_thinking) with false.
    change (Str.eqb Text.response_chart Text.thinking_delta) with false.
    change (Str.eqb Text.response_chart Text.response_chart) with true.
    cbv beta iota zeta.
    rewrite (@object_of_member data _ _ Hprop "chart_spec"), Hprop.
    cbn [truthy toString].
    destruct spec; [congruence|]. cbn [Str.eqb negb].
    now destruct (JSON_parse _).
  - intros chartContent now msg. unfold entries_of.
    cbn [charts timeline text status upd_chart or_empty].
    rewrite filter_app, length_app. cbn [filter tl_type same_type List.length].
    repeat split. lia.
Qed.

End StreamEvents.

(** ** The hook: the ids and the questions of a conversation *)

Section Identity.

Context {E : Env}.

Lemma lit_inj (a b : string) : lit a = lit b -> a = b.
Proof.
  unfold lit. intros H.
  apply (f_equal (map ascii_of_N)) in H. rewrite !map_map in H.
  rewrite !(map_ext _ (fun x => x) ascii_N_embedding), !map_id in H.
  apply (f_equal string_of_list_ascii) in H.
  now rewrite !string_of_list_ascii_of_string in H.
Qed.

Lemma to_uint_nonnil (n : N) : N.to_uint n <> Decimal.Nil.
Proof.
  destruct n as [|p]; [discriminate|]. apply DecimalPos.Unsigned.to_uint_nonnil.
Qed.

(** The decimal notation tells the numbers apart. *)
Lemma of_N_inj (a b : N) : of_N a = of_N b -> a = b.
Proof.
  unfold of_N. intros H. apply lit_inj in H.
  apply (f_equal NilZero.uint_of_string) in H.
  rewrite !NilZero.usu in H by apply to_uint_nonnil.
  injection H as H. now apply DecimalN.Unsigned.to_uint_inj.
Qed.

Lemma ids_differ (a b : N) (s s' : jsstring) :
  s = lit "_user" \/ s = lit "_assistant" ->
  s' = lit "_user" \/ s' = lit "_assistant" ->
  of_N a ++ s = of_N b ++ s' -> a = b /\ s = s'.
Proof.
  intros [-> | ->] [-> | ->] H.
  - apply app_inv_tail in H. split; [now apply of_N_inj|reflexivity].
  - now apply suffixes_differ in H.
  - symmetry in H. now apply suffixes_differ in H.
  - apply app_inv_tail in H. split; [now apply of_N_inj|reflexivity].
Qed.

Lemma patched_ids (msgs msgs' : list ChatMessage) :
  patched msgs msgs' -> map (fun m => id m) msgs' = map (fun m => id m) msgs.
Proof.
  intros [->|(aid & f & Hf & ->)]; [reflexivity|].
  unfold patch. rewrite map_map. apply map_ext. intros m.
  destruct (Str.eqb (id m) aid); [|reflexivity].
  now apply updater_id_sender.
Qed.

Lemma issued_later (k k' : nat) (i : jsstring) :
  k <= k' -> issued k i -> issued k' i.
Proof.
  intros Hk (j & suffix & Hj & Hi & Hs). exists j, suffix.
  split; [lia|now split].
Qed.

Lemma reachable_ids (h : HookState) :
  clock_never_repeats -> reachable h ->
  NoDup (map (fun m => id m) (messages h))
  /\ Forall (issued (clock_reads h)) (map (fun m => id m) (messages h)).
Proof.
  intros Hclock.
  assert (Hpatched : forall (h h' : HookState),
             patched (messages h) (messages h') ->
             clock_reads h <= clock_reads h' ->
             NoDup (map (fun m => id m) (messages h))
             /\ Forall (issued (clock_reads h)) (map (fun m => id m) (messages h)) ->
             NoDup (map (fun m => id m) (messages h'))
             /\ Forall (issued (clock_reads h')) (map (fun m => id m) (messages h'))).
  { intros h1 h2 Hp Hle [Hnd Hall]. rewrite (patched_ids Hp).
    split; [exact Hnd|].
    eapply Forall_impl; [|exact Hall]. intros i. now apply issued_later. }
  induction 1 as [|h message _ [IHnd IHall]|t h line _ IH|t h _ IH|t h err _ IH
                  |h _ IH|loading h _ IH|h _ IH].
  - split; constructor.
  - cbn [start snd messages clock_reads].
    set (k := clock_reads h) in *.
    set (u := userMessage _ _ _). set (a := assistantMessage _ _).
    assert (Hnew : NoDup (map (fun m => id m) (messages h ++ [u; a]))
                   /\ Forall (issued (S (S (S k)))) (map (fun m => id m) (messages h ++ [u; a]))).
    { rewrite map_app. cbv beta; cbn [map id u a userMessage assistantMessage]. split.
      - apply NoDup_app; [exact IHnd| |].
        + constructor; [|constructor; [intros []|constructor]].
          intros [H|[]]. symmetry in H. now apply suffixes_differ in H.
        + intros i Hi Hin. rewrite Forall_forall in IHall.
          destruct (IHall i Hi) as (j & suffix & Hj & -> & Hs).
          assert (Hk : clock j = clock k).
          { destruct Hin as [H|[H|[]]]; symmetry in H;
              apply ids_differ in H; auto; tauto. }
          apply Hclock in Hk. lia.
      - apply Forall_app. split.
        + eapply Forall_impl; [|exact IHall].
          intros i. apply issued_later. lia.
        + repeat constructor.
          * exists k, (lit "_user"). split; [lia|]. split; [reflexivity|now left].
          * exists k, (lit "_assistant"). split; [lia|].
            split; [reflexivity|now right]. }
    unfold append_pair, slice_last.
    destruct (MAX_MESSAGES <? _); [|exact Hnew].
    destruct Hnew as [Hnd Hall].
    rewrite <- skipn_map.
    rewrite <- (firstn_skipn (List.length (messages h ++ [u; a]) - MAX_MESSAGES)
                  (map (fun m => id m) (messages h ++ [u; a]))) in Hnd, Hall.
    split; [now apply NoDup_app_remove_l in Hnd|].
    now apply Forall_app in Hall.
  - apply (Hpatched h (snd (process_line (t, h) line)));
      [apply (process_line_patched (t, h) line)
      |apply (process_line_own (t, h) line)|exact IH].
  - apply (Hpatched h (complete t h));
      [apply setMessages_patched; constructor|cbn; lia|exact IH].
  - apply (Hpatched h (on_catch t h err));
      [apply setMessages_patched; constructor|cbn; lia|exact IH].
  - exact IH.
  - unfold cancelRequest.
    destruct (abortControllerRef h); [destruct loading|]; exact IH.
  - split; constructor.
Qed.

(** X14 - Unique ids: when no two readings of the clock return the same
    instant, in every state the hook reaches by any sequence of its steps
    no two messages of the conversation have the same id, so that the
    updates of a turn reach one message only; every id is the decimal
    notation of an earlier reading of the clock followed by ['_user'] or
    ['_assistant']. *)
Theorem message_ids_are_unique (h : HookState) :
  clock_never_repeats -> reachable h ->
  NoDup (map (fun m => id m) (messages h)) /\
  Forall (issued (clock_reads h)) (map (fun m => id m) (messages h)) /\
  forall aid, List.length (filter (fun m => Str.eqb (id m) aid) (messages h)) <= 1.
Proof.
  intros Hclock Hr. destruct (reachable_ids Hclock Hr) as [Hnd Hall].
  split; [exact Hnd|]. split; [exact Hall|].
  intros aid. clear Hall Hr. induction (messages h) as [|m msgs IH]; [simpl; lia|].
  cbn [map] in Hnd. inversion Hnd as [|? ? Hnotin Hnd']; subst.
  cbn [filter]. destruct (Str.eqb (id m) aid) eqn:Hm; [|now apply IH].
  apply eqb_eq in Hm. cbn [List.length].
  assert (Hnone : filter (fun m0 => Str.eqb (id m0) aid) msgs = []).
  { destruct (filter _ msgs) as [|m' l] eqn:Hf; [reflexivity|].
    assert (Hin : In m' (filter (fun m0 => Str.eqb (id m0) aid) msgs))
      by (rewrite Hf; now left).
    apply filter_In in Hin as [Hin Hid]. apply eqb_eq in Hid.
    destruct Hnotin. rewrite Hm, <- Hid. now apply (in_map (fun m => id m)). }
  rewrite Hnone. simpl. lia.
Qed.

Lemma question_is_shown (base message : jsstring) (date : N) :
  trim message <> [] -> willShow (userMessage base message date) = Some true.
Proof.
  intros Hne. unfold willShow, willShowThinking, willShowError, willShowText,
    willShowStatus, is_assistant, has_status.
  cbn [sender status text userMessage]. rewrite trim_idempotent.
  apply eqb_neq in Hne. now rewrite Hne.
Qed.

Lemma own_patch_questions (base : jsstring) (msgs msgs' : list ChatMessage) :
  Forall (fun m => sender m = user -> sent_question m) msgs ->
  own_patch (base ++ lit "_assistant") msgs msgs' ->
  Forall (fun m => sender m = user -> sent_question m) msgs'.
Proof.
  intros Hall (F & HF & ->). unfold patch. apply Forall_map.
  eapply Forall_impl; [|exact Hall]. intros m Hm.
  destruct (Str.eqb (id m) (base ++ lit "_assistant")) eqn:Hid; [|exact Hm].
  intros Hs. destruct (HF m) as (_ & Hsender & _). rewrite Hsender in Hs.
  destruct (Hm Hs) as (b & msg & d & -> & _).
  apply eqb_eq in Hid. cbn [id userMessage] in Hid.
  now apply suffixes_differ in Hid.
Qed.

Lemma sendMessage_questions (selectedAgent : jsstring) (loading : bool)
    (h : HookState)
    (message : jsstring) (net : fetch_result) :
  Forall (fun m => sender m = user -> sent_question m) (messages h) ->
  Forall (fun m => sender m = user -> sent_question m)
    (messages (fst (fst (sendMessage selectedAgent loading h message net)))).
Proof.
  intros Hall. destruct (refused loading message) eqn:Hadm.
  - unfold sendMessage. now rewrite Hadm.
  - eapply own_patch_questions;
      [|exact (@sendMessage_own _ selectedAgent loading h message net Hadm)].
    cbn [start snd messages]. apply Forall_append_pair; [exact Hall| |].
    + intros _. eexists _, _, _. split; [reflexivity|].
      unfold refused in Hadm. apply orb_false_iff in Hadm as [Hadm _].
      now apply eqb_neq.
    + discriminate.
Qed.

(** X15 - Questions stay as sent: after any sequence of sends, cancellations
    and clears, each run to its end, every user message of the conversation
    is exactly the message its call created: the trimmed text, which is not
    blank, no status and no error; no event, completion or failure of any
    turn has changed it, and the filter of the message list shows it. *)
Theorem questions_stay_as_sent (selectedAgent : jsstring) (ops : list op)
    (m : ChatMessage) :
  In m (messages (run_ops selectedAgent ops)) -> sender m = user ->
  sent_question m /\
  text m <> [] /\ trim (text m) = text m /\
  status m = None /\ error m = None /\
  willShow m = Some true.
Proof.
  intros Hin Hs.
  assert (Hall : Forall (fun m => sender m = user -> sent_question m)
                   (messages (run_ops selectedAgent ops))).
  { clear Hin Hs. unfold run_ops.
    assert (Hinit : Forall (fun m => sender m = user -> sent_question m)
                      (messages initial)) by constructor.
    revert Hinit. generalize initial as h.
    induction ops as [|o ops IH]; intros h Hh; [exact Hh|].
    simpl. apply IH. destruct o as [message net| |]; simpl.
    - now apply sendMessage_questions.
    - unfold cancelRequest.
      destruct (abortControllerRef h); [destruct (isLoading h)|]; exact Hh.
    - constructor. }
  rewrite Forall_forall in Hall.
  pose proof (Hall m Hin Hs) as Hq.
  split; [exact Hq|]. destruct Hq as (base & message & date & -> & Hne).
  cbn [text status error userMessage].
  split; [exact Hne|]. split; [apply trim_idempotent|].
  split; [reflexivity|]. split; [reflexivity|].
  now apply question_is_shown.
Qed.

(** X16 - A cleared conversation stays empty: [clearMessages] leaves no
    message, no loading flag and no cancellation handle; and whatever the
    call that was in flight still does afterwards (events of its stream, its
    completion or its failure, its cleanup) the conversation stays empty
    and the hook idle, so that the next send with a text that is not blank
    is admitted. *)
Theorem cleared_conversation_stays_empty (h : HookState) (t : turn)
    (lines : list jsstring) (err : thrown) (message : jsstring) :
  let cleared := clearMessages h in
  let late := process_lines (t, cleared) lines in
  messages cleared = [] /\ isLoading cleared = false /\
  abortControllerRef cleared = None /\
  messages (snd late) = [] /\
  messages (finally (complete (fst late) (snd late))) = [] /\
  messages (finally (on_catch (fst late) (snd late) err)) = [] /\
  refused (isLoading (finally (on_catch (fst late) (snd late) err))) message
  = Str.eqb (trim message) [].
Proof.
  cbv zeta.
  destruct (process_lines_own lines (t, clearMessages h)) as (_ & (F & _ & Hown) & _).
  cbn [fst snd clearMessages messages patch map] in Hown.
  repeat split; try reflexivity; try exact Hown.
  - cbn. now rewrite Hown.
  - cbn. now rewrite Hown.
  - unfold refused. cbn. apply orb_false_r.
Qed.

End Identity.

(** ** Around the hook: the handlers, the filter and the citation chips *)

Section Interface.

Context {E : Env}.

(** The question of an admitted call stays before its assistant message
    at the end of the conversation. *)
Lemma sendMessage_question (selectedAgent : jsstring) (loading : bool)
    (h : HookState)
    (message : jsstring) (net : fetch_result) :
  refused loading message = false ->
  exists older a,
    messages (fst (fst (sendMessage selectedAgent loading h message net)))
    = older ++ [userMessage (of_N (clock (clock_reads h))) message
                  (clock (S (clock_reads h))); a] /\
    id a = of_N (clock (clock_reads h)) ++ lit "_assistant" /\
    sender a = assistant.
Proof.
  intros Hadm.
  destruct (start_last_two h message) as [older Holder].
  destruct (@sendMessage_own _ selectedAgent loading h message net Hadm)
    as (F & HF & Heq).
  rewrite Heq, Holder, patch_app.
  set (u := userMessage _ _ _). set (a := assistantMessage _ _).
  exists (patch (assistantMessageId (fst (start h message))) F older), (F a).
  split.
  - f_equal. unfold patch. cbn [map start fst assistantMessageId].
    replace (Str.eqb (id u) _) with false
      by (symmetry; apply eqb_neq; apply suffixes_differ).
    replace (Str.eqb (id a) _) with true by (symmetry; apply eqb_refl).
    reflexivity.
  - destruct (HF a) as (Hid & Hsender & _). now rewrite Hid, Hsender.
Qed.

Lemma sendMessage_idle (selectedAgent : jsstring) (loading : bool)
    (h : HookState)
    (message : jsstring) (net : fetch_result) :
  refused loading message = false ->
  isLoading (fst (fst (sendMessage selectedAgent loading h message net))) = false /\
  Forall (fun r => request_text r = trim message)
    (snd (fst (sendMessage selectedAgent loading h message net))).
Proof.
  intros Hadm. unfold sendMessage. rewrite Hadm.
  destruct (start h message) as [t h1].
  destruct (encodeURIComponent selectedAgent) as [agent|msg].
  - destruct (receive t h1 net) as [h2 result]. cbn [fst snd finally isLoading].
    split; [reflexivity|]. now repeat constructor.
  - cbn [fst snd finally isLoading]. split; [reflexivity|constructor].
Qed.

(** X17 - The submit button: while a turn is loading, [handleSubmit] only
    cancels: it sends nothing, keeps the conversation and the typed text,
    and marks the cancellation handle as aborted.  When idle it does
    nothing at all for a blank input; for any other input it clears the
    input, collapses the starter questions and runs a send of the trimmed
    input that is admitted: every request carries the trimmed input, the
    hook is idle again at the end, and the conversation ends with the user
    message of that text and the assistant message of the turn. *)
Theorem submit_sends_trimmed_or_cancels (selectedAgent : jsstring)
    (m : MainState) (net : fetch_result) :
  let result := handleSubmit selectedAgent m net in
  (isLoading (hook m) = true ->
   snd result = [] /\
   messages (hook (fst result)) = messages (hook m) /\
   isLoading (hook (fst result)) = true /\
   inputText (fst result) = inputText m /\
   (abortControllerRef (hook m) <> None ->
    abortControllerRef (hook (fst result)) = Some {| aborted := true |})) /\
  (isLoading (hook m) = false -> trim (inputText m) = [] -> result = (m, [])) /\
  (isLoading (hook m) = false -> trim (inputText m) <> [] ->
   inputText (fst result) = [] /\
   starterQuestionsExpanded (fst result) = false /\
   isLoading (hook (fst result)) = false /\
   Forall (fun r => request_text r = trim (inputText m)) (snd result) /\
   exists older question a,
     messages (hook (fst result)) = older ++ [question; a] /\
     sender question = user /\ text question = trim (inputText m) /\
     sender a = assistant).
Proof.
  cbv zeta. unfold handleSubmit. split; [|split].
  - intros Hload. rewrite Hload. cbn [fst snd hook inputText].
    unfold cancelRequest. rewrite Hload.
    destruct (abortControllerRef (hook m)) as [c|] eqn:Hc;
      cbn [messages isLoading abortControllerRef];
      repeat split; try assumption; try reflexivity.
    intros Hnone. now destruct Hnone.
  - intros Hidle Hblank. rewrite Hidle, Hblank. reflexivity.
  - intros Hidle Hne. rewrite Hidle.
    assert (Hadm : refused false (trim (inputText m)) = false).
    { unfold refused. rewrite trim_idempotent.
      apply eqb_neq in Hne. now rewrite Hne. }
    apply eqb_neq in Hne. rewrite Hne. cbn [negb fst snd hook inputText
                                             starterQuestionsExpanded].
    destruct (@sendMessage_idle selectedAgent false (hook m)
                (trim (inputText m)) net Hadm)
      as [Hload Hreqs].
    rewrite trim_idempotent in Hreqs.
    split; [reflexivity|]. split; [reflexivity|]. split; [exact Hload|].
    split; [exact Hreqs|].
    destruct (@sendMessage_question selectedAgent false (hook m)
                (trim (inputText m)) net Hadm)
      as (older & a & Hmsgs & _ & Hsender).
    eexists older, _, a. split; [exact Hmsgs|].
    cbn [sender text userMessage]. rewrite trim_idempotent. now repeat split.
Qed.

(** X18 - Resending a question: for a user message the hook created from a
    text that is not blank, [handleResend] on an idle hook runs an admitted
    send whose new user message, which ends the conversation with the new
    assistant message, has exactly the text of the message resent; every
    request carries that text, the starter questions are collapsed and the
    typed input is kept. *)
Theorem resend_repeats_the_question (selectedAgent : jsstring) (m : MainState)
    (base original : jsstring) (date : N) (net : fetch_result) :
  isLoading (hook m) = false -> trim original <> [] ->
  let question := userMessage base original date in
  let result := handleResend selectedAgent m question net in
  Forall (fun r => request_text r = text question) (snd result) /\
  starterQuestionsExpanded (fst result) = false /\
  inputText (fst result) = inputText m /\
  isLoading (hook (fst result)) = false /\
  exists older again a,
    messages (hook (fst result)) = older ++ [again; a] /\
    sender again = user /\ text again = text question /\
    sender a = assistant.
Proof.
  intros Hidle Hne. cbv zeta. unfold handleResend. cbn [text userMessage].
  pose proof (trim_idempotent original) as Hfix.
  revert Hne Hfix. generalize (trim original) as q. intros q Hne Hfix.
  destruct q as [|c s]; [congruence|].
  unfold handleResendMessage.
  assert (Hadm : refused (isLoading (hook m)) (c :: s) = false).
  { unfold refused. now rewrite Hfix, Hidle. }
  rewrite Hfix.
  cbn [Str.eqb negb fst snd hook inputText starterQuestionsExpanded].
  destruct (@sendMessage_idle selectedAgent (isLoading (hook m)) (hook m) (c :: s) net Hadm)
    as [Hload Hreqs].
  rewrite Hfix in Hreqs.
  split; [exact Hreqs|]. split; [reflexivity|]. split; [reflexivity|].
  split; [exact Hload|].
  destruct (@sendMessage_question selectedAgent (isLoading (hook m)) (hook m) (c :: s) net Hadm)
    as (older & a & Hmsgs & _ & Hsender).
  eexists older, _, a. split; [exact Hmsgs|].
  cbn [sender text userMessage]. rewrite Hfix. now repeat split.
Qed.

Lemma trim_cons_nonblank (c : N) (s : jsstring) :
  is_whitespace c = false -> trim (c :: s) <> [].
Proof.
  intros Hc H. apply trim_nil_iff in H. cbn [forallb] in H.
  now rewrite Hc in H.
Qed.

Lemma error_is_shown (s : jsstring) (msg : ChatMessage) (shown : bool) :
  willShowThinking msg = Some shown -> trim s <> [] ->
  willShow (upd_failed (JStr s) msg) = Some true.
Proof.
  intros Hthinking Hne.
  assert (Hs : Str.eqb s [] = false).
  { apply eqb_neq. intros ->. now apply Hne. }
  unfold willShow.
  replace (willShowThinking (upd_failed (JStr s) msg)) with (Some shown)
    by (rewrite <- Hthinking; reflexivity).
  unfold willShowError, has_status. cbn [status error upd_failed truthy nonblank].
  rewrite Hs. cbn [negb]. apply eqb_neq in Hne. rewrite Hne. cbn [negb].
  now rewrite orb_true_r.
Qed.

Lemma worded_texts_nonblank (err : thrown) :
  worded_by_the_hook err ->
  exists s, error_text (classify err) = JStr s /\ trim s <> [].
Proof.
  unfold worded_by_the_hook. destruct (classify err); cbn [error_text];
    try contradiction; intros _; eexists; (split; [reflexivity|]).
  - intros H. vm_compute in H. discriminate H.
  - assert (Hhead : exists c s, connection_lost_text = c :: s
                                /\ is_whitespace c = false).
    { eexists _, _. split; [reflexivity|]. vm_compute. reflexivity. }
    destruct Hhead as (c & s & -> & Hc). now apply trim_cons_nonblank.
  - intros H. vm_compute in H. discriminate H.
Qed.

(** X19 - What the filter shows of a turn: the placeholder a call appends
    is hidden; once the turn has failed with an error the hook words itself
    (the cancellation, a lost connection, a thrown value that is no error)
    or with any error text that is not blank, its message is shown; and so
    is the message of a turn that completed with a text that is not blank,
    in particular with ['Response completed'] after a stream without text.
    This holds for every message on which the reasoning check of the filter
    does not throw. *)
Theorem settled_turn_is_shown (msg : ChatMessage) :
  willShowThinking msg <> None ->
  (forall err, worded_by_the_hook err ->
     willShow (upd_failed (error_text (classify err)) msg) = Some true) /\
  (forall s, trim s <> [] -> willShow (upd_failed (JStr s) msg) = Some true) /\
  (forall assistantText, trim (text_or_completed assistantText) <> [] ->
     willShow (upd_complete assistantText msg) = Some true) /\
  willShow (upd_complete [] msg) = Some true /\
  (forall aid date, willShow (assistantMessage aid date) = Some false).
Proof.
  intros Hthinking.
  destruct (willShowThinking msg) as [shown|] eqn:Hshown; [|congruence].
  assert (Hcomplete : forall assistantText,
             trim (text_or_completed assistantText) <> [] ->
             willShow (upd_complete assistantText msg) = Some true).
  { intros assistantText Hne. unfold willShow.
    replace (willShowThinking (upd_complete assistantText msg)) with (Some shown)
      by (rewrite <- Hshown; reflexivity).
    unfold willShowError, willShowText, has_status.
    cbn [status text upd_complete]. apply eqb_neq in Hne. rewrite Hne.
    cbn [negb]. now rewrite orb_true_r. }
  split; [|split; [|split; [|split]]].
  - intros err Hworded.
    destruct (@worded_texts_nonblank err Hworded) as (s & -> & Hne).
    exact (@error_is_shown s msg shown Hshown Hne).
  - intros s Hne. exact (@error_is_shown s msg shown Hshown Hne).
  - exact Hcomplete.
  - apply Hcomplete. intros H. vm_compute in H. discriminate H.
  - reflexivity.
Qed.

Lemma visible_none (before after : list ChatMessage) (m : ChatMessage) :
  willShow m = None -> visibleMessages (before ++ m :: after) = None.
Proof.
  intros Hm. induction before as [|b before IH]; cbn [app visibleMessages].
  - now rewrite Hm.
  - rewrite IH. now destruct (willShow b).
Qed.

(** X20 - An error that is no string: when a response that is not [ok] has
    a JSON body without truthy [errorParts] whose [error] member is truthy,
    no string (an object, an array, a number, [true]) and converts to a
    string (it is no object with a [toString] member of its own and no
    array that holds one, so that [new Error] does not throw), the hook
    stores that value as the error of the assistant message, and the filter
    of the message list throws on the conversation: [trim] is called on a
    value that is no string. *)
Theorem structured_error_breaks_the_filter (selectedAgent agent : jsstring)
    (loading : bool) (h : HookState) (message : jsstring) (r : Response)
    (contentType : jsstring) (errorData v : value) :
  refused loading message = false ->
  encodeURIComponent selectedAgent = inl agent ->
  ok r = false ->
  content_type r = Some contentType ->
  includes (lit "application/json") contentType = true ->
  json_body r = JsonResolves errorData ->
  match prop errorData (lit "errorParts") with
  | Some parts => truthy parts = false
  | None => True
  end ->
  prop errorData (lit "error") = Some v ->
  truthy v = true -> (forall s, v <> JStr s) -> converts v = true ->
  let final :=
    fst (fst (sendMessage selectedAgent loading h message (FetchResolves r))) in
  (exists m, last_message (messages final) m /\
             status m = Some status_error /\ error m = Some v /\
             willShow m = None) /\
  visibleMessages (messages final) = None.
Proof.
  intros Hadm Henc Hok Hct Hinc Hbody Hparts Herr Htruthy Hshape Hconv.
  cbv zeta.
  assert (Hnull : errorData <> JNull) by (intros ->; discriminate Herr).
  assert (Hthrown : thrown_by (FetchResolves r) = Some (ThrowError (http_error r))).
  { unfold thrown_by. now rewrite Hok. }
  destruct (@sendMessage_thrown _ selectedAgent agent loading h message _ _
              Hadm Henc Hthrown)
    as (_ & m & Hlast & _ & Hstatus & Herror).
  rewrite (@http_error_members _ r contentType errorData
             Hct Hinc Hbody Hnull Hparts) in Herror.
  rewrite Herr in Herror. cbn [js_or] in Herror. rewrite Htruthy in Herror.
  rewrite (reported_value _ Htruthy Hconv) in Herror.
  assert (Hshow : willShow m = None).
  { unfold willShow, willShowError, has_status. rewrite Hstatus, Herror, Htruthy.
    destruct (willShowThinking m); [|reflexivity].
    destruct v; try reflexivity. now destruct (Hshape s). }
  split.
  - exists m. now repeat split.
  - destruct Hlast as [older ->]. now apply visible_none.
Qed.

(** X21 - A reasoning delta that is no string: under the event
    ['response.thinking.delta'] a payload whose [text] is truthy is applied
    as it is; when it is no string and the assistant message has no
    reasoning buffer yet, the value becomes the first reasoning buffer, and
    the filter of the message list throws on every conversation that holds
    the message: [trim] is called on a value that is no string. *)
Theorem numeric_reasoning_breaks_the_filter (msg : ChatMessage)
    (deltaText : value) (now : N) :
  sender msg = assistant -> or_empty (thinkingTexts msg) = [] ->
  (forall s, deltaText <> JStr s) ->
  thinkingTexts (upd_thinking_delta deltaText now msg) = Some [deltaText] /\
  willShow (upd_thinking_delta deltaText now msg) = None /\
  (forall before after,
      visibleMessages (before ++ upd_thinking_delta deltaText now msg :: after)
      = None) /\
  (forall data t h,
      prop data (lit "text") = Some deltaText -> truthy deltaText = true ->
      dispatch Text.thinking_delta data t h
      = Some (t, setMessages_dated (assistantMessageId t)
                   (upd_thinking_delta deltaText) h)).
Proof.
  intros Hsender Hnone Hshape.
  assert (Htexts : thinkingTexts (upd_thinking_delta deltaText now msg)
                   = Some [deltaText]).
  { unfold upd_thinking_delta. cbn [thinkingTexts]. now rewrite Hnone. }
  assert (Hshow : willShow (upd_thinking_delta deltaText now msg) = None).
  { unfold willShow, willShowThinking, is_assistant. rewrite Htexts.
    cbn [sender upd_thinking_delta]. rewrite Hsender.
    cbn [nonempty or_empty some_nonblank].
    destruct deltaText; try reflexivity. now destruct (Hshape s). }
  split; [exact Htexts|]. split; [exact Hshow|]. split.
  - intros before after. now apply visible_none.
  - intros data t h Hprop Htruthy.
    unfold dispatch, cond_thinking, cond_prop.
    change (Str.eqb Text.thinking_delta Text.text_delta) with false.
    change (Str.eqb Text.thinking_delta Text.response_status) with false.
    change (Str.eqb Text.thinking_delta Text.tool_result) with false.
    change (Str.eqb Text.thinking_delta Text.response_thinking) with false.
    change (Str.eqb Text.thinking_delta Text.thinking_delta) with true.
    cbv beta iota zeta.
    rewrite (@object_of_member _ data _ _ Hprop "text"), Hprop.
    now rewrite Htruthy.
Qed.

(** X22 - Citation chips: for the record the hook builds from an annotation
    payload, the link of the chip is always the [doc_id] of the payload;
    the chip has a valid link exactly when the [doc_id] is a string that is
    not blank, and computing it throws when the [doc_id] is truthy and no
    string.  For every annotation the title of the tooltip is the title the
    timeline entry of the hook cites, ['Reference'] when there is none; and
    the excerpt of the tooltip is the text itself up to 400 code units, and
    its first 400 code units followed by three dots beyond. *)
Theorem citation_chip_follows_doc_id (data : value) (annotation : TextAnnotation)
    (text : jsstring) :
  linkUrl (make_annotation data) = ann_doc_id (make_annotation data) /\
  hasValidLink (make_annotation data)
  = match ann_doc_id (make_annotation data) with
    | Some (JStr s) => Some (negb (Str.eqb (trim s) []))
    | Some link => if truthy link then None else Some false
    | None => Some false
    end /\
  tooltip_title annotation = title_or_reference annotation /\
  List.length (tooltip_excerpt text) <= 403 /\
  firstn 400 (tooltip_excerpt text) = firstn 400 text /\
  (List.length text <= 400 -> tooltip_excerpt text = text) /\
  (400 < List.length text -> endsWith (lit "...") (tooltip_excerpt text) = true).
Proof.
  assert (Hlink : linkUrl (make_annotation data) = ann_doc_id (make_annotation data)).
  { unfold linkUrl. cbn [ann_url ann_doc_id make_annotation].
    destruct (prop _ (lit "doc_id")) as [link|]; [|reflexivity].
    now destruct (truthy link). }
  split; [exact Hlink|]. split; [|split; [|split; [|split; [|split]]]].
  - unfold hasValidLink. rewrite Hlink.
    destruct (ann_doc_id (make_annotation data)) as [link|]; [|reflexivity].
    destruct link as [|b|n|s|items|fields]; cbn [truthy nonblank];
      try reflexivity.
    destruct s as [|c s]; reflexivity.
  - unfold tooltip_title, title_or_reference. now destruct (ann_title annotation).
  - unfold tooltip_excerpt, substring0.
    destruct (400 <? List.length text) eqn:Hlen.
    + rewrite length_app, length_firstn.
      change (List.length (lit "...")) with 3. lia.
    + apply Nat.ltb_ge in Hlen. lia.
  - unfold tooltip_excerpt, substring0.
    destruct (400 <? List.length text) eqn:Hlen; [|reflexivity].
    apply Nat.ltb_lt in Hlen.
    rewrite firstn_app, length_firstn.
    replace (400 - Nat.min 400 (List.length text)) with 0 by lia.
    rewrite firstn_O, app_nil_r, firstn_firstn. f_equal.
  - intros Hlen. unfold tooltip_excerpt.
    apply Nat.ltb_ge in Hlen. now rewrite Hlen.
  - intros Hlen. unfold tooltip_excerpt.
    apply Nat.ltb_lt in Hlen. rewrite Hlen. apply endsWith_app.
Qed.

End Interface.

(** ** The further properties on concrete inputs *)

(** X2 on the parts ['A'] and ['B']. *)
Lemma error_box_of_error_parts_witness :
  error_header (join_values Text.blank_line [JStr (lit "A"); JStr (lit "B")])
  = lit "A" /\
  error_rest (join_values Text.blank_line [JStr (lit "A"); JStr (lit "B")])
  = lit "B".
Proof.
  assert (Hall : Forall (fun p => ~ In LF p) [lit "A"; lit "B"]).
  { repeat constructor; vm_compute; intuition discriminate. }
  pose proof (@error_box_of_error_parts Demo.env (lit "A") [lit "B"] Hall)
    as (H1 & H2 & _).
  split; [exact H1|exact H2].
Defined.


(** X4 on a text whose first sentence has more than 120 code units. *)
Lemma subtitle_is_short_and_closed_witness :
  List.length (getResponseSubtitle Sample.long_text) <= 83 /\
  endsWith (lit "...") (getResponseSubtitle Sample.long_text) = true.
Proof.
  assert (Hne : Sample.long_text <> []) by (vm_compute; discriminate).
  assert (Hlong : 120 < List.length (trim (first_sentence (trim Sample.long_text))))
    by (vm_compute; lia).
  pose proof (proj2 (@subtitle_is_short_and_closed Sample.long_text) Hne)
    as (_ & _ & _ & H).
  exact (H Hlong).
Defined.

(** X5 on a second turn: the two messages of the first turn are left as
    they were. *)
Lemma turn_touches_only_its_message_witness :
  List.length (messages Sample.two_turns) = 4 /\
  nth_error (messages Sample.two_turns) 1
  = nth_error (messages Sample.after_hello) 1.
Proof.
  assert (Hadm : refused false (lit " And returns? ") = false)
    by computed.
  pose proof (@turn_touches_only_its_message Demo.env Demo.agent false
                Sample.after_hello (lit " And returns? ")
                (FetchResolves (Demo.streaming Demo.steps_chunks None)) Hadm)
    as H.
  cbv zeta in H. destruct H as [Hlen Hnth].
  split.
  - etransitivity; [exact Hlen|]. computed.
  - assert (Hfirst : nth_error
                       (messages (snd (start Sample.after_hello
                                         (lit " And returns? ")))) 1
                     = Some (Demo.reply Sample.after_hello)) by computed.
    destruct (Hnth 1 _ Hfirst) as (m' & Hm' & _ & Hsame).
    assert (Hid : id (Demo.reply Sample.after_hello)
                  <> assistantMessageId
                       (fst (start Sample.after_hello (lit " And returns? ")))).
    { vm_compute. discriminate. }
    rewrite (Hsame Hid) in Hm'.
    etransitivity; [exact Hm'|]. computed.
Defined.

(** X6 on a turn that streams ['Hello']. *)
Lemma admitted_turn_ends_settled_witness :
  isLoading
    (fst (fst (sendMessage Demo.agent false initial Demo.question
                 (FetchResolves (Demo.streaming Demo.hello_chunks None)))))
  = false /\
  snd (fst (sendMessage Demo.agent false initial Demo.question
              (FetchResolves (Demo.streaming Demo.hello_chunks None))))
  = [{| endpoint := lit "http://localhost:4000/api/agents/SALES_AGENT/messages";
        request_text := lit "How many orders?" |}].
Proof.
  assert (Hadm : refused false Demo.question = false) by computed.
  pose proof (@admitted_turn_ends_settled Demo.env Demo.agent false initial
                Demo.question
                (FetchResolves (Demo.streaming Demo.hello_chunks None)) Hadm)
    as H.
  cbv zeta in H. destruct H as (Hload & _ & Hreqs & _).
  split; [exact Hload|]. etransitivity; [exact Hreqs|]. computed.
Defined.

(** X7 on a response with status 400 whose body has an [error] and a
    [message], on a response with status 404 that is no JSON, and on a
    response with status 500 whose [error] member does not convert to a
    string. *)
Lemma http_error_text_fallbacks_witness :
  (exists m,
      last_message
        (messages (fst (fst (sendMessage Demo.agent false initial Demo.question
                               (FetchResolves Sample.json_400))))) m /\
      error m = Some (JStr (lit "Agent not found"))) /\
  (exists m,
      last_message
        (messages (fst (fst (sendMessage Demo.agent false initial Demo.question
                               (FetchResolves Sample.plain_404))))) m /\
      error m = Some (JStr (lit "API Error: 404 Not Found"))) /\
  (exists m,
      last_message
        (messages (fst (fst (sendMessage Demo.agent false initial Demo.question
                               (FetchResolves Sample.unconvertible_500))))) m /\
      error m = Some (JStr (lit "Cannot convert object to primitive value"))).
Proof.
  assert (Hadm : refused false Demo.question = false) by computed.
  assert (Henc : encodeURIComponent Demo.agent = inl Demo.agent) by computed.
  split; [|split].
  - assert (Hok : ok Sample.json_400 = false) by reflexivity.
    destruct (@http_error_text_fallbacks Demo.env Demo.agent Demo.agent false
                initial Demo.question Sample.json_400 Hadm Henc Hok)
      as (m & Hlast & _ & _ & Hmembers).
    exists m. split; [exact Hlast|].
    etransitivity.
    + refine (proj1 (Hmembers (lit "application/json") _ eq_refl _ eq_refl _ _) _).
      * computed.
      * discriminate.
      * vm_compute. exact I.
      * computed.
    + computed.
  - assert (Hok : ok Sample.plain_404 = false) by reflexivity.
    destruct (@http_error_text_fallbacks Demo.env Demo.agent Demo.agent false
                initial Demo.question Sample.plain_404 Hadm Henc Hok)
      as (m & Hlast & _ & Hgeneric & _).
    exists m. split; [exact Hlast|].
    etransitivity.
    + apply Hgeneric. right. left. exists (lit "text/html").
      split; [reflexivity|computed].
    + computed.
  - assert (Hok : ok Sample.unconvertible_500 = false) by reflexivity.
    destruct (@http_error_text_fallbacks Demo.env Demo.agent Demo.agent false
                initial Demo.question Sample.unconvertible_500 Hadm Henc Hok)
      as (m & Hlast & _ & _ & Hmembers).
    exists m. split; [exact Hlast|].
    etransitivity.
    + refine (proj2 (Hmembers (lit "application/json") _ eq_refl _ eq_refl _ _) _).
      * computed.
      * discriminate.
      * vm_compute. exact I.
      * computed.
    + computed.
Defined.

(** X8 on a response with status 200 and no body. *)
Lemma missing_body_is_reported_witness :
  snd (sendMessage Demo.agent false initial Demo.question
         (FetchResolves Sample.no_body))
  = Failure (ThrowError no_stream_error).
Proof.
  assert (Hadm : refused false Demo.question = false) by computed.
  assert (Henc : encodeURIComponent Demo.agent = inl Demo.agent) by computed.
  exact (proj1 (@missing_body_is_reported Demo.env Demo.agent Demo.agent false
                  initial Demo.question Sample.no_body Hadm Henc
                  eq_refl eq_refl)).
Defined.

(** X9 on a [fetch] rejected with ['Failed to fetch']. *)
Lemma lost_connection_names_backend_witness :
  (exists m,
      last_message
        (messages (fst (fst (sendMessage Demo.agent false initial Demo.question
                               (FetchRejects Demo.fetch_failure))))) m /\
      status m = Some status_error /\
      error m = Some (JStr connection_lost_text)) /\
  includes (lit "http://localhost:4000") connection_lost_text = true.
Proof.
  assert (Hadm : refused false Demo.question = false) by computed.
  assert (Henc : encodeURIComponent Demo.agent = inl Demo.agent) by computed.
  assert (Hname : name Sample.fetch_error <> lit "AbortError")
    by (vm_compute; discriminate).
  assert (Hmsg : includes (lit "network") (Types.message Sample.fetch_error) = true
                 \/ includes (lit "fetch") (Types.message Sample.fetch_error) = true)
    by (right; computed).
  pose proof (@lost_connection_names_backend Demo.env Demo.agent Demo.agent false
                initial Demo.question (FetchRejects Demo.fetch_failure)
                Sample.fetch_error Hadm Henc eq_refl eq_refl Hname Hmsg)
    as (H1 & H2 & _).
  split; [exact H1|exact H2].
Defined.

(** X10 on a turn with two status updates, a query and an annotation. *)
Lemma timeline_accounts_for_collections_witness :
  timeline_accounts (Demo.reply (snd Demo.midway)) /\
  entries_of tl_sql (Demo.reply (snd Demo.midway)) = 1 /\
  entries_of tl_annotation (Demo.reply (snd Demo.midway)) = 1.
Proof.
  split; [|split; computed].
  refine (@timeline_accounts_for_collections Demo.env (snd Demo.midway)
            (Demo.reply (snd Demo.midway)) _ _).
  - apply read_loop_reachable. apply reach_start. apply reach_initial.
  - vm_compute. right. left. reflexivity.
Defined.

(** X11 on a data line that comes before any event line and on a record
    of an event the hook does not know. *)
Lemma unknown_events_are_ignored_witness :
  snd (process_lines Demo.fresh
         [Demo.q "data: {'text':'early'}";
          Demo.q "event: response.unknown";
          Demo.q "data: {'text':'ignored'}"])
  = snd Demo.fresh.
Proof.
  refine (proj1 (@unknown_events_are_ignored Demo.env Demo.fresh _ _ _)).
  - vm_compute. intuition discriminate.
  - repeat constructor;
      try (intros H; vm_compute in H; discriminate H);
      intros _; vm_compute; intuition discriminate.
Defined.

(** X12 on the segment ['Plan:'] followed by the deltas ['Hel'] and
    ['lo'], and on the same events in a stream. *)
Lemma reasoning_deltas_extend_last_buffer_witness :
  thinkingTexts
    (fold_left (fun m d => upd_thinking_delta (JStr (fst d)) (snd d) m)
       [(lit "Hel", 1%N); (lit "lo", 2%N)]
       (upd_thinking (lit "Plan:") 0%N (Demo.reply (snd Demo.fresh))))
  = Some [JStr (lit "Plan:Hello")] /\
  thinkingTexts
    (Demo.reply
       (fst (fst (sendMessage Demo.agent false initial Demo.question
                    (FetchResolves
                       (Demo.streaming Sample.reasoning_chunks None))))))
  = Some [JStr (lit "Plan:Hello")].
Proof.
  split; [|computed].
  pose proof (proj1 (proj1 (@reasoning_deltas_extend_last_buffer Demo.env
                              (Demo.reply (snd Demo.fresh))
                              [(lit "Hel", 1%N); (lit "lo", 2%N)])
                       (lit "Plan:") 0%N)) as H.
  settle H.
Defined.

(** X13 on a chart whose spec is JSON and on one whose spec is not. *)
Lemma chart_is_decoded_or_dropped_witness :
  dispatch Text.response_chart Sample.chart_payload (fst Demo.fresh)
    (snd Demo.fresh)
  = Some (fst Demo.fresh,
          setMessages_dated (lit "1700000000000_assistant")
            (upd_chart
               {| chart_spec := JObj [(lit "mark", JStr (lit "bar"))] |})
            (snd Demo.fresh)) /\
  dispatch Text.response_chart Sample.bad_chart_payload (fst Demo.fresh)
    (snd Demo.fresh)
  = Some Demo.fresh /\
  List.length
    (or_empty
       (charts
          (Demo.reply
             (fst (fst (sendMessage Demo.agent false initial Demo.question
                          (FetchResolves
                             (Demo.streaming Sample.reasoning_chunks None))))))))
  = 1.
Proof.
  assert (Hgood : prop Sample.chart_payload (lit "chart_spec")
                  = Some (JStr (Demo.q "{'mark':'bar'}"))) by computed.
  assert (Hbad : prop Sample.bad_chart_payload (lit "chart_spec")
                 = Some (JStr (lit "not-json"))) by computed.
  assert (Hne1 : Demo.q "{'mark':'bar'}" <> []) by (vm_compute; discriminate).
  assert (Hne2 : lit "not-json" <> []) by (vm_compute; discriminate).
  pose proof (proj1 (@chart_is_decoded_or_dropped Demo.env _ _ (fst Demo.fresh)
                       (snd Demo.fresh) Hgood Hne1)) as H1.
  pose proof (proj1 (@chart_is_decoded_or_dropped Demo.env _ _ (fst Demo.fresh)
                       (snd Demo.fresh) Hbad Hne2)) as H2.
  split; [settle H1|]. split; [settle H2|computed].
Defined.

(** X14 on a conversation of two turns. *)
Lemma message_ids_are_unique_witness :
  NoDup (map (fun m => id m) (messages Sample.two_turns)) /\
  map (fun m => id m) (messages Sample.two_turns)
  = [lit "1700000000000_user"; lit "1700000000000_assistant";
     lit "1700000000003_user"; lit "1700000000003_assistant"].
Proof.
  split; [|computed].
  assert (Hclock : clock_never_repeats).
  { intros i j H.
    change ((N.of_nat i + 1700000000000)%N = (N.of_nat j + 1700000000000)%N) in H.
    lia. }
  refine (proj1 (@message_ids_are_unique Demo.env Sample.two_turns Hclock _)).
  apply run_ops_reachable.
Defined.

(** X15 on the second question of a conversation of two turns. *)
Lemma questions_stay_as_sent_witness :
  text (nth 2 (messages Sample.two_turns) (assistantMessage [] 0%N))
  = lit "And returns?" /\
  willShow (nth 2 (messages Sample.two_turns) (assistantMessage [] 0%N))
  = Some true.
Proof.
  split; [computed|].
  refine (proj2 (proj2 (proj2 (proj2 (proj2
            (@questions_stay_as_sent Demo.env Demo.agent _
               (nth 2 (messages Sample.two_turns) (assistantMessage [] 0%N))
               _ _)))))).
  - apply nth_In. vm_compute. lia.
  - computed.
Defined.

(** X17 on an input typed between spaces, and while a turn is in flight. *)
Lemma submit_sends_trimmed_or_cancels_witness :
  inputText
    (fst (handleSubmit Demo.agent Sample.typing
            (FetchResolves (Demo.streaming Demo.hello_chunks None)))) = [] /\
  Forall (fun r => request_text r = lit "How many orders?")
    (snd (handleSubmit Demo.agent Sample.typing
            (FetchResolves (Demo.streaming Demo.hello_chunks None)))) /\
  snd (handleSubmit Demo.agent Sample.waiting
         (FetchResolves (Demo.streaming Demo.hello_chunks None))) = [].
Proof.
  pose proof (@submit_sends_trimmed_or_cancels Demo.env Demo.agent Sample.typing
                (FetchResolves (Demo.streaming Demo.hello_chunks None))) as H.
  pose proof (@submit_sends_trimmed_or_cancels Demo.env Demo.agent Sample.waiting
                (FetchResolves (Demo.streaming Demo.hello_chunks None))) as H'.
  cbv zeta in H, H'. destruct H as (_ & _ & Hsend). destruct H' as (Hcancel & _).
  assert (Hidle : isLoading (hook Sample.typing) = false) by computed.
  assert (Hne : trim (inputText Sample.typing) <> [])
    by (vm_compute; discriminate).
  assert (Hbusy : isLoading (hook Sample.waiting) = true) by computed.
  destruct (Hsend Hidle Hne) as (Hinput & _ & _ & Hreqs & _).
  split; [exact Hinput|]. split.
  - replace (lit "How many orders?") with (trim (inputText Sample.typing))
      by computed.
    exact Hreqs.
  - exact (proj1 (Hcancel Hbusy)).
Defined.

(** X18 on a question resent from an idle hook. *)
Lemma resend_repeats_the_question_witness :
  Forall (fun r => request_text r = lit "How many orders?")
    (snd (handleResend Demo.agent Sample.typing
            (userMessage (lit "1700000000000") (lit "  How many orders?  ") 0%N)
            (FetchResolves (Demo.streaming Demo.hello_chunks None)))).
Proof.
  assert (Hidle : isLoading (hook Sample.typing) = false) by computed.
  assert (Hne : trim (lit "  How many orders?  ") <> [])
    by (vm_compute; discriminate).
  pose proof (@resend_repeats_the_question Demo.env Demo.agent Sample.typing
                (lit "1700000000000") (lit "  How many orders?  ") 0%N
                (FetchResolves (Demo.streaming Demo.hello_chunks None))
                Hidle Hne) as H.
  cbv zeta in H. destruct H as (Hreqs & _).
  replace (lit "How many orders?")
    with (text (userMessage (lit "1700000000000")
                  (lit "  How many orders?  ") 0%N))
    by computed.
  exact Hreqs.
Defined.

(** X19 on the placeholder of a turn, canceled. *)
Lemma settled_turn_is_shown_witness :
  willShow
    (upd_failed (error_text (classify Demo.abort_error))
       (Demo.reply (snd Demo.fresh)))
  = Some true /\
  willShow (Demo.reply (snd Demo.fresh)) = Some false.
Proof.
  split; [|computed].
  assert (Hthinking : willShowThinking (Demo.reply (snd Demo.fresh)) <> None)
    by (vm_compute; discriminate).
  refine (proj1 (@settled_turn_is_shown Demo.env (Demo.reply (snd Demo.fresh))
                   Hthinking) Demo.abort_error _).
  vm_compute. exact I.
Defined.

(** X20 on a response with status 500 whose [error] member is an object. *)
Lemma structured_error_breaks_the_filter_witness :
  visibleMessages
    (messages (fst (fst (sendMessage Demo.agent false initial Demo.question
                           (FetchResolves Sample.structured_500)))))
  = None.
Proof.
  assert (Hadm : refused false Demo.question = false) by computed.
  assert (Henc : encodeURIComponent Demo.agent = inl Demo.agent) by computed.
  assert (Hinc : includes (lit "application/json")
                   (lit "application/json; charset=utf-8") = true) by computed.
  assert (Hparts : match prop (JObj [(lit "error", JObj [(lit "code", JNum 5%Z)])])
                           (lit "errorParts") with
                   | Some parts => truthy parts = false
                   | None => True
                   end) by (vm_compute; exact I).
  assert (Herr : prop (JObj [(lit "error", JObj [(lit "code", JNum 5%Z)])])
                   (lit "error")
                 = Some (JObj [(lit "code", JNum 5%Z)])) by computed.
  assert (Hshape : forall s, JObj [(lit "code", JNum 5%Z)] <> JStr s)
    by (intros s; discriminate).
  assert (Hconv : converts (JObj [(lit "code", JNum 5%Z)]) = true) by computed.
  pose proof (@structured_error_breaks_the_filter Demo.env Demo.agent Demo.agent false
                initial Demo.question Sample.structured_500
                (lit "application/json; charset=utf-8")
                (JObj [(lit "error", JObj [(lit "code", JNum 5%Z)])])
                (JObj [(lit "code", JNum 5%Z)])
                Hadm Henc eq_refl eq_refl Hinc eq_refl Hparts Herr eq_refl
                Hshape Hconv) as H.
  cbv zeta in H. exact (proj2 H).
Defined.

(** X21 on a first reasoning delta whose text is the number 5, and on the
    same delta in a stream. *)
Lemma numeric_reasoning_breaks_the_filter_witness :
  willShow (upd_thinking_delta (JNum 5%Z) 0%N (Demo.reply (snd Demo.fresh)))
  = None /\
  visibleMessages
    (messages (fst (fst (sendMessage Demo.agent false initial Demo.question
                           (FetchResolves
                              (Demo.streaming Sample.numeric_delta_chunks None))))))
  = None.
Proof.
  split; [|computed].
  assert (Hsender : sender (Demo.reply (snd Demo.fresh)) = assistant) by computed.
  assert (Hnone : or_empty (thinkingTexts (Demo.reply (snd Demo.fresh))) = [])
    by computed.
  assert (Hshape : forall s, JNum 5%Z <> JStr s) by (intros s; discriminate).
  exact (proj1 (proj2 (@numeric_reasoning_breaks_the_filter Demo.env
                         (Demo.reply (snd Demo.fresh)) (JNum 5%Z) 0%N
                         Hsender Hnone Hshape))).
Defined.

(** X22 on an annotation whose payload has a [url] and a [doc_id]. *)
Lemma citation_chip_follows_doc_id_witness :
  linkUrl (make_annotation Demo.annotation_payload) = Some (JStr (lit "doc-7")) /\
  hasValidLink (make_annotation Demo.annotation_payload) = Some true /\
  tooltip_excerpt (lit "short") = lit "short".
Proof.
  pose proof (@citation_chip_follows_doc_id Demo.env Demo.annotation_payload
                (make_annotation Demo.annotation_payload) (lit "short"))
    as (Hlink & Hvalid & _ & _ & _ & Hshort & _).
  split; [settle Hlink|]. split; [settle Hvalid|].
  apply Hshort. vm_compute. lia.
Defined.
